(** * Statement matching and reconciliation sessions of the QuickBooks CLI

    A shallow embedding of [qb/commands/import_cmd.py] and
    [qb/commands/reconcile.py]: the statement matcher, the import
    orchestrator ([bank]) and the reconciliation session commands
    ([start], [status], [match]).

    Conventions of the embedding.
    - Python [float] is IEEE binary64: amounts are primitive floats.
    - Python [int] is unbounded: [Z].
    - A Python exception is a [Raise] in the [result] type; [try]/[except]
      is [try_except].
    - The ledger client (HTTP), the clock and the workspace directory are
      state: commands are state-passing functions over a [World].
    - JSON objects coming from the ledger are records of optional fields
      ([None] is an absent key).
    - Strings are byte strings; the model is exact on ASCII text. *)

From Stdlib Require Import ZArith Floats String Ascii List Lia Bool Sorted
  DecimalString.
From stdpp Require Import gmap strings list.

Set Warnings "-inexact-float".
Local Open Scope string_scope.
Local Open Scope list_scope.
Local Open Scope Z_scope.

(** ** Exceptions and results *)

(** The exception classes the modelled code can meet. [ClientError msg] is
    any subclass of [Exception] raised by the ledger client, with
    [str(e) = msg]. *)
Inductive exn : Type :=
  | ValueError
  | OverflowError
  | ClientError (msg : string).

Inductive result (A : Type) : Type :=
  | Ok (a : A)
  | Raise (e : exn).
Arguments Ok {A} a.
Arguments Raise {A} e.

Definition rbind {A B : Type} (r : result A) (k : A -> result B) : result B :=
  match r with
  | Ok a => k a
  | Raise e => Raise e
  end.

(** [str(e)]; only errors of the client are ever printed. *)
Definition exn_str (e : exn) : string :=
  match e with
  | ValueError => "ValueError"
  | OverflowError => "OverflowError"
  | ClientError msg => msg
  end.

(** ** Python's [datetime]: the parts the commands use *)

Module pydate.

(** [datetime._is_leap] *)
Definition is_leap (year : Z) : bool :=
  (year mod 4 =? 0) && (negb (year mod 100 =? 0) || (year mod 400 =? 0)).

(** [datetime._days_before_year] *)
Definition days_before_year (year : Z) : Z :=
  let y := year - 1 in
  y * 365 + y / 4 - y / 100 + y / 400.

(** [datetime._DAYS_IN_MONTH] *)
Definition DAYS_IN_MONTH (month : Z) : Z :=
  match month with
  | 1 => 31 | 2 => 28 | 3 => 31 | 4 => 30 | 5 => 31 | 6 => 30
  | 7 => 31 | 8 => 31 | 9 => 30 | 10 => 31 | 11 => 30 | 12 => 31
  | _ => 0
  end.

(** [datetime._DAYS_BEFORE_MONTH] *)
Definition DAYS_BEFORE_MONTH (month : Z) : Z :=
  match month with
  | 1 => 0 | 2 => 31 | 3 => 59 | 4 => 90 | 5 => 120 | 6 => 151
  | 7 => 181 | 8 => 212 | 9 => 243 | 10 => 273 | 11 => 304 | 12 => 334
  | _ => 0
  end.

(** [datetime._days_in_month] *)
Definition days_in_month (year month : Z) : Z :=
  if (month =? 2) && is_leap year then 29 else DAYS_IN_MONTH month.

(** [datetime._days_before_month] *)
Definition days_before_month (year month : Z) : Z :=
  DAYS_BEFORE_MONTH month + (if (2 <? month) && is_leap year then 1 else 0).

(** [datetime._ymd2ord]: 0001-01-01 is day 1. *)
Definition ymd2ord (year month day : Z) : Z :=
  days_before_year year + days_before_month year month + day.

Definition DI400Y : Z := 146097.
Definition DI100Y : Z := 36524.
Definition DI4Y : Z := 1461.

(** [datetime._MAXORDINAL], the ordinal of 9999-12-31. *)
Definition MAXORDINAL : Z := 3652059.

(** [datetime._ord2ymd] *)
Definition ord2ymd (n0 : Z) : Z * Z * Z :=
  let n := n0 - 1 in
  let n400 := n / DI400Y in
  let n := n mod DI400Y in
  let year := n400 * 400 + 1 in
  let n100 := n / DI100Y in
  let n := n mod DI100Y in
  let n4 := n / DI4Y in
  let n := n mod DI4Y in
  let n1 := n / 365 in
  let n := n mod 365 in
  let year := year + n100 * 100 + n4 * 4 + n1 in
  if (n1 =? 4) || (n100 =? 4) then (year - 1, 12, 31)
  else
    let leapyear := (n1 =? 3) && (negb (n4 =? 24) || (n100 =? 3)) in
    let month := Z.shiftr (n + 50) 5 in
    let preceding :=
      DAYS_BEFORE_MONTH month + (if (2 <? month) && leapyear then 1 else 0) in
    if n <? preceding then
      let month := month - 1 in
      let preceding :=
        preceding
        - (DAYS_IN_MONTH month + (if (month =? 2) && leapyear then 1 else 0)) in
      (year, month, n - preceding + 1)
    else (year, month, n - preceding + 1).

(** *** [strptime(s, "%Y-%m-%d")] *)

Definition is_digit (c : ascii) : bool :=
  let n := N_of_ascii c in ((48 <=? n) && (n <=? 57))%N.

Definition digit_val (c : ascii) : Z := Z.of_N (N_of_ascii c) - 48.

Definition in_range (lo hi : Z) (c : ascii) : bool :=
  is_digit c && (lo <=? digit_val c) && (digit_val c <=? hi).

(** The [%m] group of [_strptime]: [1[0-2]|0[1-9]|[1-9]], alternatives
    tried in this order. Returns the month and the unread rest. *)
Definition parse_month (s : list ascii) : option (Z * list ascii) :=
  match s with
  | c1 :: c2 :: rest =>
      if Ascii.eqb c1 "1" && in_range 0 2 c2 then Some (10 + digit_val c2, rest)
      else if Ascii.eqb c1 "0" && in_range 1 9 c2 then Some (digit_val c2, rest)
      else if in_range 1 9 c1 then Some (digit_val c1, c2 :: rest)
      else None
  | [c1] => if in_range 1 9 c1 then Some (digit_val c1, []) else None
  | [] => None
  end.

(** The [%d] group: [3[0-1]|[1-2]\d|0[1-9]|[1-9]| [1-9]]. *)
Definition parse_day (s : list ascii) : option (Z * list ascii) :=
  match s with
  | c1 :: c2 :: rest =>
      if Ascii.eqb c1 "3" && in_range 0 1 c2 then Some (30 + digit_val c2, rest)
      else if in_range 1 2 c1 && is_digit c2
           then Some (10 * digit_val c1 + digit_val c2, rest)
      else if Ascii.eqb c1 "0" && in_range 1 9 c2 then Some (digit_val c2, rest)
      else if in_range 1 9 c1 then Some (digit_val c1, c2 :: rest)
      else if Ascii.eqb c1 " " && in_range 1 9 c2 then Some (digit_val c2, rest)
      else None
  | [c1] => if in_range 1 9 c1 then Some (digit_val c1, []) else None
  | [] => None
  end.

(** The fields matched by the compiled format
    [(\d\d\d\d)-(month)-(day)]; the whole input has to be consumed
    (otherwise: unconverted data remains). *)
Definition match_ymd (s : string) : option (Z * Z * Z) :=
  match list_ascii_of_string s with
  | y1 :: y2 :: y3 :: y4 :: dash1 :: rest =>
      if is_digit y1 && is_digit y2 && is_digit y3 && is_digit y4
         && Ascii.eqb dash1 "-"
      then
        match parse_month rest with
        | Some (m, dash2 :: rest') =>
            if Ascii.eqb dash2 "-" then
              match parse_day rest' with
              | Some (d, []) =>
                  Some (1000 * digit_val y1 + 100 * digit_val y2
                        + 10 * digit_val y3 + digit_val y4, m, d)
              | _ => None
              end
            else None
        | _ => None
        end
      else None
  | _ => None
  end.

(** [datetime.strptime(s, "%Y-%m-%d")], as the proleptic ordinal of the
    parsed day (the time of day is midnight). Any failure is a
    [ValueError]: no match, year 0, or a day the month does not have. *)
Definition strptime (s : string) : result Z :=
  match match_ymd s with
  | Some (y, m, d) =>
      if (1 <=? y) && (d <=? days_in_month y m) then Ok (ymd2ord y m d)
      else Raise ValueError
  | None => Raise ValueError
  end.

(** [dt + timedelta(days=delta)]: [OverflowError] when the day count is
    beyond what [timedelta] holds or the date leaves 0001..9999. *)
Definition add_days (ord delta : Z) : result Z :=
  if 999999999 <? Z.abs delta then Raise OverflowError
  else
    let o := ord + delta in
    if (1 <=? o) && (o <=? MAXORDINAL) then Ok o else Raise OverflowError.

Definition digit_char (d : Z) : ascii := ascii_of_N (Z.to_N (48 + d)).

Definition pad2 (n : Z) : string :=
  String (digit_char (n / 10 mod 10)) (String (digit_char (n mod 10)) "").

Definition pad4 (n : Z) : string :=
  String (digit_char (n / 1000 mod 10))
    (String (digit_char (n / 100 mod 10)) (pad2 n)).

(** [dt.strftime("%Y-%m-%d")], with a four-digit year (for years below
    1000 the C library decides the padding of [%Y]; the text only goes
    into the query sent to the ledger). *)
Definition strftime (ord : Z) : string :=
  let '(y, m, d) := ord2ymd ord in
  pad4 y +:+ "-" +:+ pad2 m +:+ "-" +:+ pad2 d.

End pydate.

(** [s[:10]] *)
Definition slice10 (s : string) : string := String.substring 0 10 s.

(** [abs((strptime(a[:10]) - strptime(b[:10])).days)]: the left operand is
    parsed first. *)
Definition days_between (a b : string) : result Z :=
  rbind (pydate.strptime (slice10 a)) (fun d1 =>
  rbind (pydate.strptime (slice10 b)) (fun d2 =>
  Ok (Z.abs (d1 - d2)))).

(** ** Python's [round(x, 2)] on floats *)

(** The exact value [m * 2^e], in hundredths, rounded to the nearest
    integer, ties to even: what [dtoa] mode 3 with two digits yields. *)
Definition hundredths (m : positive) (e : Z) : Z :=
  if 0 <=? e then Z.pos m * 100 * 2 ^ e
  else
    let d := 2 ^ (- e) in
    let n := Z.pos m * 100 in
    let q := n / d in
    let r := n mod d in
    if 2 * r <? d then q
    else if d <? 2 * r then q + 1
    else if Z.even q then q else q + 1.

(** [round(x, 2)] (CPython [double_round]): the exact binary value is
    rounded to two decimals, and the decimal is read back as the nearest
    double; NaN, the infinities and the zeros round to themselves and the
    sign is kept. *)
Definition py_round2 (x : float) : float :=
  match Prim2SF x with
  | S754_finite s m e =>
      match hundredths m e with
      | Z.pos q => SF2Prim (SF64div (S754_finite s q 0) (S754_finite false 100 0))
      | _ => if s then (-0)%float else 0%float
      end
  | _ => x
  end.

(** ** Data model *)

(** A normalized statement transaction, the dict built by [_parse_ofx] and
    [_parse_csv]; every key is always present. The date and the name are
    text: always so for [_parse_ofx]; for [_parse_csv] when the row has a
    cell for each of the two columns (the reader gives [None] for a missing
    cell, and slicing such a date is a [TypeError]; those rows are outside
    the model). *)
Record Txn : Type := mkTxn {
  date : string;
  amount : float;
  fitid : string;
  name : string;
  memo : string;
  type_ : string;
  check_number : string;
}.

(** A ledger document as the query returns it: a JSON object of which the
    commands read these keys. *)
Record LedgerItem : Type := mkItem {
  Id : option string;
  TxnDate : option string;
  TotalAmt : option float;
  Amount : option float;
  DocNumber : option string;
  _fitid : option string;
  PrivateNote : option string;
  PaymentRefNum : option string;
  _entity_type : option string;
}.

(** [d.get(key, dflt)] on an optional field. *)
Definition get {A : Type} (field : option A) (dflt : A) : A :=
  match field with
  | Some v => v
  | None => dflt
  end.

(** Truth value of a string: non-empty. *)
Definition truthy (s : string) : bool :=
  match s with
  | EmptyString => false
  | String _ _ => true
  end.

(** [float(ex.get("TotalAmt", ex.get("Amount", 0)))] *)
Definition item_amount (ex : LedgerItem) : float :=
  get (TotalAmt ex) (get (Amount ex) 0%float).

Inductive match_kind : Type := Exact | Probable.

(** An entry of the [matched] and [probable] lists. *)
Record MatchEntry : Type := mkEntry {
  imported : Txn;
  existing : LedgerItem;
  match_type : match_kind;
}.

(** The dict returned by [_match_transactions]. *)
Record MatchResult : Type := mkResult {
  matched : list MatchEntry;
  probable : list MatchEntry;
  unmatched : list Txn;
}.

(** ** The matcher ([import_cmd._match_transactions]) *)

(** The amount test of the inner loop,
    [abs(abs(imp_amt) - abs(ex_amt)) > 0.01]: [true] skips the candidate. *)
Definition amount_differs (imp_amt ex_amt : float) : bool :=
  (0.01 <? abs (abs imp_amt - abs ex_amt))%float.

(** The date distance of the inner loop: the [try] around the two
    [strptime] calls, with 999 when either raises. *)
Definition days_diff_of (imp_date ex_date : string) : Z :=
  match days_between imp_date ex_date with
  | Ok d => d
  | Raise _ => 999
  end.

(** The identifier test of the exact branch. *)
Definition id_match (imp : Txn) (ex : LedgerItem) : bool :=
  (truthy (fitid imp) && String.eqb (fitid imp) (get (_fitid ex) ""))
  || (truthy (check_number imp)
      && String.eqb (check_number imp) (get (DocNumber ex) "")).

(** The condition of the probable branch,
    [best_match is None or days_diff < abs((strptime(imp_date[:10]) -
    strptime(best_match.get("TxnDate", "1900-01-01")[:10])).days)];
    the two [strptime] calls are outside any [try]. *)
Definition better_than_best (imp_date : string) (days_diff : Z)
    (best_match : option LedgerItem) : result bool :=
  match best_match with
  | None => Ok true
  | Some b =>
      rbind (days_between imp_date (get (TxnDate b) "1900-01-01"))
            (fun d => Ok (days_diff <? d))
  end.

(** The inner [for ex in existing] loop for one statement record, from the
    current [best_match] and [match_type]; [break] ends the recursion. *)
Fixpoint scan_existing (imp : Txn) (tolerance_days : Z)
    (exs : list LedgerItem)
    (best_match : option LedgerItem) (mt : option match_kind)
    : result (option LedgerItem * option match_kind) :=
  match exs with
  | [] => Ok (best_match, mt)
  | ex :: rest =>
      let ex_amt := item_amount ex in
      let ex_date := get (TxnDate ex) "" in
      if amount_differs (amount imp) ex_amt
      then scan_existing imp tolerance_days rest best_match mt
      else
        let days_diff := days_diff_of (date imp) ex_date in
        if tolerance_days <? days_diff
        then scan_existing imp tolerance_days rest best_match mt
        else if (days_diff =? 0) && id_match imp ex
        then Ok (Some ex, Some Exact)
        else
          match better_than_best (date imp) days_diff best_match with
          | Raise e => Raise e
          | Ok true => scan_existing imp tolerance_days rest (Some ex) (Some Probable)
          | Ok false => scan_existing imp tolerance_days rest best_match mt
          end
  end.

(** The tail of the outer loop body: the record goes to one of the three
    lists according to [match_type] (which the inner loop only ever sets
    together with [best_match]). *)
Definition file_outcome (imp : Txn)
    (o : option LedgerItem * option match_kind) (acc : MatchResult)
    : MatchResult :=
  match o with
  | (Some b, Some Exact) =>
      mkResult (matched acc ++ [mkEntry imp b Exact]) (probable acc) (unmatched acc)
  | (Some b, Some Probable) =>
      mkResult (matched acc) (probable acc ++ [mkEntry imp b Probable]) (unmatched acc)
  | _ => mkResult (matched acc) (probable acc) (unmatched acc ++ [imp])
  end.

(** The outer [for imp in imported] loop. *)
Fixpoint match_loop (imps : list Txn) (exs : list LedgerItem)
    (tolerance_days : Z) (acc : MatchResult) : result MatchResult :=
  match imps with
  | [] => Ok acc
  | imp :: rest =>
      match scan_existing imp tolerance_days exs None None with
      | Raise e => Raise e
      | Ok o => match_loop rest exs tolerance_days (file_outcome imp o acc)
      end
  end.

Definition _match_transactions (imps : list Txn) (exs : list LedgerItem)
    (tolerance_days : Z) : result MatchResult :=
  match_loop imps exs tolerance_days (mkResult [] [] []).

(** ** The world the commands run in *)

(** The body of [resp["QueryResponse"]]: document type to documents. *)
Abbreviation QueryResponse := (gmap string (list LedgerItem)).

(** The response to a create: document type to the created document. *)
Abbreviation PostResponse := (gmap string LedgerItem).

(** The [Account] object of [client.get("account/<id>")]. *)
Record Account : Type := mkAccount {
  Name : option string;
  CurrentBalance : option float;
}.

(** Bodies posted by [bank]. *)
Record PurchaseBody : Type := mkPurchase {
  p_AccountRef : string;
  p_PaymentType : string;
  p_TxnDate : string;
  p_LineAmount : float;
  p_LineDetailType : string;
  p_LineAccountRef : string;
  p_PrivateNote : string;
  p_DocNumber : option string;
}.

Record DepositBody : Type := mkDeposit {
  d_DepositToAccountRef : string;
  d_TxnDate : string;
  d_LineAmount : float;
  d_LineDetailType : string;
  d_LineAccountRef : string;
  d_PrivateNote : string;
}.

Inductive PostBody : Type :=
  | purchase_body (b : PurchaseBody)
  | deposit_body (b : DepositBody).

(** The persisted session object of [reconcile start]. *)
Record Session : Type := mkSession {
  account_id : string;
  account_name : string;
  statement_date : string;
  statement_balance : float;
  qb_balance : float;
  difference : float;
  status_ : string;
  transaction_count : nat;
  started_at : string;
}.

(** The ledger client and the clock, over an opaque remote state [W].
    Every call may change the remote state and may raise. *)
Record Client (W : Type) : Type := mkClient {
  client_get : string -> W -> result (option Account) * W;
  client_query : string -> Z -> W -> result QueryResponse * W;
  client_post : string -> PostBody -> W -> result PostResponse * W;
  now_isoformat : W -> string * W;
}.
Arguments client_get {W} _ _ _.
Arguments client_query {W} _ _ _ _.
Arguments client_post {W} _ _ _ _.
Arguments now_isoformat {W} _ _.

(** The remote state and the files of the workspace directory (file name
    to the session stored in it). *)
Record World (W : Type) : Type := mkWorld {
  remote : W;
  workspace : gmap string Session;
}.
Arguments mkWorld {W} _ _.
Arguments remote {W} _.
Arguments workspace {W} _.

(** Commands: state passing with exceptions. The state reached when an
    exception is raised is kept, as the effects so far have happened. *)
Definition M (W A : Type) : Type := World W -> result A * World W.

Definition ret {W A : Type} (a : A) : M W A := fun w => (Ok a, w).

Definition raise {W A : Type} (e : exn) : M W A := fun w => (Raise e, w).

Definition bind {W A B : Type} (m : M W A) (k : A -> M W B) : M W B :=
  fun w =>
    match m w with
    | (Ok a, w') => k a w'
    | (Raise e, w') => (Raise e, w')
    end.

Notation "'let*' x ':=' m 'in' k" := (bind m (fun x => k))
  (at level 10, x pattern, m at level 100, k at level 200).

(** [try: m  except Exception as e: handler e] *)
Definition try_except {W A : Type} (m : M W A) (handler : exn -> M W A) : M W A :=
  fun w =>
    match m w with
    | (Ok a, w') => (Ok a, w')
    | (Raise e, w') => handler e w'
    end.

Definition lift_result {W A : Type} (r : result A) : M W A := fun w => (r, w).

Definition on_remote {W A : Type} (f : W -> result A * W) : M W A :=
  fun w => let '(r, rw) := f (remote w) in (r, mkWorld rw (workspace w)).

Definition get_ {W : Type} (c : Client W) (path : string) : M W (option Account) :=
  on_remote (client_get c path).

Definition query {W : Type} (c : Client W) (sql : string) (max_results : Z)
    : M W QueryResponse :=
  on_remote (client_query c sql max_results).

Definition post {W : Type} (c : Client W) (path : string) (body : PostBody)
    : M W PostResponse :=
  on_remote (client_post c path body).

Definition now {W : Type} (c : Client W) : M W string :=
  on_remote (fun rw => let '(t, rw') := now_isoformat c rw in (Ok t, rw')).

(** [json.dump(session, open(WORKSPACE / file, "w"))], for a write that
    succeeds. The code does the write outside any [try], and the file
    system can refuse it (a statement date with a path separator, a name
    that is too long); then [start] raises after its queries. What is
    proved about [start] is stated for the runs that return. *)
Definition write_session {W : Type} (file : string) (s : Session) : M W unit :=
  fun w => (Ok tt, mkWorld (remote w) (<[file := s]> (workspace w))).

(** ** Helpers shared by the commands *)

(** [qb.api.query.escape_query_value]: every single quote is doubled. *)
Fixpoint escape_query_value (value : string) : string :=
  match value with
  | EmptyString => EmptyString
  | String c rest =>
      if Ascii.eqb c "'"
      then String "'" (String "'" (escape_query_value rest))
      else String c (escape_query_value rest)
  end.

(** [min(dates)] on strings: [ValueError] on the empty list, else the first
    smallest element. *)
Definition py_min (l : list string) : result string :=
  match l with
  | [] => Raise ValueError
  | x :: rest => Ok (fold_left (fun m y => if String.ltb y m then y else m) rest x)
  end.

(** [max(dates)] *)
Definition py_max (l : list string) : result string :=
  match l with
  | [] => Raise ValueError
  | x :: rest => Ok (fold_left (fun m y => if String.ltb m y then y else m) rest x)
  end.

(** [[t["date"][:10] for t in txns if t["date"]]] *)
Definition nonempty_dates (txns : list Txn) : list string :=
  slice10 <$> filter (fun d => truthy d = true) (date <$> txns).

(** ** The import orchestrator ([import_cmd.bank]) *)

Module import_cmd.

(** The query window of [bank]: [min]/[max] of the non-empty dates,
    widened by the tolerance inside [try ... except ValueError], which
    falls back to the raw pair. *)
Definition date_window (txns : list Txn) (tolerance : Z)
    : result (string * string) :=
  let dates := nonempty_dates txns in
  rbind (py_min dates) (fun min_date =>
  rbind (py_max dates) (fun max_date =>
  match
    rbind (pydate.strptime min_date) (fun d0 =>
    rbind (pydate.add_days d0 (- tolerance)) (fun d0' =>
    let start := pydate.strftime d0' in
    rbind (pydate.strptime max_date) (fun d1 =>
    rbind (pydate.add_days d1 tolerance) (fun d1' =>
    Ok (start, pydate.strftime d1')))))
  with
  | Ok w => Ok w
  | Raise ValueError => Ok (min_date, max_date)
  | Raise e => Raise e
  end)).

Definition ENTITIES : list string :=
  ["Purchase"; "Deposit"; "Transfer"; "JournalEntry"].

(** The per-type queries never ask for more than this. *)
Definition MAX_RESULTS : Z := 500.

Definition select_sql (entity safe_start safe_end : string) : string :=
  "SELECT * FROM " +:+ entity +:+ " WHERE TxnDate >= '" +:+ safe_start
  +:+ "' AND TxnDate <= '" +:+ safe_end +:+ "'".

(** The body of the query loop for one document type:
    [try: ... existing.append(item) ... except Exception: continue]. *)
Definition fetch_entity {W : Type} (c : Client W)
    (safe_start safe_end : string) (existing : list LedgerItem)
    (entity : string) : M W (list LedgerItem) :=
  try_except
    (let* resp := query c (select_sql entity safe_start safe_end) MAX_RESULTS in
     ret (existing ++ get (resp !! entity) []))
    (fun _ => ret existing).

(** [for entity in [...]: ...] *)
Fixpoint fetch_existing {W : Type} (c : Client W)
    (safe_start safe_end : string) (entities : list string)
    (existing : list LedgerItem) : M W (list LedgerItem) :=
  match entities with
  | [] => ret existing
  | entity :: rest =>
      let* existing' := fetch_entity c safe_start safe_end existing entity in
      fetch_existing c safe_start safe_end rest existing'
  end.

(** An element of the [created] list. *)
Inductive CreatedEntry : Type :=
  | created_ok (txn : Txn) (qb_entity : string) (qb_id : option string)
  | created_error (txn : Txn) (error : string).

Definition created_txn (e : CreatedEntry) : Txn :=
  match e with
  | created_ok t _ _ => t
  | created_error t _ => t
  end.

Definition purchase_of (account_id : string) (txn : Txn) : PurchaseBody :=
  mkPurchase account_id "Cash" (slice10 (date txn)) (abs (amount txn))
    "AccountBasedExpenseLineDetail" "31"
    ("Imported: " +:+ name txn)
    (if truthy (check_number txn) then Some (check_number txn) else None).

Definition deposit_of (account_id : string) (txn : Txn) : DepositBody :=
  mkDeposit account_id (slice10 (date txn)) (amount txn)
    "DepositLineDetail" "32" ("Imported: " +:+ name txn).

(** The body of the creation loop for one unmatched record. *)
Definition create_one {W : Type} (c : Client W) (account_id : string)
    (created : list CreatedEntry) (txn : Txn) : M W (list CreatedEntry) :=
  try_except
    (if (amount txn <? 0)%float
     then
       let* resp := post c "purchase" (purchase_body (purchase_of account_id txn)) in
       ret (created ++ [created_ok txn "Purchase" (resp !! "Purchase" ≫= Id)])
     else
       let* resp := post c "deposit" (deposit_body (deposit_of account_id txn)) in
       ret (created ++ [created_ok txn "Deposit" (resp !! "Deposit" ≫= Id)]))
    (fun e => ret (created ++ [created_error txn (exn_str e)])).

(** [for txn in result["unmatched"]: ...] *)
Fixpoint create_unmatched {W : Type} (c : Client W) (account_id : string)
    (txns : list Txn) (created : list CreatedEntry)
    : M W (list CreatedEntry) :=
  match txns with
  | [] => ret created
  | txn :: rest =>
      let* created' := create_one c account_id created txn in
      create_unmatched c account_id rest created'
  end.

(** The report dict. *)
Record ImportReport : Type := mkReport {
  r_file : string;
  r_format : string;
  r_total_imported : nat;
  r_matched : nat;
  r_probable_matches : nat;
  r_unmatched : nat;
  r_created : nat;
  r_dry_run : bool;
  r_details_matched : list (Txn * option string);
  r_details_probable : list (Txn * option string);
  r_details_unmatched : list Txn;
  r_details_created : list CreatedEntry;
}.

(** What the command prints. *)
Inductive Output : Type :=
  | empty_notice
  | report (r : ImportReport).

Definition entry_detail (m : MatchEntry) : Txn * option string :=
  (imported m, Id (existing m)).

Definition build_report (file_path detected : string) (txns : list Txn)
    (result : MatchResult) (created : list CreatedEntry) (dry_run : bool)
    : ImportReport :=
  mkReport file_path detected (length txns)
    (length (matched result)) (length (probable result))
    (length (unmatched result))
    (if negb dry_run then length created else 0%nat)
    dry_run
    (entry_detail <$> matched result)
    (entry_detail <$> probable result)
    (unmatched result)
    (if negb dry_run then created else []).

(** [bank], from the parsed statement on: [detected] is the format and
    [txns] the records the parser returned for [file_path]. *)
Definition bank {W : Type} (c : Client W) (file_path account_id detected : string)
    (txns : list Txn) (dry_run : bool) (tolerance : Z) : M W Output :=
  match txns with
  | [] => ret empty_notice
  | _ =>
      let* (start, end_) := lift_result (date_window txns tolerance) in
      let safe_start := escape_query_value start in
      let safe_end := escape_query_value end_ in
      let* existing := fetch_existing c safe_start safe_end ENTITIES [] in
      let* result := lift_result (_match_transactions txns existing tolerance) in
      let* created :=
        (if negb dry_run
         then create_unmatched c account_id (unmatched result) []
         else ret []) in
      ret (report (build_report file_path detected txns result created dry_run))
  end.

End import_cmd.

(** ** Reconciliation sessions ([reconcile.start], [status], [match]) *)

Module reconcile.

Definition START_ENTITIES : list string :=
  ["Purchase"; "Deposit"; "Transfer"; "Payment"; "SalesReceipt"; "BillPayment"].

Definition MATCH_ENTITIES : list string :=
  ["Purchase"; "Deposit"; "Transfer"; "Payment"; "SalesReceipt"; "JournalEntry"].

Definition START_MAX_RESULTS : Z := 1000.
Definition MATCH_MAX_RESULTS : Z := 500.

(** An element of the [uncleared] list of [start]. *)
Record Uncleared : Type := mkUncleared {
  u_type : string;
  u_id : option string;
  u_date : option string;
  u_amount : float;
  u_doc_number : string;
  u_memo : string;
  u_ref : string;
}.

Definition uncleared_of (entity : string) (item : LedgerItem) : Uncleared :=
  mkUncleared entity (Id item) (TxnDate item) (item_amount item)
    (get (DocNumber item) "") (get (PrivateNote item) "")
    (get (PaymentRefNum item) (get (DocNumber item) "")).

Definition start_sql (entity statement_date : string) : string :=
  "SELECT * FROM " +:+ entity +:+ " WHERE TxnDate <= '" +:+ statement_date +:+ "'".

Definition start_fetch_entity {W : Type} (c : Client W) (statement_date : string)
    (uncleared : list Uncleared) (entity : string) : M W (list Uncleared) :=
  try_except
    (let* resp := query c (start_sql entity statement_date) START_MAX_RESULTS in
     ret (uncleared ++ (uncleared_of entity <$> get (resp !! entity) [])))
    (fun _ => ret uncleared).

Fixpoint start_fetch {W : Type} (c : Client W) (statement_date : string)
    (entities : list string) (uncleared : list Uncleared)
    : M W (list Uncleared) :=
  match entities with
  | [] => ret uncleared
  | entity :: rest =>
      let* uncleared' := start_fetch_entity c statement_date uncleared entity in
      start_fetch c statement_date rest uncleared'
  end.

(** The name of the session file inside the workspace directory. *)
Definition session_file_name (account_id statement_date : string) : string :=
  "reconcile_" +:+ account_id +:+ "_" +:+ statement_date +:+ ".json".

(** ["balanced" if abs(difference) < 0.01 else "unbalanced"] *)
Definition classify (difference : float) : string :=
  if (abs difference <? 0.01)%float then "balanced" else "unbalanced".

(** What [start] prints: the session, its file and the first twenty
    transactions. *)
Record StartResult : Type := mkStart {
  s_session : Session;
  s_session_file : string;
  s_recent_transactions : list Uncleared;
}.

Definition start {W : Type} (c : Client W) (account_id statement_date : string)
    (statement_balance : float) : M W StartResult :=
  let* resp := get_ c ("account/" +:+ account_id) in
  let acct := get resp (mkAccount None None) in
  let acct_name := get (Name acct) ("Account " +:+ account_id) in
  let qb_balance := get (CurrentBalance acct) 0%float in
  let* uncleared := start_fetch c statement_date START_ENTITIES [] in
  let difference := py_round2 (statement_balance - qb_balance)%float in
  let* started := now c in
  let session :=
    mkSession account_id acct_name statement_date statement_balance
      qb_balance difference (classify difference) (length uncleared) started in
  let file := session_file_name account_id statement_date in
  let* _ := write_session file session in
  ret (mkStart session ("/workspace/" +:+ file) (take 20 uncleared)).

(** [name] ends with [suffix]. *)
Definition ends_with (suffix name : string) : bool :=
  String.eqb
    (String.substring (String.length name - String.length suffix)
                      (String.length suffix) name)
    suffix.

(** A file name matches the pattern [reconcile_<account_id>_*.json], for
    an account id that the pattern language reads as it is written
    ([glob_literal] below): the id is taken literally. An id with one of
    the characters of the pattern language would match other names as
    well, and the statements about [status] leave such ids out. *)
Definition glob_match (account_id name : string) : bool :=
  let pre := "reconcile_" +:+ account_id +:+ "_" in
  String.prefix pre name && ends_with ".json" name
  && (String.length pre + String.length ".json" <=? String.length name)%nat.

(** [WORKSPACE.glob(pattern)]: the matching files, in directory order. *)
Definition glob (account_id : string) (files : gmap string Session)
    : list (string * Session) :=
  filter (fun f => glob_match account_id f.1 = true) (map_to_list files).

Fixpoint insert_desc (f : string * Session) (l : list (string * Session))
    : list (string * Session) :=
  match l with
  | [] => [f]
  | g :: rest =>
      if String.leb g.1 f.1 then f :: g :: rest else g :: insert_desc f rest
  end.

(** [sorted(paths, reverse=True)]: by file name, largest first. *)
Definition sorted_reverse (l : list (string * Session)) : list (string * Session) :=
  foldr insert_desc [] l.

(** What [status] prints. *)
Inductive StatusOutput : Type :=
  | status_none (message : string)
  | status_session (s : Session).

Definition status {W : Type} (account_id : string) : M W StatusOutput :=
  fun w =>
    match sorted_reverse (glob account_id (workspace w)) with
    | [] =>
        (Ok (status_none
               ("No reconciliation in progress for account " +:+ account_id)), w)
    | f :: _ => (Ok (status_session f.2), w)
    end.

Definition match_sql (entity min_date max_date : string) : string :=
  "SELECT * FROM " +:+ entity +:+ " WHERE TxnDate >= '" +:+ min_date
  +:+ "' AND TxnDate <= '" +:+ max_date +:+ "'".

(** [item["_entity_type"] = entity] *)
Definition tag_entity (entity : string) (item : LedgerItem) : LedgerItem :=
  mkItem (Id item) (TxnDate item) (TotalAmt item) (Amount item)
    (DocNumber item) (_fitid item) (PrivateNote item) (PaymentRefNum item)
    (Some entity).

Definition match_fetch_entity {W : Type} (c : Client W) (min_date max_date : string)
    (qb_txns : list LedgerItem) (entity : string) : M W (list LedgerItem) :=
  try_except
    (let* resp := query c (match_sql entity min_date max_date) MATCH_MAX_RESULTS in
     ret (qb_txns ++ (tag_entity entity <$> get (resp !! entity) [])))
    (fun _ => ret qb_txns).

Fixpoint match_fetch {W : Type} (c : Client W) (min_date max_date : string)
    (entities : list string) (qb_txns : list LedgerItem)
    : M W (list LedgerItem) :=
  match entities with
  | [] => ret qb_txns
  | entity :: rest =>
      let* qb_txns' := match_fetch_entity c min_date max_date qb_txns entity in
      match_fetch c min_date max_date rest qb_txns'
  end.

Record Outstanding : Type := mkOutstanding {
  o_type : option string;
  o_id : option string;
  o_date : option string;
  o_amount : float;
  o_doc_number : string;
}.

Definition outstanding_of (t : LedgerItem) : Outstanding :=
  mkOutstanding (_entity_type t) (Id t) (TxnDate t) (item_amount t)
    (get (DocNumber t) "").

(** The set of ledger ids of the matched and probable entries. *)
Definition matched_qb_ids (result : MatchResult) : gset (option string) :=
  list_to_set ((fun m => Id (existing m)) <$> (matched result ++ probable result)).

Record MatchReport : Type := mkMatchReport {
  m_statement_file : string;
  m_statement_transactions : nat;
  m_qb_transactions : nat;
  m_matched : nat;
  m_probable_matches : nat;
  m_unmatched_on_statement : nat;
  m_outstanding_in_qb : nat;
  m_details_matched : list (Txn * option string * option string);
  m_details_probable : list (Txn * option string * option string);
  m_details_unmatched_on_statement : list Txn;
  m_details_outstanding_in_qb : list Outstanding;
}.

Inductive MatchOutput : Type :=
  | match_empty
  | match_report (r : MatchReport).

Definition entry_detail (m : MatchEntry) : Txn * option string * option string :=
  (imported m, Id (existing m), _entity_type (existing m)).

(** [match], from the parsed statement on. *)
Definition match_ {W : Type} (c : Client W) (account_id statement_file : string)
    (stmt_txns : list Txn) (tolerance : Z) : M W MatchOutput :=
  match stmt_txns with
  | [] => ret match_empty
  | _ =>
      let dates := nonempty_dates stmt_txns in
      let* min_date := lift_result (py_min dates) in
      let* max_date := lift_result (py_max dates) in
      let* qb_txns := match_fetch c min_date max_date MATCH_ENTITIES [] in
      let* result := lift_result (_match_transactions stmt_txns qb_txns tolerance) in
      let ids := matched_qb_ids result in
      let outstanding_in_qb :=
        outstanding_of <$> filter (fun t => Id t ∉ ids) qb_txns in
      ret (match_report
             (mkMatchReport statement_file (length stmt_txns) (length qb_txns)
                (length (matched result)) (length (probable result))
                (length (unmatched result)) (length outstanding_in_qb)
                (entry_detail <$> matched result)
                (entry_detail <$> probable result)
                (unmatched result) outstanding_in_qb))
  end.

End reconcile.

(** ** The statement parser for OFX ([import_cmd._parse_ofx]) *)

(** A transaction object of the OFX library, with the attributes the parser
    reads: [date] is a datetime or [None], given here by the ordinal of its
    day; [amount] is given by its value as a float; the text attributes
    may be [None]. *)
Record OfxTxn : Type := mkOfxTxn {
  ofx_date : option Z;
  ofx_amount : float;
  ofx_id : option string;
  ofx_payee : option string;
  ofx_memo : option string;
  ofx_type : option string;
  ofx_checknum : option string;
}.

(** [x or d] for a text attribute. *)
Definition or_else (x : option string) (d : string) : string :=
  match x with
  | Some s => if truthy s then s else d
  | None => d
  end.

(** The dict appended for one transaction. *)
Definition ofx_record (txn : OfxTxn) : Txn :=
  mkTxn
    (match ofx_date txn with
     | Some d => pydate.strftime d
     | None => ""
     end)
    (ofx_amount txn)
    (or_else (ofx_id txn) "")
    (or_else (ofx_payee txn) (or_else (ofx_memo txn) ""))
    (or_else (ofx_memo txn) "")
    (or_else (ofx_type txn) "")
    (or_else (ofx_checknum txn) "").

(** [_parse_ofx], from the parsed file on: [accounts] holds, account by
    account, the transactions of the statement of the account. *)
Definition _parse_ofx (accounts : list (list OfxTxn)) : list Txn :=
  fold_left
    (fun txns transactions =>
       fold_left (fun txns txn => txns ++ [ofx_record txn]) transactions txns)
    accounts [].

(** ** The statement parser for delimited text ([import_cmd._parse_csv]) *)

(** [s.replace(c, "")] for a one-character [c]. *)
Fixpoint remove_char (c : ascii) (s : string) : string :=
  match s with
  | EmptyString => EmptyString
  | String x rest =>
      if Ascii.eqb x c then remove_char c rest else String x (remove_char c rest)
  end.

(** A row of [csv.DictReader] for a line that has a field for every column
    of the header: column name to text. (A shorter line gives [None]
    values, which are outside this model.) *)
Abbreviation CsvRow := (gmap string string).

Section parse_csv.

(** [float(text)] on a string: the number, or [None] for [ValueError]. *)
Variable py_float : string -> option float.

(** [row.get(amount_col, "0").replace(",", "").replace("$", "")] *)
Definition amount_text (row : CsvRow) (amount_col : string) : string :=
  remove_char "$" (remove_char "," (get (row !! amount_col) "0")).

(** The body of the loop over the rows: a row whose amount does not read
    as a number is skipped. *)
Definition parse_row (date_col amount_col desc_col : string)
    (txns : list Txn) (row : CsvRow) : list Txn :=
  match py_float (amount_text row amount_col) with
  | None => txns
  | Some amt =>
      txns ++ [mkTxn (get (row !! date_col) "") amt ""
                 (get (row !! desc_col) "") ""
                 (if (amt <? 0)%float then "debit" else "credit") ""]
  end.

(** [_parse_csv], from the rows of the reader on; [skip_header] is not
    used by the code. *)
Definition _parse_csv (rows : list CsvRow)
    (date_col amount_col desc_col : string) (skip_header : bool) : list Txn :=
  fold_left (parse_row date_col amount_col desc_col) rows [].

End parse_csv.

(** ** The preview ([import_cmd.preview]) *)

(** [min(values, default=d)] and [max(values, default=d)] on strings. *)
Definition py_min_default (l : list string) (d : string) : string :=
  match py_min l with
  | Ok m => m
  | Raise _ => d
  end.

Definition py_max_default (l : list string) (d : string) : string :=
  match py_max l with
  | Ok m => m
  | Raise _ => d
  end.

Record PreviewSummary : Type := mkPreview {
  pv_file : string;
  pv_format : string;
  pv_transaction_count : nat;
  pv_total_debits : float;
  pv_total_credits : float;
  pv_date_range_start : string;
  pv_date_range_end : string;
  pv_transactions : list Txn;
}.

Section preview.

(** [sum(values)] on floats, a built-in whose rounding has changed between
    versions of the interpreter. *)
Variable py_sum : list float -> float.

(** The summary of [preview], from the parsed statement on. *)
Definition preview_summary (file_path detected : string) (txns : list Txn)
    : PreviewSummary :=
  mkPreview file_path detected (length txns)
    (py_sum (filter (fun a => (a <? 0)%float = true) (amount <$> txns)))
    (py_sum (filter (fun a => (0 <=? a)%float = true) (amount <$> txns)))
    (py_min_default (date <$> txns) "")
    (py_max_default (date <$> txns) "")
    txns.

End preview.

(** ** The query call of the client ([QBClient.query]) and [build_query] *)

(** [c.upper()] on a character of ASCII text. *)
Definition upper_char (c : ascii) : ascii :=
  let n := N_of_ascii c in
  if ((97 <=? n) && (n <=? 122))%N then ascii_of_N (n - 32) else c.

(** [s.upper()] *)
Fixpoint upper (s : string) : string :=
  match s with
  | EmptyString => EmptyString
  | String c rest => String (upper_char c) (upper rest)
  end.

(** [needle in hay] *)
Fixpoint py_in (needle hay : string) : bool :=
  String.prefix needle hay
  || match hay with
     | EmptyString => false
     | String _ rest => py_in needle rest
     end.

(** [str(n)] of an integer. *)
Definition str_of_int (n : Z) : string := NilZero.string_of_int (Z.to_int n).

(** The text [QBClient.query] passes on as the [query] parameter. *)
Definition query_sql (sql : string) (max_results : Z) : string :=
  if negb (py_in "MAXRESULTS" (upper sql))
  then sql +:+ " MAXRESULTS " +:+ str_of_int max_results
  else sql.

(** [sep.join(parts)] *)
Fixpoint join (sep : string) (parts : list string) : string :=
  match parts with
  | [] => EmptyString
  | [p] => p
  | p :: rest => p +:+ sep +:+ join sep rest
  end.

(** [qb.api.query.build_query]; the defaults of the optional arguments are
    [where = ""], [select = "*"], [max_results = 100], [order_by = ""]. *)
Definition build_query (entity where_ select : string) (max_results : Z)
    (order_by : string) : string :=
  let parts := ["SELECT " +:+ select +:+ " FROM " +:+ entity] in
  let parts := if truthy where_ then parts ++ ["WHERE " +:+ where_] else parts in
  let parts := if truthy order_by then parts ++ ["ORDERBY " +:+ order_by] else parts in
  let parts := parts ++ ["MAXRESULTS " +:+ str_of_int max_results] in
  join " " parts.

(** ** Sample data for the examples *)

Module sample.

Definition txn (d : string) (a : float) (chk : string) : Txn :=
  mkTxn d a "" "ACME" "" (if (a <? 0)%float then "debit" else "credit") chk.

Definition item (id d : string) (a : float) (doc : option string) : LedgerItem :=
  mkItem (Some id) (Some d) (Some a) None doc None None None None.

(** A remote ledger that records every call it receives and answers
    from fixed tables: [fail] lists the document types whose query
    raises, every create of a deposit raises. *)
Inductive Call : Type :=
  | call_get (path : string)
  | call_query (sql : string) (max_results : Z)
  | call_post (path : string) (body : PostBody).

Definition contains (needle hay : string) : bool :=
  match String.index 0 needle hay with
  | Some _ => true
  | None => false
  end.

Definition recording (acct : option Account) (fail : list string)
    (rows : list LedgerItem) : Client (list Call) :=
  mkClient (list Call)
    (fun path log => (Ok acct, log ++ [call_get path]))
    (fun sql n log =>
       (if existsb (fun e => contains (" FROM " +:+ e +:+ " ") sql) fail
        then Raise (ClientError "[403] Forbidden")
        else Ok (list_to_map
                   ((fun e => (e, rows)) <$>
                    filter (fun e => contains (" FROM " +:+ e +:+ " ") sql = true)
                      ["Purchase"])),
        log ++ [call_query sql n]))
    (fun path body log =>
       (match body with
        | purchase_body _ =>
            Ok ({[ "Purchase" :=
                     mkItem (Some "900") None None None None None None None None ]})
        | deposit_body _ => Raise (ClientError "[400] Invalid account")
        end,
        log ++ [call_post path body]))
    (fun log => ("2026-04-01T09:00:00", log)).

(** Scenario data. *)
Definition stmt_check : Txn := txn "2026-03-01" 10 "1001".
Definition bad_date : LedgerItem := item "1" "n/a" 10 None.
Definition next_day : LedgerItem := item "2" "2026-03-02" 10 None.
Definition same_day_check : LedgerItem := item "3" "2026-03-01" 10 (Some "1001").

Definition stmt_plain : Txn := txn "2026-03-01" 100 "".
Definition bad_date_100 : LedgerItem := item "1" "n/a" 100 None.
Definition march_2 : LedgerItem := item "2" "2026-03-02" 100 None.
Definition march_4 : LedgerItem := item "4" "2026-03-04" 100 None.

Definition stmt_50 : Txn := txn "2026-03-01" 50 "".
Definition ledger_50 : LedgerItem := item "7" "2026-03-01" 50 None.


Definition stmt_us_date : Txn := txn "03/01/2026" 10 "1001".

Definition stmt_no_date : Txn := txn "" 12.5 "".

Definition stmt_debit : Txn := txn "2026-03-01" (-20) "1001".
Definition stmt_credit : Txn := txn "2026-03-02" 35 "".

(** A ledger with no documents, where every purchase is created and
    every deposit is refused. *)
Definition empty_ledger : Client (list Call) := recording None [] [].

(** The ledger of scenario E: the account balance is 999.99. *)
Definition ledger_999_99 : Client (list Call) :=
  recording (Some (mkAccount (Some "Checking") (Some 999.99%float))) [] [].

Definition stmt_scenario_a : Txn := txn "2026-03-01" (-42.5) "1001".
Definition ledger_scenario_a : LedgerItem := item "11" "2026-03-01" 42.5 (Some "1001").
Definition stmt_scenario_c : Txn := txn "2026-03-01" 75 "".
Definition ledger_scenario_c : LedgerItem := item "12" "2026-03-01" 75.02 None.

(** A ledger with one purchase, where the deposit query is refused. *)
Definition deposits_refused : Client (list Call) :=
  recording None ["Deposit"] [ledger_50].

Definition world0 : World (list Call) := mkWorld [] ∅.

(** A workspace with two sessions of account 35 and one of account 36. *)
Definition session_march : Session :=
  mkSession "35" "Checking" "2026-03-31" 1000 999.99 0.01 "unbalanced" 0
    "2026-04-01T09:00:00".
Definition session_april : Session :=
  mkSession "35" "Checking" "2026-04-30" 1200 1200 0 "balanced" 0
    "2026-05-02T09:00:00".
Definition session_other : Session :=
  mkSession "36" "Savings" "2026-05-31" 50 50 0 "balanced" 0
    "2026-06-01T09:00:00".

Definition world_with_sessions : World (list Call) :=
  mkWorld []
    (<["reconcile_35_2026-03-31.json" := session_march]>
       (<["reconcile_35_2026-04-30.json" := session_april]>
          (<["reconcile_36_2026-05-31.json" := session_other]> ∅))).

End sample.

(** ** Vocabulary of the statements *)

(** A ledger record the inner loop retains for [imp]: it passes the amount
    test and its date distance is within the tolerance. *)
Definition passes_gates (imp : Txn) (tol : Z) (ex : LedgerItem) : Prop :=
  amount_differs (amount imp) (item_amount ex) = false
  ∧ days_diff_of (date imp) (get (TxnDate ex) "") ≤ tol.

(** The ledger ids named by the exact and probable outcomes of a run. *)
Definition claimed_ids (r : MatchResult) : list (option string) :=
  (fun m => Id (existing m)) <$> (matched r ++ probable r).

Definition no_result : MatchResult := mkResult [] [] [].

(** The three lists of two results, joined list by list. *)
Definition result_app (a b : MatchResult) : MatchResult :=
  mkResult (matched a ++ matched b) (probable a ++ probable b)
    (unmatched a ++ unmatched b).

Definition result_concat (rs : list MatchResult) : MatchResult :=
  foldr result_app no_result rs.

(** The state of the inner loop is sound for [imp] when the current best
    match, if any, carries a date at a computable distance. *)
Definition best_parses (imp : Txn) (best : option LedgerItem) : Prop :=
  ∀ b, best = Some b →
       ∃ s d, TxnDate b = Some s ∧ days_between (date imp) s = Ok d.

(** *** The matcher in the words of the specification

    Section 4.3: the amount gate, the date distance in whole days (infinite
    when a date does not parse), the first candidate at distance 0 with a
    matching identifier is the exact match, otherwise the candidate with
    the smallest distance (the first seen wins ties) is the probable
    match, otherwise the record is unmatched. *)

(** The date distance; [None] is the infinite distance of a pair with an
    unparseable date. *)
Definition spec_distance (a b : string) : option Z :=
  match pydate.strptime (slice10 a), pydate.strptime (slice10 b) with
  | Ok d1, Ok d2 => Some (Z.abs (d1 - d2))
  | _, _ => None
  end.

Definition spec_item_distance (imp : Txn) (ex : LedgerItem) : option Z :=
  spec_distance (date imp) (get (TxnDate ex) "").

(** Steps 1 and 2: the candidates of a statement record. *)
Definition spec_candidate (imp : Txn) (tol : Z) (ex : LedgerItem) : bool :=
  negb (amount_differs (amount imp) (item_amount ex))
  && match spec_item_distance imp ex with
     | Some d => d <=? tol
     | None => false
     end.

(** Step 3: a candidate at distance 0 with a matching identifier. *)
Definition spec_exact (imp : Txn) (ex : LedgerItem) : bool :=
  match spec_item_distance imp ex with
  | Some d => (d =? 0) && id_match imp ex
  | None => false
  end.

(** Is distance [a] strictly smaller than [b]? *)
Definition dist_lt (a b : option Z) : bool :=
  match a, b with
  | Some x, Some y => x <? y
  | Some _, None => true
  | None, _ => false
  end.

(** Step 4: keep the best so far unless the new candidate is strictly
    closer. *)
Definition closer (imp : Txn) (best : option LedgerItem) (ex : LedgerItem)
    : option LedgerItem :=
  match best with
  | None => Some ex
  | Some b =>
      if dist_lt (spec_item_distance imp ex) (spec_item_distance imp b)
      then Some ex else Some b
  end.

Definition closest (imp : Txn) (cands : list LedgerItem) : option LedgerItem :=
  fold_left (closer imp) cands None.

(** Steps 1 to 5 for one statement record. *)
Definition spec_match_one (imp : Txn) (tol : Z) (exs : list LedgerItem)
    : option LedgerItem * option match_kind :=
  let cands := filter (fun ex => spec_candidate imp tol ex = true) exs in
  match find (spec_exact imp) cands with
  | Some ex => (Some ex, Some Exact)
  | None =>
      match closest imp cands with
      | Some b => (Some b, Some Probable)
      | None => (None, None)
      end
  end.

(** *** The gateway and the creation step in the words of the specification *)

(** Section 4.2 and the design notes: every document type is queried in
    turn, whatever the earlier queries did, and the answers are kept as a
    typed result list (document type, answer or error). *)
Fixpoint query_each {W : Type} (c : Client W) (sql_of : string -> string)
    (max_results : Z) (entities : list string) (rw : W)
    : list (string * result QueryResponse) * W :=
  match entities with
  | [] => ([], rw)
  | entity :: rest =>
      let '(r, rw1) := client_query c (sql_of entity) max_results rw in
      let '(rs, rw2) := query_each c sql_of max_results rest rw1 in
      ((entity, r) :: rs, rw2)
  end.

(** What one entry of the result list contributes: its documents, or
    nothing when the query failed. *)
Definition records_of (er : string * result QueryResponse) : list LedgerItem :=
  match er.2 with
  | Ok resp => get (resp !! er.1) []
  | Raise _ => []
  end.

(** Section 4.4, step 5: one creation attempt, an expense for a negative
    amount and a deposit otherwise; a failure is recorded with the
    record. *)
Definition attempt {W : Type} (c : Client W) (account_id : string) (txn : Txn)
    (rw : W) : import_cmd.CreatedEntry * W :=
  if (amount txn <? 0)%float
  then
    match client_post c "purchase"
            (purchase_body (import_cmd.purchase_of account_id txn)) rw with
    | (Ok resp, rw') =>
        (import_cmd.created_ok txn "Purchase" (resp !! "Purchase" ≫= Id), rw')
    | (Raise e, rw') => (import_cmd.created_error txn (exn_str e), rw')
    end
  else
    match client_post c "deposit"
            (deposit_body (import_cmd.deposit_of account_id txn)) rw with
    | (Ok resp, rw') =>
        (import_cmd.created_ok txn "Deposit" (resp !! "Deposit" ≫= Id), rw')
    | (Raise e, rw') => (import_cmd.created_error txn (exn_str e), rw')
    end.

(** Each unmatched record is attempted independently, in order. *)
Fixpoint attempt_each {W : Type} (c : Client W) (account_id : string)
    (txns : list Txn) (rw : W) : list import_cmd.CreatedEntry * W :=
  match txns with
  | [] => ([], rw)
  | txn :: rest =>
      let '(e, rw1) := attempt c account_id txn rw in
      let '(es, rw2) := attempt_each c account_id rest rw1 in
      (e :: es, rw2)
  end.

(** *** Session files *)

(** The order [sorted(..., reverse=True)] leaves the files in: each name is
    at least the names after it. *)
Definition name_ge (a b : string * Session) : Prop := String.leb b.1 a.1 = true.

(** A text without a path separator, which can be part of a file name. *)
Definition no_separator (s : string) : bool :=
  forallb (fun c => negb (Ascii.eqb c "/")) (list_ascii_of_string s).

(** An account id that the file-name pattern of [status] reads as it is
    written: it has none of the characters the pattern language gives a
    meaning to (star, question mark, opening square bracket) and no path
    separator. *)
Definition glob_literal (s : string) : bool :=
  forallb
    (fun c => negb (Ascii.eqb c "*" || Ascii.eqb c "?" || Ascii.eqb c "["
                    || Ascii.eqb c "/"))
    (list_ascii_of_string s).

(** *** Clients that differ in one operation *)

(** The client [c] with its create operation replaced. *)
Definition with_post {W : Type} (c : Client W)
    (p : string -> PostBody -> W -> result PostResponse * W) : Client W :=
  mkClient W (client_get c) (client_query c) p (now_isoformat c).

(** The statement records of the exact and probable entries. *)
Definition imported_of (l : list MatchEntry) : list Txn := imported <$> l.


(** *** Dates *)

(** Dates in calendar order. *)
Definition ymd_lt (a b : Z * Z * Z) : Prop :=
  let '(y1, m1, d1) := a in
  let '(y2, m2, d2) := b in
  y1 < y2 ∨ (y1 = y2 ∧ (m1 < m2 ∨ (m1 = m2 ∧ d1 < d2))).

(** One day of the first 400-year cycle of the calendar: [ord2ymd] gives a
    valid date of the years 1..400 that [ymd2ord] maps back to the day.
    Days after the cycle are not looked at. *)
Definition cycle_ok (o : Z) : bool :=
  (pydate.DI400Y <? o)
  || (let '(y, m, d) := pydate.ord2ymd o in
      (1 <=? y) && (y <=? 400) && (1 <=? m) && (m <=? 12) && (1 <=? d)
      && (d <=? pydate.days_in_month y m) && (pydate.ymd2ord y m d =? o)).

(** [f] holds on the [2 ^ k] integers from [lo] on. *)
Fixpoint check_block (f : Z -> bool) (k : nat) (lo : Z) : bool :=
  match k with
  | O => f lo
  | S k' => check_block f k' lo && check_block f k' (lo + 2 ^ Z.of_nat k')
  end.

(** A decimal digit is printed as a character that reads back as it. *)
Definition digit_ok (k : Z) : bool :=
  pydate.is_digit (pydate.digit_char k) && (pydate.digit_val (pydate.digit_char k) =? k).

(** The four decimal digits of a year give the year back. *)
Definition year_digits_ok (y : Z) : bool :=
  1000 * (y / 1000 mod 10) + 100 * (y / 100 mod 10) + 10 * (y / 10 mod 10)
  + y mod 10 =? y.

(** The text [MM-DD] of a month and a day is read back by the month and
    day groups of [strptime] as the same month and day. *)
Definition month_day_ok (md : Z * Z) : bool :=
  match pydate.parse_month
          (list_ascii_of_string (pydate.pad2 md.1 +:+ "-" +:+ pydate.pad2 md.2)) with
  | Some (m', dash :: rest) =>
      Ascii.eqb dash "-"
      && match pydate.parse_day rest with
         | Some (d', []) => (m' =? md.1) && (d' =? md.2)
         | _ => false
         end
  | _ => false
  end.

(** *** Literals of the query language *)

(** Reading a string literal of the query language from just after its
    opening quote: a doubled quote stands for one quote, a single quote
    closes the literal. Returns the value and the text after the closing
    quote; [None] when the literal is not closed. *)
Fixpoint read_literal (s : string) : option (string * string) :=
  match s with
  | EmptyString => None
  | String c rest =>
      if Ascii.eqb c "'"
      then
        match rest with
        | String c' rest' =>
            if Ascii.eqb c' "'"
            then
              match read_literal rest' with
              | Some (v, tl) => Some (String "'" v, tl)
              | None => None
              end
            else Some (EmptyString, rest)
        | EmptyString => Some (EmptyString, rest)
        end
      else
        match read_literal rest with
        | Some (v, tl) => Some (String c v, tl)
        | None => None
        end
  end.

(** The text does not begin with a quote. *)
Definition no_leading_quote (s : string) : bool :=
  match s with
  | String c _ => negb (Ascii.eqb c "'")
  | EmptyString => true
  end.

(** * Sanity checks of the embedding *)

Example strptime_samples :
  pydate.strptime "2026-03-01" = Ok 739676
  ∧ pydate.strptime "2026-3-1" = Ok 739676
  ∧ pydate.strptime "2026-1-05" = Ok 739621
  ∧ pydate.strptime "2024-02-29" = Ok 738945
  ∧ pydate.strptime "2026-02-29" = Raise ValueError
  ∧ pydate.strptime "2026-13-01" = Raise ValueError
  ∧ pydate.strptime "2026-1-31x" = Raise ValueError
  ∧ pydate.strptime "03/01/2026" = Raise ValueError
  ∧ pydate.strptime "" = Raise ValueError
  ∧ pydate.strptime "0000-01-01" = Raise ValueError
  ∧ pydate.strftime 739676 = "2026-03-01"
  ∧ pydate.strftime 738945 = "2024-02-29"
  ∧ pydate.strftime 1 = "0001-01-01"
  ∧ pydate.strftime pydate.MAXORDINAL = "9999-12-31".
Proof. vm_compute. repeat split; reflexivity. Qed.

Example date_window_samples :
  import_cmd.date_window [sample.stmt_debit; sample.stmt_credit] 3
  = Ok ("2026-02-26", "2026-03-05")
  ∧ import_cmd.date_window [sample.stmt_us_date] 3 = Ok ("03/01/2026", "03/01/2026")
  ∧ import_cmd.date_window [sample.stmt_no_date] 3 = Raise ValueError
  ∧ import_cmd.date_window [sample.txn "0001-01-02" 1 ""] 3 = Raise OverflowError.
Proof. vm_compute. repeat split; reflexivity. Qed.

(** Values of [round(x, 2)] as CPython prints them; the raw difference of
    scenario E is below 0.01 and only its rounding is 0.01. *)
Example py_round2_samples :
  py_round2 0.125 = 0.12%float
  ∧ py_round2 0.375 = 0.38%float
  ∧ py_round2 2.675 = 2.67%float
  ∧ py_round2 0.005 = 0.01%float
  ∧ py_round2 (-0.001) = (-0)%float
  ∧ py_round2 123456789012345.67 = 123456789012345.67%float
  ∧ py_round2 1e300 = 1e300%float
  ∧ py_round2 infinity = infinity
  ∧ (1000 - 999.99 <? 0.01)%float = true
  ∧ py_round2 (1000 - 999.99) = 0.01%float.
Proof. vm_compute. repeat split; reflexivity. Qed.

(** Scenarios A and C of the specification. *)
Example scenario_a :
  _match_transactions [sample.stmt_scenario_a] [sample.ledger_scenario_a] 3
  = Ok (mkResult [mkEntry sample.stmt_scenario_a sample.ledger_scenario_a Exact] [] []).
Proof. vm_compute. reflexivity. Qed.

Example scenario_c :
  _match_transactions [sample.stmt_scenario_c] [sample.ledger_scenario_c] 3
  = Ok (mkResult [] [] [sample.stmt_scenario_c]).
Proof. vm_compute. reflexivity. Qed.

(** A statement amount that is not a number passes the amount test
    against any ledger amount. *)
Example nan_amount_is_matched :
  is_nan (nan) = true
  ∧ _match_transactions [sample.txn "2026-03-01" nan ""]
      [sample.item "5" "2026-03-01" 5 None] 3
    = Ok (mkResult []
            [mkEntry (sample.txn "2026-03-01" nan "")
               (sample.item "5" "2026-03-01" 5 None) Probable] []).
Proof. vm_compute. split; reflexivity. Qed.

(** The example of the documentation of [build_query], and the texts
    the client sends. *)
Example build_query_samples :
  build_query "Customer" "Active = true" "*" 50 ""
  = "SELECT * FROM Customer WHERE Active = true MAXRESULTS 50"
  ∧ build_query "Invoice" "" "*" 100 "" = "SELECT * FROM Invoice MAXRESULTS 100"
  ∧ build_query "Invoice" "" "Id" 10 "TxnDate"
    = "SELECT Id FROM Invoice ORDERBY TxnDate MAXRESULTS 10"
  ∧ query_sql "SELECT * FROM Vendor" 100 = "SELECT * FROM Vendor MAXRESULTS 100"
  ∧ query_sql "select * from Vendor maxresults 5" 100
    = "select * from Vendor maxresults 5"
  ∧ escape_query_value "O'Brien" = "O''Brien"
  ∧ read_literal "O''Brien' AND x" = Some ("O'Brien", " AND x").
Proof. vm_compute. repeat split; reflexivity. Qed.

(** Records of the two statement parsers. *)
Example parser_samples :
  _parse_ofx
    [[mkOfxTxn (Some 739676) (-20) (Some "F1") None (Some "rent") (Some "debit")
        (Some "1001")];
     [mkOfxTxn None 5 None (Some "") None None None]]
  = [mkTxn "2026-03-01" (-20) "F1" "rent" "rent" "debit" "1001";
     mkTxn "" 5 "" "" "" "" ""]
  ∧ amount_text {[ "Amount" := "$1,250.50" ]} "Amount" = "1250.50"
  ∧ amount_text {[ "Date" := "2026-03-01" ]} "Amount" = "0"
  ∧ _parse_csv (fun s => if String.eqb s "-20" then Some (-20)%float else None)
      [{[ "Date" := "2026-03-01"; "Amount" := "-20"; "Description" := "rent" ]};
       {[ "Date" := "2026-03-02"; "Amount" := "n/a" ]}]
      "Date" "Amount" "Description" false
    = [mkTxn "2026-03-01" (-20) "" "rent" "" "debit" ""].
Proof. vm_compute. repeat split; reflexivity. Qed.

(** * Properties of the matcher *)

Lemma result_app_assoc a b c :
  result_app (result_app a b) c = result_app a (result_app b c).
Proof. unfold result_app; simpl. by rewrite <- !app_assoc. Qed.

Lemma result_app_no_result_r a : result_app a no_result = a.
Proof. destruct a; unfold result_app; simpl. by rewrite !app_nil_r. Qed.

Lemma result_app_no_result_l a : result_app no_result a = a.
Proof. by destruct a. Qed.

Lemma file_outcome_app imp o acc :
  file_outcome imp o acc = result_app acc (file_outcome imp o no_result).
Proof.
  destruct o as [[b|] [[]|]]; unfold file_outcome, result_app; simpl;
    by rewrite ?app_nil_r.
Qed.

(** The accumulator of the outer loop is only ever appended to. *)
Lemma match_loop_acc imps exs tol acc :
  match_loop imps exs tol acc =
  rbind (match_loop imps exs tol no_result) (fun r => Ok (result_app acc r)).
Proof.
  revert acc. induction imps as [|imp rest IH]; intros acc; simpl.
  - by rewrite result_app_no_result_r.
  - destruct (scan_existing imp tol exs None None) as [o|e]; [|done].
    rewrite (IH (file_outcome imp o acc)), (IH (file_outcome imp o no_result)).
    destruct (match_loop rest exs tol no_result) as [r|e]; simpl; [|done].
    by rewrite (file_outcome_app imp o acc), result_app_assoc.
Qed.

Lemma match_transactions_cons imp rest exs tol :
  _match_transactions (imp :: rest) exs tol =
  rbind (scan_existing imp tol exs None None) (fun o =>
  rbind (_match_transactions rest exs tol) (fun r =>
  Ok (result_app (file_outcome imp o no_result) r))).
Proof.
  unfold _match_transactions; simpl.
  destruct (scan_existing imp tol exs None None) as [o|e]; simpl; [|done].
  apply match_loop_acc.
Qed.

Lemma match_transactions_single imp exs tol :
  _match_transactions [imp] exs tol =
  rbind (scan_existing imp tol exs None None) (fun o =>
  Ok (file_outcome imp o no_result)).
Proof.
  rewrite match_transactions_cons.
  destruct (scan_existing imp tol exs None None) as [o|e]; simpl; [|done].
  by rewrite result_app_no_result_r.
Qed.

(** Whatever the inner loop returns beyond its starting state is a ledger
    record of the list that passed both gates; an exact outcome also has
    distance 0 and a matching identifier. *)
Lemma scan_existing_sound imp tol exs :
  ∀ best mt b' mt',
    scan_existing imp tol exs best mt = Ok (b', mt') →
    (b' = best ∧ mt' = mt)
    ∨ ∃ ex, b' = Some ex ∧ ex ∈ exs ∧ passes_gates imp tol ex
            ∧ ((mt' = Some Exact
                ∧ days_diff_of (date imp) (get (TxnDate ex) "") = 0
                ∧ id_match imp ex = true)
               ∨ mt' = Some Probable).
Proof.
  induction exs as [|ex rest IH]; intros best mt b' mt' H; simpl in H.
  - left. by inversion H.
  - assert (Hrest : ∀ b m,
      scan_existing imp tol rest b m = Ok (b', mt') →
      (b' = b ∧ mt' = m)
      ∨ ∃ ex0, b' = Some ex0 ∧ ex0 ∈ ex :: rest ∧ passes_gates imp tol ex0
               ∧ ((mt' = Some Exact
                   ∧ days_diff_of (date imp) (get (TxnDate ex0) "") = 0
                   ∧ id_match imp ex0 = true)
                  ∨ mt' = Some Probable)).
    { intros b m Hs. destruct (IH _ _ _ _ Hs) as [?|(ex0 & ? & ? & ?)]; [by left|].
      right. exists ex0. split; [done|]. split; [by apply list_elem_of_further|done]. }
    destruct (amount_differs (amount imp) (item_amount ex)) eqn:Hamt; [by apply Hrest|].
    destruct (tol <? days_diff_of (date imp) (get (TxnDate ex) "")) eqn:Hd;
      [by apply Hrest|].
    apply Z.ltb_ge in Hd.
    assert (Hpass : passes_gates imp tol ex) by done.
    destruct ((days_diff_of (date imp) (get (TxnDate ex) "") =? 0) && id_match imp ex)
      eqn:Hex.
    + inversion H; subst. apply andb_true_iff in Hex as [H0 Hid].
      apply Z.eqb_eq in H0. right. exists ex.
      split; [done|]. split; [by apply list_elem_of_here|]. split; [done|by left].
    + destruct (better_than_best (date imp) _ best) as [[]|e] eqn:Hb; [| |done].
      * destruct (Hrest _ _ H) as [[-> ->]|?]; [|by right].
        right. exists ex.
        split; [done|]. split; [by apply list_elem_of_here|]. split; [done|by right].
      * by apply Hrest.
Qed.

(** Every exact or probable entry of a run pairs a statement record of the
    input with a ledger record of the input that passed both gates. *)
Lemma match_entries_sound imps exs tol :
  ∀ r, _match_transactions imps exs tol = Ok r →
    (∀ e, e ∈ matched r →
          imported e ∈ imps ∧ existing e ∈ exs
          ∧ passes_gates (imported e) tol (existing e)
          ∧ days_diff_of (date (imported e)) (get (TxnDate (existing e)) "") = 0
          ∧ id_match (imported e) (existing e) = true)
    ∧ (∀ e, e ∈ probable r →
          imported e ∈ imps ∧ existing e ∈ exs
          ∧ passes_gates (imported e) tol (existing e))
    ∧ (∀ t, t ∈ unmatched r → t ∈ imps).
Proof.
  induction imps as [|imp rest IH]; intros r H.
  - inversion H; subst; simpl. split_and!; intros ? Hin; by apply elem_of_nil in Hin.
  - rewrite match_transactions_cons in H.
    destruct (scan_existing imp tol exs None None) as [[b mt]|e] eqn:Hs; [|done].
    simpl in H.
    destruct (_match_transactions rest exs tol) as [r'|e] eqn:Hr; [|done].
    simpl in H. inversion H; subst; clear H.
    destruct (IH r' eq_refl) as (IHm & IHp & IHu).
    apply scan_existing_sound in Hs.
    split_and!.
    + intros e He. simpl in He. apply elem_of_app in He as [He|He].
      * destruct Hs as [[-> ->]|(ex & -> & Hin & Hp & Hk)];
          [by apply elem_of_nil in He|].
        destruct Hk as [(-> & H0 & Hid)| ->]; simpl in He;
          [|by apply elem_of_nil in He].
        apply list_elem_of_singleton in He as ->. simpl.
        split; [by apply list_elem_of_here|done].
      * destruct (IHm e He) as (? & ? & ? & ? & ?).
        split; [by apply list_elem_of_further|done].
    + intros e He. simpl in He. apply elem_of_app in He as [He|He].
      * destruct Hs as [[-> ->]|(ex & -> & Hin & Hp & Hk)];
          [by apply elem_of_nil in He|].
        destruct Hk as [(-> & H0 & Hid)| ->]; simpl in He;
          [by apply elem_of_nil in He|].
        apply list_elem_of_singleton in He as ->. simpl.
        split; [by apply list_elem_of_here|done].
      * destruct (IHp e He) as (? & ? & ?).
        split; [by apply list_elem_of_further|done].
    + intros t Ht. simpl in Ht. apply elem_of_app in Ht as [Ht|Ht].
      * destruct b as [b|], mt as [[]|]; simpl in Ht;
          try (by apply elem_of_nil in Ht);
          apply list_elem_of_singleton in Ht as ->; by apply list_elem_of_here.
      * by apply list_elem_of_further, IHu.
Qed.

Lemma file_outcome_length imp o :
  (length (matched (file_outcome imp o no_result))
   + length (probable (file_outcome imp o no_result))
   + length (unmatched (file_outcome imp o no_result)) = 1)%nat.
Proof. by destruct o as [[b|] [[]|]]. Qed.

(** A run is the concatenation, record by record, of the runs on each
    statement record alone: no state is carried from one record to the
    next. *)
Lemma match_transactions_concat imps exs tol :
  ∀ r, _match_transactions imps exs tol = Ok r →
    ∃ rs, Forall2 (fun imp r1 => _match_transactions [imp] exs tol = Ok r1) imps rs
          ∧ r = result_concat rs.
Proof.
  induction imps as [|imp rest IH]; intros r H.
  - inversion H; subst. exists []. split; [constructor|done].
  - rewrite match_transactions_cons in H.
    destruct (scan_existing imp tol exs None None) as [o|e] eqn:Hs; [|done].
    simpl in H.
    destruct (_match_transactions rest exs tol) as [r'|e] eqn:Hr; [|done].
    simpl in H. inversion H; subst; clear H.
    destruct (IH r' eq_refl) as (rs & Hrs & ->).
    exists (file_outcome imp o no_result :: rs). split; [|done].
    constructor; [|done].
    by rewrite match_transactions_single, Hs.
Qed.

Lemma match_transactions_length imps exs tol :
  ∀ r, _match_transactions imps exs tol = Ok r →
    (length (matched r) + length (probable r) + length (unmatched r)
     = length imps)%nat.
Proof.
  induction imps as [|imp rest IH]; intros r H.
  - by inversion H.
  - rewrite match_transactions_cons in H.
    destruct (scan_existing imp tol exs None None) as [o|e] eqn:Hs; [|done].
    simpl in H.
    destruct (_match_transactions rest exs tol) as [r'|e] eqn:Hr; [|done].
    simpl in H. inversion H; subst; clear H.
    specialize (IH r' eq_refl). pose proof (file_outcome_length imp o) as Hl.
    simpl. rewrite !length_app. lia.
Qed.

(** *** Unparseable dates and the 999 sentinel *)

Lemma days_between_empty a : ∀ d, days_between a "" ≠ Ok d.
Proof.
  intros d. unfold days_between.
  destruct (pydate.strptime (slice10 a)); simpl; [|done].
  by change (pydate.strptime (slice10 "")) with (@Raise Z ValueError).
Qed.

(** Below the sentinel, a distance within the tolerance was computed from
    two dates that parse. *)
Lemma days_diff_within_parses a b tol :
  tol < 999 → days_diff_of a b ≤ tol →
  ∃ d1 d2, pydate.strptime (slice10 a) = Ok d1
           ∧ pydate.strptime (slice10 b) = Ok d2
           ∧ days_diff_of a b = Z.abs (d1 - d2).
Proof.
  unfold days_diff_of, days_between. intros Ht Hd.
  destruct (pydate.strptime (slice10 a)) as [d1|]; simpl in *; [|lia].
  destruct (pydate.strptime (slice10 b)) as [d2|]; simpl in *; [|lia].
  by exists d1, d2.
Qed.

Lemma passes_gates_best_parses imp tol ex :
  tol < 999 → passes_gates imp tol ex → best_parses imp (Some ex).
Proof.
  intros Ht [_ Hd] b [= <-].
  destruct (days_diff_within_parses _ _ _ Ht Hd) as (d1 & d2 & H1 & H2 & _).
  destruct (TxnDate ex) as [s|] eqn:Hs; simpl in *.
  - exists s, (Z.abs (d1 - d2)). split; [done|].
    unfold days_between. by rewrite H1, H2.
  - by change (pydate.strptime (slice10 "")) with (@Raise Z ValueError) in H2.
Qed.

(** Below the sentinel the inner loop never raises. *)
Lemma scan_existing_total imp tol exs :
  tol < 999 →
  ∀ best mt, best_parses imp best →
    ∃ o, scan_existing imp tol exs best mt = Ok o.
Proof.
  intros Ht. induction exs as [|ex rest IH]; intros best mt Hbest; simpl.
  - by eexists.
  - destruct (amount_differs (amount imp) (item_amount ex)) eqn:Hamt; [by apply IH|].
    destruct (tol <? days_diff_of (date imp) (get (TxnDate ex) "")) eqn:Hd;
      [by apply IH|].
    apply Z.ltb_ge in Hd.
    destruct ((days_diff_of (date imp) (get (TxnDate ex) "") =? 0) && id_match imp ex);
      [by eexists|].
    assert (Hb : ∃ b, better_than_best (date imp)
                        (days_diff_of (date imp) (get (TxnDate ex) "")) best = Ok b).
    { destruct best as [b|]; simpl; [|by eexists].
      destruct (Hbest b eq_refl) as (s & d & Hs & Hsd).
      rewrite Hs; simpl. rewrite Hsd; simpl. by eexists. }
    destruct Hb as [[] ->]; [|by apply IH].
    apply IH. by apply (passes_gates_best_parses imp tol).
Qed.

Lemma match_transactions_total imps exs tol :
  tol < 999 → ∃ r, _match_transactions imps exs tol = Ok r.
Proof.
  intros Ht. induction imps as [|imp rest [r Hr]]; [by eexists|].
  rewrite match_transactions_cons, Hr.
  destruct (scan_existing_total imp tol exs Ht None None) as [o ->]; [done|].
  simpl. by eexists.
Qed.

(** *** The code against the words of the specification *)

Lemma strptime_raises s e : pydate.strptime s = Raise e → e = ValueError.
Proof.
  unfold pydate.strptime.
  destruct (pydate.match_ymd s) as [[[y m] d]|]; [|congruence].
  destruct ((1 <=? y) && (d <=? pydate.days_in_month y m)); congruence.
Qed.

Lemma days_between_spec a b :
  days_between a b =
  match spec_distance a b with
  | Some d => Ok d
  | None => Raise ValueError
  end.
Proof.
  unfold days_between, spec_distance.
  destruct (pydate.strptime (slice10 a)) as [d1|e1] eqn:H1; simpl.
  - destruct (pydate.strptime (slice10 b)) as [d2|e2] eqn:H2; simpl; [done|].
    by rewrite (strptime_raises _ _ H2).
  - by rewrite (strptime_raises _ _ H1).
Qed.

Lemma days_diff_of_spec a b :
  days_diff_of a b =
  match spec_distance a b with
  | Some d => d
  | None => 999
  end.
Proof. unfold days_diff_of. rewrite days_between_spec. by destruct (spec_distance a b). Qed.

(** Below the sentinel the two gates of the code select the candidates of
    the specification. *)
Lemma gates_spec imp tol ex :
  tol < 999 →
  spec_candidate imp tol ex =
  negb (amount_differs (amount imp) (item_amount ex))
  && negb (tol <? days_diff_of (date imp) (get (TxnDate ex) "")).
Proof.
  intros Ht. unfold spec_candidate, spec_item_distance.
  rewrite days_diff_of_spec. f_equal.
  destruct (spec_distance (date imp) (get (TxnDate ex) "")) as [d|].
  - destruct (Z.leb_spec d tol), (Z.ltb_spec tol d); simpl; lia || done.
  - destruct (Z.ltb_spec tol 999); simpl; lia || done.
Qed.

Lemma best_parses_distance imp b :
  best_parses imp (Some b) →
  ∃ s d, TxnDate b = Some s ∧ spec_item_distance imp b = Some d
         ∧ days_between (date imp) s = Ok d.
Proof.
  intros H. destruct (H b eq_refl) as (s & d & Hs & Hd).
  exists s, d. split; [done|]. split; [|done].
  unfold spec_item_distance. rewrite Hs; simpl.
  rewrite days_between_spec in Hd.
  destruct (spec_distance (date imp) s); congruence.
Qed.

Lemma spec_candidate_best_parses imp tol ex :
  spec_candidate imp tol ex = true → best_parses imp (Some ex).
Proof.
  unfold spec_candidate, spec_item_distance. intros H b [= <-].
  apply andb_true_iff in H as [_ H].
  destruct (spec_distance (date imp) (get (TxnDate ex) "")) as [d|] eqn:Hd; [|done].
  destruct (TxnDate ex) as [s|]; simpl in Hd.
  - exists s, d. split; [done|]. by rewrite days_between_spec, Hd.
  - pose proof (days_between_empty (date imp) d) as Hne.
    by rewrite days_between_spec, Hd in Hne.
Qed.

(** The inner loop from any sound state, below the sentinel: the first
    exact candidate wins; otherwise the candidates are folded with
    [closer] from the current best. *)
Lemma scan_existing_spec imp tol exs :
  tol < 999 →
  ∀ best mt,
    best_parses imp best →
    (is_Some best → mt = Some Probable) →
    scan_existing imp tol exs best mt =
    Ok (let cands := filter (fun ex => spec_candidate imp tol ex = true) exs in
        match find (spec_exact imp) cands with
        | Some ex => (Some ex, Some Exact)
        | None =>
            (fold_left (closer imp) cands best,
             match cands with [] => mt | _ => Some Probable end)
        end).
Proof.
  intros Ht. induction exs as [|ex rest IH]; intros best mt Hbest Hmt; [done|].
  simpl scan_existing. rewrite filter_cons.
  pose proof (gates_spec imp tol ex Ht) as Hg.
  destruct (decide (spec_candidate imp tol ex = true)) as [Hc|Hc].
  - rewrite Hc in Hg. symmetry in Hg. apply andb_true_iff in Hg as [Ha Hd].
    apply negb_true_iff in Ha, Hd. rewrite Ha, Hd.
    assert (Hdist : ∃ d, spec_item_distance imp ex = Some d
                         ∧ days_diff_of (date imp) (get (TxnDate ex) "") = d).
    { unfold spec_candidate in Hc. apply andb_true_iff in Hc as [_ Hc].
      rewrite days_diff_of_spec. unfold spec_item_distance in *.
      destruct (spec_distance (date imp) (get (TxnDate ex) "")) as [d|]; [|done].
      by exists d. }
    destruct Hdist as (d & Hsd & Hdd). rewrite Hdd.
    simpl find. unfold spec_exact at 1. rewrite Hsd.
    destruct ((d =? 0) && id_match imp ex); [done|].
    destruct best as [b|]; simpl better_than_best.
    + destruct (best_parses_distance imp b Hbest) as (s & db & Hs & Hsb & Hdb).
      rewrite Hs; simpl get. rewrite Hdb; simpl rbind.
      simpl fold_left. rewrite Hsd, Hsb; simpl dist_lt.
      destruct (d <? db).
      * rewrite IH; [|by eapply spec_candidate_best_parses|done].
        simpl. by destruct (filter _ rest), (find _ _).
      * rewrite IH; [|done|done]. rewrite (Hmt ltac:(done)).
        simpl. by destruct (filter _ rest), (find _ _).
    + rewrite IH; [|by eapply spec_candidate_best_parses|done].
      simpl. by destruct (filter _ rest), (find _ _).
  - apply not_true_is_false in Hc. rewrite Hc in Hg. symmetry in Hg.
    apply andb_false_iff in Hg as [Ha|Hd].
    + apply negb_false_iff in Ha. rewrite Ha. by apply IH.
    + apply negb_false_iff in Hd. rewrite Hd.
      destruct (amount_differs (amount imp) (item_amount ex)); by apply IH.
Qed.

Lemma fold_closer_some imp cands b :
  is_Some (fold_left (closer imp) cands (Some b)).
Proof.
  revert b. induction cands as [|c cs IH]; intros b; simpl; [done|].
  destruct (dist_lt _ _); apply IH.
Qed.

(** Below the sentinel the inner loop computes the outcome the
    specification describes. *)
Lemma scan_existing_refines imp tol exs :
  tol < 999 →
  scan_existing imp tol exs None None = Ok (spec_match_one imp tol exs).
Proof.
  intros Ht. rewrite (scan_existing_spec imp tol exs Ht None None).
  - unfold spec_match_one, closest. simpl.
    destruct (find _ _); [done|].
    destruct (filter _ exs) as [|c cs]; [done|]. simpl.
    by destruct (fold_closer_some imp cs c) as [b ->].
  - by intros b.
  - by intros [b Hb].
Qed.


(** *** The closest candidate *)

Lemma dist_lt_trans a b c :
  dist_lt a b = true → dist_lt b c = true → dist_lt a c = true.
Proof.
  destruct a as [x|], b as [y|], c as [z|]; simpl; try done.
  rewrite !Z.ltb_lt. lia.
Qed.

Lemma dist_lt_le_trans a b c :
  dist_lt a b = true → dist_lt c b = false → dist_lt a c = true.
Proof.
  destruct a as [x|], b as [y|], c as [z|]; simpl; try done.
  rewrite !Z.ltb_lt, Z.ltb_ge. lia.
Qed.

(** Folding [closer] from [b0] ends either on [b0], which no candidate
    beats, or on the first candidate that beats [b0] and everything
    before it, and that nothing after it beats. *)
Lemma fold_closer_first_min imp cands :
  ∀ b0 b,
    fold_left (closer imp) cands (Some b0) = Some b →
    (b = b0
     ∧ ∀ c, c ∈ cands →
            dist_lt (spec_item_distance imp c) (spec_item_distance imp b0) = false)
    ∨ ∃ l1 l2,
        cands = l1 ++ b :: l2
        ∧ dist_lt (spec_item_distance imp b) (spec_item_distance imp b0) = true
        ∧ (∀ c, c ∈ l1 →
                dist_lt (spec_item_distance imp b) (spec_item_distance imp c) = true)
        ∧ (∀ c, c ∈ l2 →
                dist_lt (spec_item_distance imp c) (spec_item_distance imp b) = false).
Proof.
  induction cands as [|c cs IH]; intros b0 b H; simpl in H.
  - left. split; [congruence|]. intros c Hc. by apply elem_of_nil in Hc.
  - destruct (dist_lt (spec_item_distance imp c) (spec_item_distance imp b0)) eqn:Hlt.
    + right. destruct (IH _ _ H) as [[-> Hall]|(l1 & l2 & -> & Hb & H1 & H2)].
      * exists [], cs. split; [done|]. split; [done|]. split; [|done].
        intros c' Hc'. by apply elem_of_nil in Hc'.
      * exists (c :: l1), l2. split; [done|].
        split; [by eapply dist_lt_trans|]. split; [|done].
        intros c' [->|Hc']%elem_of_cons; [done|by apply H1].
    + destruct (IH _ _ H) as [[-> Hall]|(l1 & l2 & -> & Hb & H1 & H2)].
      * left. split; [done|].
        intros c' [->|Hc']%elem_of_cons; [done|by apply Hall].
      * right. exists (c :: l1), l2. split; [done|]. split; [done|].
        split; [|done].
        intros c' [->|Hc']%elem_of_cons; [by eapply dist_lt_le_trans|by apply H1].
Qed.

(** The probable match is the first of the closest candidates. *)
Lemma closest_first_min imp cands b :
  closest imp cands = Some b →
  ∃ l1 l2,
    cands = l1 ++ b :: l2
    ∧ (∀ c, c ∈ l1 →
            dist_lt (spec_item_distance imp b) (spec_item_distance imp c) = true)
    ∧ (∀ c, c ∈ l2 →
            dist_lt (spec_item_distance imp c) (spec_item_distance imp b) = false).
Proof.
  unfold closest. destruct cands as [|c cs]; simpl; [done|]. intros H.
  destruct (fold_closer_first_min imp cs c b H)
    as [[-> Hall]|(l1 & l2 & -> & Hb & H1 & H2)].
  - exists [], cs. split; [done|]. split; [|done].
    intros c' Hc'. by apply elem_of_nil in Hc'.
  - exists (c :: l1), l2. split; [done|]. split; [|done].
    intros c' [->|Hc']%elem_of_cons; [done|by apply H1].
Qed.

(** X5. Exactness precedence, below the sentinel: when some candidate is
    at distance 0 with a matching identifier, the outcome is exact,
    against such a candidate, wherever it stands in the list. *)
Lemma exact_precedence_below_sentinel imp tol exs ex :
  tol < 999 → ex ∈ exs →
  spec_candidate imp tol ex = true → spec_exact imp ex = true →
  ∃ ex', scan_existing imp tol exs None None = Ok (Some ex', Some Exact)
         ∧ ex' ∈ exs ∧ spec_candidate imp tol ex' = true
         ∧ spec_exact imp ex' = true.
Proof.
  intros Ht Hin Hc He. rewrite (scan_existing_refines imp tol exs Ht).
  unfold spec_match_one.
  destruct (find (spec_exact imp) _) as [ex'|] eqn:Hf.
  - exists ex'. split; [done|].
    apply find_some in Hf as [Hin' He'].
    apply list_elem_of_In, list_elem_of_filter in Hin' as [Hc' Hin']. done.
  - exfalso. eapply find_none in Hf.
    + by rewrite He in Hf.
    + apply list_elem_of_In, list_elem_of_filter. done.
Qed.

(** X6. The probable outcome, below the sentinel: with no exact
    candidate and at least one candidate, the outcome is probable, against
    the first of the closest candidates: it is strictly closer than every
    candidate before it and no candidate after it is strictly closer. *)
Lemma probable_closest_below_sentinel imp tol exs ex :
  tol < 999 → ex ∈ exs → spec_candidate imp tol ex = true →
  (∀ c, c ∈ exs → spec_candidate imp tol c = true → spec_exact imp c = false) →
  ∃ b l1 l2,
    scan_existing imp tol exs None None = Ok (Some b, Some Probable)
    ∧ filter (fun c => spec_candidate imp tol c = true) exs = l1 ++ b :: l2
    ∧ (∀ c, c ∈ l1 →
            dist_lt (spec_item_distance imp b) (spec_item_distance imp c) = true)
    ∧ (∀ c, c ∈ l2 →
            dist_lt (spec_item_distance imp c) (spec_item_distance imp b) = false).
Proof.
  intros Ht Hin Hc Hno. rewrite (scan_existing_refines imp tol exs Ht).
  unfold spec_match_one.
  destruct (find (spec_exact imp) _) as [ex'|] eqn:Hf.
  - apply find_some in Hf as [Hin' He'].
    apply list_elem_of_In, list_elem_of_filter in Hin' as [Hc' Hin'].
    by rewrite (Hno ex' Hin' Hc') in He'.
  - destruct (closest imp _) as [b|] eqn:Hb.
    + destruct (closest_first_min _ _ _ Hb) as (l1 & l2 & Hl & H1 & H2).
      by exists b, l1, l2.
    + exfalso. unfold closest in Hb.
      assert (Hne : ex ∈ filter (fun c => spec_candidate imp tol c = true) exs)
        by by apply list_elem_of_filter.
      destruct (filter _ exs) as [|c cs]; [by apply elem_of_nil in Hne|].
      simpl in Hb. destruct (fold_closer_some imp cs c) as [b' Hb']. congruence.
Qed.

(** *** Amounts *)

Lemma abs_opp x : abs (- x)%float = abs x.
Proof.
  apply Prim2SF_inj. rewrite !FloatAxioms.abs_spec, FloatAxioms.opp_spec.
  by destruct (Prim2SF x).
Qed.

Lemma abs_abs x : abs (abs x) = abs x.
Proof.
  apply Prim2SF_inj. rewrite !FloatAxioms.abs_spec.
  by destruct (Prim2SF x).
Qed.




(** Only magnitudes enter the amount test. *)
Lemma amount_differs_abs a x :
  amount_differs a x = amount_differs (abs a) (abs x).
Proof. unfold amount_differs. by rewrite !abs_abs. Qed.

Lemma amount_differs_opp a x :
  amount_differs (- a) x = amount_differs a x
  ∧ amount_differs a (- x) = amount_differs a x.
Proof. unfold amount_differs. by rewrite !abs_opp. Qed.

(** *** Amounts that are not numbers

    A comparison with a value that is not a number is false, which the
    test [> 0.01] of the amount gate takes as not differing. *)





(** * The claims about the matcher *)

(** C1, as stated, fails: two statement records of 50.00 on the same day
    are both matched, as probable, against the one ledger record of
    50.00; its id is named twice. *)
Lemma claim_uniqueness_fails :
  ∃ r, _match_transactions [sample.stmt_50; sample.stmt_50] [sample.ledger_50] 3 = Ok r
       ∧ ¬ NoDup (claimed_ids r).
Proof.
  eexists. split; [vm_compute; reflexivity|].
  intros H. apply NoDup_cons in H as [H _]. apply H. apply list_elem_of_here.
Qed.

(** C1 (amended). The matcher keeps no set of claimed ledger records: a
    run is the concatenation, record by record, of the runs on each
    statement record alone, so one ledger id may be named by several
    outcomes. Every statement record lands in exactly one of the three
    lists, every exact or probable outcome names a ledger record of the
    input, and the unmatched list holds statement records only. *)
Theorem match_records_independent imps exs tol r :
  _match_transactions imps exs tol = Ok r →
  (∃ rs, Forall2 (fun imp r1 => _match_transactions [imp] exs tol = Ok r1) imps rs
         ∧ r = result_concat rs)
  ∧ (length (matched r) + length (probable r) + length (unmatched r)
     = length imps)%nat
  ∧ (∀ e, e ∈ matched r ++ probable r → imported e ∈ imps ∧ existing e ∈ exs)
  ∧ (∀ t, t ∈ unmatched r → t ∈ imps).
Proof.
  intros H. split; [by apply match_transactions_concat|].
  split; [by eapply match_transactions_length|].
  destruct (match_entries_sound imps exs tol r H) as (Hm & Hp & Hu).
  split; [|done].
  intros e [He|He]%elem_of_app.
  - destruct (Hm e He) as (? & ? & _). done.
  - destruct (Hp e He) as (? & ? & _). done.
Qed.

Lemma match_records_independent_witness :
  ∃ r, _match_transactions [sample.stmt_50; sample.stmt_50] [sample.ledger_50] 3 = Ok r
       ∧ (length (matched r) + length (probable r) + length (unmatched r) = 2)%nat.
Proof.
  eexists. split; [vm_compute; reflexivity|].
  apply (match_records_independent
           [sample.stmt_50; sample.stmt_50] [sample.ledger_50] 3).
  vm_compute; reflexivity.
Defined.

(** C4 at the failing input: with a tolerance of 1000 days, a ledger
    record whose date does not parse is kept as best match (distance
    999), and the next candidate makes the unguarded [strptime] of the
    probable branch raise before the same-day record with the matching
    check number is reached. With that record first, the outcome is
    exact. *)
Theorem exact_precedence_breaks_at_sentinel :
  spec_candidate sample.stmt_check 1000 sample.same_day_check = true
  ∧ spec_exact sample.stmt_check sample.same_day_check = true
  ∧ spec_candidate sample.stmt_check 1000 sample.next_day = true
  ∧ _match_transactions [sample.stmt_check]
      [sample.bad_date; sample.next_day; sample.same_day_check] 1000
    = Raise ValueError
  ∧ _match_transactions [sample.stmt_check]
      [sample.same_day_check; sample.bad_date; sample.next_day] 1000
    = Ok (mkResult
            [mkEntry sample.stmt_check sample.same_day_check Exact] [] []).
Proof. vm_compute. repeat split; reflexivity. Qed.

(** C5 at the failing input: with a tolerance of 1000 days, the ledger
    record dated 2026-03-02 is the only candidate of the specification,
    yet the run raises: the record before it, whose date does not parse,
    was kept as best match. With a tolerance of 3 days the same lists give
    the probable match, and so does scenario B. *)
Theorem probable_closest_breaks_at_sentinel :
  spec_match_one sample.stmt_plain 1000 [sample.bad_date_100; sample.march_2]
  = (Some sample.march_2, Some Probable)
  ∧ _match_transactions [sample.stmt_plain]
      [sample.bad_date_100; sample.march_2] 1000
    = Raise ValueError
  ∧ _match_transactions [sample.stmt_plain]
      [sample.bad_date_100; sample.march_2] 3
    = Ok (mkResult [] [mkEntry sample.stmt_plain sample.march_2 Probable] [])
  ∧ _match_transactions [sample.stmt_plain] [sample.march_2; sample.march_4] 3
    = Ok (mkResult [] [mkEntry sample.stmt_plain sample.march_2 Probable] []).
Proof. vm_compute. repeat split; reflexivity. Qed.




(** C7, as stated, fails: the statement date does not parse, the check
    number equals the document number of the ledger record, and the
    record is left unmatched, not exact. *)
Lemma identifier_does_not_rescue_unparseable :
  pydate.strptime (slice10 (date sample.stmt_us_date)) = Raise ValueError
  ∧ id_match sample.stmt_us_date sample.same_day_check = true
  ∧ _match_transactions [sample.stmt_us_date] [sample.same_day_check] 3
    = Ok (mkResult [] [] [sample.stmt_us_date]).
Proof. vm_compute. repeat split; reflexivity. Qed.

(** C7 (amended). For a tolerance below 999 the run returns, and a pair of
    which either date does not parse is in no outcome, exact or probable,
    identifier or not: both dates of every matched pair parse, their
    distance is within the tolerance, and it is 0 for an exact match. *)
Theorem unparseable_pair_never_matched imps exs tol :
  tol < 999 →
  ∃ r, _match_transactions imps exs tol = Ok r
       ∧ ∀ e, e ∈ matched r ++ probable r →
           ∃ d1 d2,
             pydate.strptime (slice10 (date (imported e))) = Ok d1
             ∧ pydate.strptime (slice10 (get (TxnDate (existing e)) "")) = Ok d2
             ∧ Z.abs (d1 - d2) ≤ tol
             ∧ (e ∈ matched r → Z.abs (d1 - d2) = 0).
Proof.
  intros Ht. destruct (match_transactions_total imps exs tol Ht) as [r Hr].
  exists r. split; [done|]. intros e He.
  destruct (match_entries_sound imps exs tol r Hr) as (Hm & Hp & _).
  assert (Hg : passes_gates (imported e) tol (existing e)).
  { apply elem_of_app in He as [He|He].
    - by destruct (Hm e He) as (_ & _ & ? & _).
    - by destruct (Hp e He) as (_ & _ & ?). }
  destruct Hg as [_ Hd].
  destruct (days_diff_within_parses _ _ _ Ht Hd) as (d1 & d2 & H1 & H2 & Heq).
  exists d1, d2. split; [done|]. split; [done|]. split; [lia|].
  intros Hin. destruct (Hm e Hin) as (_ & _ & _ & H0 & _). lia.
Qed.

Lemma unparseable_pair_never_matched_witness :
  ∃ r, _match_transactions [sample.stmt_us_date] [sample.same_day_check] 3 = Ok r
       ∧ ∀ e, e ∈ matched r ++ probable r →
           ∃ d1 d2,
             pydate.strptime (slice10 (date (imported e))) = Ok d1
             ∧ pydate.strptime (slice10 (get (TxnDate (existing e)) "")) = Ok d2
             ∧ Z.abs (d1 - d2) ≤ 3
             ∧ (e ∈ matched r → Z.abs (d1 - d2) = 0).
Proof.
  apply (unparseable_pair_never_matched
           [sample.stmt_us_date] [sample.same_day_check] 3).
  lia.
Defined.

(** * The gateway *)

(** The query loop of [bank] is the typed result list of the
    specification, merged. *)
Lemma fetch_existing_spec {W : Type} (c : Client W) (safe_start safe_end : string)
    (entities : list string) :
  ∀ (existing : list LedgerItem) (w : World W),
    import_cmd.fetch_existing c safe_start safe_end entities existing w =
    let rs := query_each c (fun e => import_cmd.select_sql e safe_start safe_end)
                import_cmd.MAX_RESULTS entities (remote w) in
    (Ok (existing ++ concat (records_of <$> rs.1)), mkWorld rs.2 (workspace w)).
Proof.
  induction entities as [|entity rest IH]; intros existing w; simpl.
  - destruct w. unfold ret. simpl. by rewrite app_nil_r.
  - unfold bind, import_cmd.fetch_entity, try_except, bind, query, on_remote, ret.
    destruct (client_query c _ _ (remote w)) as [[resp|e] rw1] eqn:Hq; simpl.
    + rewrite IH. simpl.
      destruct (query_each c _ _ rest rw1) as [rs rw2]. simpl.
      unfold records_of at 2. simpl. by rewrite <- app_assoc.
    + rewrite IH. simpl.
      destruct (query_each c _ _ rest rw1) as [rs rw2]. simpl. done.
Qed.

(** The same for the snapshot loop of [start]. *)
Lemma start_fetch_spec {W : Type} (c : Client W) (statement_date : string)
    (entities : list string) :
  ∀ (uncleared : list reconcile.Uncleared) (w : World W),
    reconcile.start_fetch c statement_date entities uncleared w =
    let rs := query_each c (fun e => reconcile.start_sql e statement_date)
                reconcile.START_MAX_RESULTS entities (remote w) in
    (Ok (uncleared
         ++ concat ((fun er => reconcile.uncleared_of er.1 <$> records_of er) <$> rs.1)),
     mkWorld rs.2 (workspace w)).
Proof.
  induction entities as [|entity rest IH]; intros uncleared w; simpl.
  - destruct w. unfold ret. simpl. by rewrite app_nil_r.
  - unfold bind, reconcile.start_fetch_entity, try_except, bind, query, on_remote, ret.
    destruct (client_query c _ _ (remote w)) as [[resp|e] rw1] eqn:Hq; simpl.
    + rewrite IH. simpl.
      destruct (query_each c _ _ rest rw1) as [rs rw2]. simpl.
      unfold records_of at 2. simpl. by rewrite <- app_assoc.
    + rewrite IH. simpl.
      destruct (query_each c _ _ rest rw1) as [rs rw2]. simpl. done.
Qed.

Lemma query_each_length {W : Type} (c : Client W) sql_of n entities :
  ∀ rw : W, (query_each c sql_of n entities rw).1.*1 = entities.
Proof.
  induction entities as [|entity rest IH]; intros rw; simpl; [done|].
  destruct (client_query c _ _ rw) as [r rw1].
  specialize (IH rw1). destruct (query_each c sql_of n rest rw1) as [rs rw2].
  simpl in *. by f_equal.
Qed.

(** C9. Fetching candidates never fails: for every list of document
    types and every window, the query loop of [bank] returns normally; it
    asks the client once per document type, in order, each time with the
    ceiling 500, whatever the earlier queries did; a type whose query
    raised contributes no record. The snapshot loop of [start] does the
    same with its own ceiling of 1000. *)
Theorem fetch_never_fails {W : Type} (c : Client W)
    (safe_start safe_end statement_date : string) (entities : list string)
    (w : World W) :
  (let rs := query_each c (fun e => import_cmd.select_sql e safe_start safe_end)
               500 entities (remote w) in
   import_cmd.fetch_existing c safe_start safe_end entities [] w
   = (Ok (concat (records_of <$> rs.1)), mkWorld rs.2 (workspace w))
   ∧ rs.1.*1 = entities
   ∧ ∀ er e, er ∈ rs.1 → er.2 = Raise e → records_of er = [])
  ∧ (let rs := query_each c (fun e => reconcile.start_sql e statement_date)
                 1000 entities (remote w) in
     reconcile.start_fetch c statement_date entities [] w
     = (Ok (concat ((fun er => reconcile.uncleared_of er.1 <$> records_of er) <$> rs.1)),
        mkWorld rs.2 (workspace w))
     ∧ rs.1.*1 = entities).
Proof.
  split.
  - split; [by rewrite fetch_existing_spec|].
    split; [apply query_each_length|].
    intros er e _ He. unfold records_of. by rewrite He.
  - split; [by rewrite start_fetch_spec|apply query_each_length].
Qed.

(** C9 on a ledger that refuses the deposit query: the run returns the one
    purchase, and the ledger has received the four queries, each with the
    ceiling 500. *)
Lemma fetch_never_fails_witness :
  import_cmd.fetch_existing sample.deposits_refused "2026-02-26" "2026-03-05"
    import_cmd.ENTITIES [] sample.world0
  = (Ok [sample.ledger_50],
     mkWorld
       ((fun e => sample.call_query
                    (import_cmd.select_sql e "2026-02-26" "2026-03-05") 500)
        <$> import_cmd.ENTITIES)
       ∅).
Proof.
  rewrite (proj1 (proj1 (fetch_never_fails sample.deposits_refused
                           "2026-02-26" "2026-03-05" "2026-03-31"
                           import_cmd.ENTITIES sample.world0))).
  vm_compute. reflexivity.
Defined.

(** * The import orchestrator *)

(** The creation loop is the sequence of independent attempts of the
    specification; it never raises. *)
Lemma create_unmatched_spec {W : Type} (c : Client W) (account_id : string)
    (txns : list Txn) :
  ∀ (created : list import_cmd.CreatedEntry) (w : World W),
    import_cmd.create_unmatched c account_id txns created w =
    let es := attempt_each c account_id txns (remote w) in
    (Ok (created ++ es.1), mkWorld es.2 (workspace w)).
Proof.
  induction txns as [|txn rest IH]; intros created w; simpl.
  - destruct w. unfold ret. simpl. by rewrite app_nil_r.
  - unfold bind, import_cmd.create_one, try_except, attempt.
    destruct (amount txn <? 0)%float;
      unfold bind, post, on_remote, ret;
      destruct (client_post c _ _ (remote w)) as [[resp|e] rw1]; simpl;
      rewrite IH; simpl;
      destruct (attempt_each c account_id rest rw1) as [es rw2]; simpl;
      by rewrite <- app_assoc.
Qed.

Lemma attempt_txn {W : Type} (c : Client W) account_id txn (rw : W) :
  import_cmd.created_txn (attempt c account_id txn rw).1 = txn.
Proof.
  unfold attempt.
  destruct (amount txn <? 0)%float;
    by destruct (client_post c _ _ rw) as [[resp|e] rw1].
Qed.

(** One entry per attempted record, in order. *)
Lemma attempt_each_txns {W : Type} (c : Client W) account_id txns :
  ∀ rw : W,
    import_cmd.created_txn <$> (attempt_each c account_id txns rw).1 = txns.
Proof.
  induction txns as [|txn rest IH]; intros rw; simpl; [done|].
  pose proof (attempt_txn c account_id txn rw) as Ht.
  destruct (attempt c account_id txn rw) as [e rw1].
  specialize (IH rw1).
  destruct (attempt_each c account_id rest rw1) as [es rw2].
  simpl in *. by f_equal.
Qed.

(** The shape of one entry: the created document type and the id the
    ledger answered, or the text of the error. *)
Lemma attempt_shape {W : Type} (c : Client W) account_id txn (rw : W) :
  (∃ id, (attempt c account_id txn rw).1
         = import_cmd.created_ok txn
             (if (amount txn <? 0)%float then "Purchase" else "Deposit") id)
  ∨ (∃ msg, (attempt c account_id txn rw).1 = import_cmd.created_error txn msg).
Proof.
  unfold attempt.
  destruct (amount txn <? 0)%float;
    destruct (client_post c _ _ rw) as [[resp|e] rw1]; simpl; eauto.
Qed.

Lemma nonempty_dates_all_empty txns :
  Forall (fun t => date t = "") txns → nonempty_dates txns = [].
Proof.
  unfold nonempty_dates. induction 1 as [|t rest Ht _ IH]; [done|].
  simpl. rewrite filter_cons, Ht. simpl.
  destruct (decide (false = true)); [done|]. exact IH.
Qed.

(** C2 fails on the code: for every statement that parses to a non-empty
    sequence of records whose dates are all empty, [min] is applied to the
    empty list of dates and raises before the fallback of the window is
    reached. [bank] and the session [match] both end with [ValueError]:
    no report, and not a single call to the ledger. *)
Theorem all_dates_empty_raises {W : Type} (c : Client W)
    (file_path account_id detected : string) (txns : list Txn)
    (dry_run : bool) (tolerance : Z) (w : World W) :
  txns ≠ [] → Forall (fun t => date t = "") txns →
  import_cmd.bank c file_path account_id detected txns dry_run tolerance w
  = (Raise ValueError, w)
  ∧ reconcile.match_ c account_id file_path txns tolerance w
    = (Raise ValueError, w).
Proof.
  intros Hne Hall. destruct txns as [|t rest]; [done|].
  unfold import_cmd.bank, reconcile.match_, bind, lift_result,
    import_cmd.date_window.
  by rewrite (nonempty_dates_all_empty _ Hall).
Qed.

(** The failing input: one record of 12.50 with an empty date. *)
Lemma all_dates_empty_raises_witness :
  import_cmd.bank sample.empty_ledger "stmt.csv" "35" "csv"
    [sample.stmt_no_date] false 3 sample.world0
  = (Raise ValueError, sample.world0)
  ∧ reconcile.match_ sample.empty_ledger "35" "stmt.csv"
      [sample.stmt_no_date] 3 sample.world0
    = (Raise ValueError, sample.world0).
Proof.
  apply (all_dates_empty_raises sample.empty_ledger "stmt.csv" "35" "csv"
           [sample.stmt_no_date] false 3 sample.world0).
  - done.
  - by repeat constructor.
Defined.

(** C10. With [dry_run] off, once the window is computed and the matcher
    has returned, [bank] produces its report whatever the creations do:
    the created list holds exactly one entry per unmatched record, in
    order, each either the created document type with the id the ledger
    answered or the text of the error; the created count is the length of
    that list, so it equals the unmatched count, failures included. *)
Theorem created_lists_every_attempt {W : Type} (c : Client W)
    (file_path account_id detected : string) (txns : list Txn) (tolerance : Z)
    (w w1 : World W) (start end_ : string) (existing : list LedgerItem)
    (result : MatchResult) :
  txns ≠ [] →
  import_cmd.date_window txns tolerance = Ok (start, end_) →
  import_cmd.fetch_existing c (escape_query_value start) (escape_query_value end_)
    import_cmd.ENTITIES [] w = (Ok existing, w1) →
  _match_transactions txns existing tolerance = Ok result →
  ∃ r,
    import_cmd.bank c file_path account_id detected txns false tolerance w
    = (Ok (import_cmd.report r),
       mkWorld (attempt_each c account_id (unmatched result) (remote w1)).2
               (workspace w1))
    ∧ import_cmd.r_details_created r
      = (attempt_each c account_id (unmatched result) (remote w1)).1
    ∧ import_cmd.r_details_unmatched r = unmatched result
    ∧ import_cmd.created_txn <$> import_cmd.r_details_created r
      = import_cmd.r_details_unmatched r
    ∧ import_cmd.r_created r = length (import_cmd.r_details_created r)
    ∧ import_cmd.r_created r = import_cmd.r_unmatched r
    ∧ Forall2
        (fun txn e =>
           (∃ id, e = import_cmd.created_ok txn
                        (if (amount txn <? 0)%float then "Purchase" else "Deposit") id)
           ∨ (∃ msg, e = import_cmd.created_error txn msg))
        (unmatched result) (import_cmd.r_details_created r).
Proof.
  intros Hne Hw Hf Hm. destruct txns as [|t rest]; [done|].
  unfold import_cmd.bank, bind, lift_result. rewrite Hw, Hf, Hm.
  cbn [negb]. rewrite create_unmatched_spec. simpl.
  eexists. split; [reflexivity|]. simpl.
  pose proof (attempt_each_txns c account_id (unmatched result) (remote w1)) as Ht.
  split; [done|]. split; [done|]. split; [done|]. split; [done|].
  split.
  - rewrite <- Ht at 2. by rewrite length_fmap.
  - clear. generalize (remote w1) as rw.
    induction (unmatched result) as [|txn l IH]; intros rw; simpl; [constructor|].
    pose proof (attempt_shape c account_id txn rw) as Hs.
    destruct (attempt c account_id txn rw) as [e rw1].
    specialize (IH rw1).
    destruct (attempt_each c account_id l rw1) as [es rw2].
    by constructor.
Qed.

Lemma created_lists_every_attempt_witness :
  ∃ r w',
    import_cmd.bank sample.empty_ledger "stmt.csv" "35" "csv"
      [sample.stmt_debit; sample.stmt_credit] false 3 sample.world0
    = (Ok (import_cmd.report r), w')
    ∧ import_cmd.r_details_created r
      = [import_cmd.created_ok sample.stmt_debit "Purchase" (Some "900");
         import_cmd.created_error sample.stmt_credit "[400] Invalid account"]
    ∧ import_cmd.r_created r = 2%nat
    ∧ import_cmd.r_unmatched r = 2%nat.
Proof.
  edestruct (created_lists_every_attempt sample.empty_ledger "stmt.csv" "35" "csv"
               [sample.stmt_debit; sample.stmt_credit] 3 sample.world0)
    as (r & Hb & Hc & _ & _ & Hn & Hu & _).
  - done.
  - vm_compute; reflexivity.
  - vm_compute; reflexivity.
  - vm_compute; reflexivity.
  - exists r. eexists. split; [exact Hb|].
    assert (Hl : import_cmd.r_details_created r
                 = [import_cmd.created_ok sample.stmt_debit "Purchase" (Some "900");
                    import_cmd.created_error sample.stmt_credit "[400] Invalid account"]).
    { rewrite Hc. vm_compute. reflexivity. }
    split; [exact Hl|]. rewrite <- Hu, Hn, Hl. by split.
Defined.

(** * Reconciliation sessions *)

(** *** File names *)

(** Concatenation, unfolded one character at a time. *)
Lemma app_cons c x y : String c x +:+ y = String c (x +:+ y).
Proof. reflexivity. Qed.

Lemma app_empty y : "" +:+ y = y.
Proof. reflexivity. Qed.

Lemma ascii_compare_refl c : Ascii.compare c c = Eq.
Proof. apply N.compare_refl. Qed.

Lemma string_compare_refl s : String.compare s s = Eq.
Proof. induction s as [|c s IH]; simpl; [done|]. by rewrite ascii_compare_refl. Qed.

Lemma string_leb_trans s1 s2 s3 :
  String.leb s1 s2 = true → String.leb s2 s3 = true → String.leb s1 s3 = true.
Proof.
  intros H1%Is_true_true H2%Is_true_true. apply Is_true_true.
  change (String.le s1 s3). by trans s2.
Qed.

Lemma string_leb_false s1 s2 : String.leb s1 s2 = false → String.leb s2 s1 = true.
Proof. intros H. destruct (String.leb_total s1 s2); congruence. Qed.

(** A common prefix, and a common suffix after parts of one length, do
    not change the order of two names. *)
Lemma compare_append_l p :
  ∀ x y, String.compare (p +:+ x) (p +:+ y) = String.compare x y.
Proof.
  induction p as [|c p IH]; intros x y; [done|].
  rewrite ?app_cons; simpl. by rewrite ascii_compare_refl.
Qed.

Lemma compare_append_r t :
  ∀ x y, String.length x = String.length y →
         String.compare (x +:+ t) (y +:+ t) = String.compare x y.
Proof.
  induction x as [|a x IH]; intros [|b y] Hl; simpl in *; try done.
  - rewrite ?app_empty. apply string_compare_refl.
  - rewrite ?app_cons; simpl. destruct (Ascii.compare a b); [|done..]. apply IH. lia.
Qed.

Lemma prefix_append p s : String.prefix p (p +:+ s) = true.
Proof.
  induction p as [|c p IH]; [by destruct s|].
  rewrite ?app_cons; simpl. by destruct (ascii_dec c c).
Qed.

Lemma substring_drop x :
  ∀ y, String.substring (String.length x) (String.length y) (x +:+ y) = y.
Proof.
  induction x as [|c x IH]; intros y.
  - rewrite ?app_empty; simpl. induction y as [|d y IHy]; simpl; [done|]. by rewrite IHy.
  - specialize (IH y). rewrite ?app_cons; simpl.
    by destruct (String.length y).
Qed.

Lemma length_append x y :
  String.length (x +:+ y) = (String.length x + String.length y)%nat.
Proof. induction x as [|c x IH]; [done|]. rewrite ?app_cons; simpl. by f_equal. Qed.

Lemma append_assoc x y z : (x +:+ y) +:+ z = x +:+ (y +:+ z).
Proof. induction x as [|c x IH]; [done|]. rewrite ?app_cons. by rewrite IH. Qed.

Lemma ends_with_append x t : reconcile.ends_with t (x +:+ t) = true.
Proof.
  unfold reconcile.ends_with. rewrite length_append.
  replace (String.length x + String.length t - String.length t)%nat
    with (String.length x) by lia.
  rewrite substring_drop. apply String.eqb_refl.
Qed.

Lemma session_file_name_split a d :
  reconcile.session_file_name a d
  = ("reconcile_" +:+ a +:+ "_") +:+ (d +:+ ".json").
Proof. unfold reconcile.session_file_name. by rewrite !append_assoc. Qed.

(** The file [start] writes for an account matches the pattern [status]
    globs for that account. *)
Lemma glob_match_session_file a d :
  reconcile.glob_match a (reconcile.session_file_name a d) = true.
Proof.
  unfold reconcile.glob_match. rewrite session_file_name_split.
  rewrite !andb_true_iff. split; [split|].
  - apply prefix_append.
  - rewrite <- append_assoc. apply ends_with_append.
  - apply Nat.leb_le. rewrite !length_append. lia.
Qed.

(** Among statement dates of one length, the order of the file names is
    the order of the dates. *)
Lemma session_file_name_order a d1 d2 :
  String.length d1 = String.length d2 →
  String.leb (reconcile.session_file_name a d1) (reconcile.session_file_name a d2)
  = String.leb d1 d2.
Proof.
  intros Hl. unfold String.leb. rewrite !session_file_name_split.
  by rewrite compare_append_l, compare_append_r.
Qed.

(** *** The session directory *)

Lemma elem_of_glob account_id (files : gmap string Session) f s :
  (f, s) ∈ reconcile.glob account_id files
  ↔ files !! f = Some s ∧ reconcile.glob_match account_id f = true.
Proof.
  unfold reconcile.glob. rewrite list_elem_of_filter, elem_of_map_to_list. simpl.
  tauto.
Qed.

Lemma elem_of_insert_desc f l x :
  x ∈ reconcile.insert_desc f l ↔ x = f ∨ x ∈ l.
Proof.
  induction l as [|g rest IH]; simpl.
  - rewrite list_elem_of_singleton, elem_of_nil. tauto.
  - destruct (String.leb g.1 f.1).
    + by rewrite elem_of_cons.
    + rewrite !elem_of_cons, IH. tauto.
Qed.

Lemma elem_of_sorted_reverse l x : x ∈ reconcile.sorted_reverse l ↔ x ∈ l.
Proof.
  unfold reconcile.sorted_reverse. induction l as [|f rest IH]; simpl; [done|].
  by rewrite elem_of_insert_desc, elem_of_cons, IH.
Qed.

Lemma insert_desc_sorted f l :
  StronglySorted name_ge l → StronglySorted name_ge (reconcile.insert_desc f l).
Proof.
  induction 1 as [|g rest Hs IH Hall]; simpl.
  - repeat constructor.
  - destruct (String.leb g.1 f.1) eqn:Hle.
    + constructor; [by constructor|].
      constructor; [done|].
      eapply Forall_impl; [exact Hall|]. intros y Hy.
      unfold name_ge in *. by eapply string_leb_trans.
    + constructor; [done|].
      apply Forall_forall. intros y [->|Hy]%elem_of_insert_desc.
      * by apply string_leb_false.
      * by eapply Forall_forall in Hall.
Qed.

(** The model of [sorted(paths, reverse=True)] sorts: largest name first. *)
Lemma sorted_reverse_sorted l : StronglySorted name_ge (reconcile.sorted_reverse l).
Proof.
  unfold reconcile.sorted_reverse. induction l as [|f rest IH]; simpl.
  - constructor.
  - by apply insert_desc_sorted.
Qed.

Lemma match_fetch_spec {W : Type} (c : Client W) (min_date max_date : string)
    (entities : list string) :
  ∀ (qb_txns : list LedgerItem) (w : World W),
    reconcile.match_fetch c min_date max_date entities qb_txns w =
    let rs := query_each c (fun e => reconcile.match_sql e min_date max_date)
                reconcile.MATCH_MAX_RESULTS entities (remote w) in
    (Ok (qb_txns
         ++ concat ((fun er => reconcile.tag_entity er.1 <$> records_of er) <$> rs.1)),
     mkWorld rs.2 (workspace w)).
Proof.
  induction entities as [|entity rest IH]; intros qb_txns w; simpl.
  - destruct w. unfold ret. simpl. by rewrite app_nil_r.
  - unfold bind, reconcile.match_fetch_entity, try_except, bind, query, on_remote, ret.
    destruct (client_query c _ _ (remote w)) as [[resp|e] rw1] eqn:Hq; simpl.
    + rewrite IH. simpl.
      destruct (query_each c _ _ rest rw1) as [rs rw2]. simpl.
      unfold records_of at 2. simpl. by rewrite <- app_assoc.
    + rewrite IH. simpl.
      destruct (query_each c _ _ rest rw1) as [rs rw2]. simpl. done.
Qed.

(** The session [match] neither reads nor writes the session files. *)
Lemma match_ignores_workspace {W : Type} (c : Client W)
    (account_id statement_file : string) (stmt_txns : list Txn) (tolerance : Z)
    (w : World W) (files : gmap string Session) :
  reconcile.match_ c account_id statement_file stmt_txns tolerance
    (mkWorld (remote w) files)
  = ((reconcile.match_ c account_id statement_file stmt_txns tolerance w).1,
     mkWorld
       (remote (reconcile.match_ c account_id statement_file stmt_txns tolerance w).2)
       files).
Proof.
  unfold reconcile.match_. destruct stmt_txns as [|t rest]; [done|].
  unfold bind, lift_result.
  destruct (py_min _) as [min_date|e]; [|done].
  destruct (py_max _) as [max_date|e]; [|done].
  rewrite !match_fetch_spec. cbv zeta. cbn [remote workspace].
  destruct (query_each c (fun e => reconcile.match_sql e min_date max_date)
              reconcile.MATCH_MAX_RESULTS reconcile.MATCH_ENTITIES (remote w))
    as [rs rw].
  cbn [fst snd]. by destruct (_match_transactions _ _ _).
Qed.

(** C3, as stated, fails: with no session file in the workspace, [status]
    returns normally with a notice, and [match] does not look for a
    session: it queries the ledger and returns its report. *)
Lemma no_session_is_not_a_failure :
  workspace sample.world0 = ∅
  ∧ reconcile.status "35" sample.world0
    = (Ok (reconcile.status_none "No reconciliation in progress for account 35"),
       sample.world0)
  ∧ ∃ r w',
      reconcile.match_ sample.empty_ledger "35" "stmt.csv" [sample.stmt_debit] 3
        sample.world0
      = (Ok (reconcile.match_report r), w')
      ∧ length (remote w') = 6%nat.
Proof.
  split; [done|]. split; [vm_compute; reflexivity|].
  eexists _, _. split; vm_compute; reflexivity.
Qed.

(** C3 (amended). For an account id without wildcard characters and
    without a path separator: with no session file of the account,
    [status] does not fail, it returns the notice that no reconciliation is
    in progress and leaves the world as it is; with at least one session
    file, [status] returns the session stored in the matching file whose
    name is greatest; file names embed the statement date, so among
    statement dates of one length that is the latest date. [match] never
    consults the session files: it behaves the same with or without
    them. *)
Theorem status_reads_greatest_session_file {W : Type} (c : Client W)
    (account_id : string) (w : World W) :
  glob_literal account_id = true →
  ((∀ f s, workspace w !! f = Some s → reconcile.glob_match account_id f = false) →
   reconcile.status account_id w
   = (Ok (reconcile.status_none
            ("No reconciliation in progress for account " +:+ account_id)), w))
  ∧ (∀ d s,
       no_separator d = true →
       workspace w !! reconcile.session_file_name account_id d = Some s →
       ∃ f s',
         reconcile.status account_id w = (Ok (reconcile.status_session s'), w)
         ∧ workspace w !! f = Some s'
         ∧ reconcile.glob_match account_id f = true
         ∧ ∀ g s'', workspace w !! g = Some s'' →
                    reconcile.glob_match account_id g = true →
                    String.leb g f = true)
  ∧ (∀ d1 d2,
       String.length d1 = String.length d2 →
       String.leb (reconcile.session_file_name account_id d1)
                  (reconcile.session_file_name account_id d2)
       = String.leb d1 d2)
  ∧ (∀ statement_file stmt_txns tolerance files,
       reconcile.match_ c account_id statement_file stmt_txns tolerance
         (mkWorld (remote w) files)
       = ((reconcile.match_ c account_id statement_file stmt_txns tolerance w).1,
          mkWorld
            (remote
               (reconcile.match_ c account_id statement_file stmt_txns tolerance w).2)
            files)).
Proof.
  intros _. split; [|split; [|split]].
  - intros Hnone. unfold reconcile.status.
    assert (Hg : reconcile.glob account_id (workspace w) = []).
    { apply elem_of_nil_inv. intros [f s] [Hf Hm]%elem_of_glob.
      by rewrite (Hnone f s Hf) in Hm. }
    by rewrite Hg.
  - intros d s _ Hd. unfold reconcile.status.
    pose proof (sorted_reverse_sorted (reconcile.glob account_id (workspace w))) as Hs.
    assert (Hin : (reconcile.session_file_name account_id d, s)
                  ∈ reconcile.sorted_reverse (reconcile.glob account_id (workspace w))).
    { apply elem_of_sorted_reverse, elem_of_glob.
      split; [done|apply glob_match_session_file]. }
    assert (Hall : ∀ x, x ∈ reconcile.sorted_reverse
                              (reconcile.glob account_id (workspace w)) →
                        workspace w !! x.1 = Some x.2
                        ∧ reconcile.glob_match account_id x.1 = true).
    { intros [f' s'] Hx. by apply elem_of_sorted_reverse, elem_of_glob in Hx. }
    assert (Hback : ∀ g s'', workspace w !! g = Some s'' →
                             reconcile.glob_match account_id g = true →
                             (g, s'') ∈ reconcile.sorted_reverse
                                          (reconcile.glob account_id (workspace w))).
    { intros g s'' Hg Hm. by apply elem_of_sorted_reverse, elem_of_glob. }
    destruct (reconcile.sorted_reverse _) as [|[f s'] rest];
      [by apply elem_of_nil in Hin|].
    exists f, s'. split; [done|].
    destruct (Hall (f, s') ltac:(apply list_elem_of_here)) as [Hf Hm].
    split; [done|]. split; [done|].
    intros g s'' Hg Hgm.
    apply StronglySorted_inv in Hs as [_ Hhead].
    pose proof (Hback g s'' Hg Hgm) as Hmem.
    apply elem_of_cons in Hmem as [Heq|Hrest].
    + inversion Heq; subst. unfold String.leb. by rewrite string_compare_refl.
    + eapply Forall_forall in Hhead; [|exact Hrest]. exact Hhead.
  - intros d1 d2. apply session_file_name_order.
  - intros. apply match_ignores_workspace.
Qed.

Lemma status_reads_greatest_session_file_witness :
  reconcile.status "77" sample.world_with_sessions
  = (Ok (reconcile.status_none "No reconciliation in progress for account 77"),
     sample.world_with_sessions)
  ∧ ∃ f s',
      reconcile.status "35" sample.world_with_sessions
      = (Ok (reconcile.status_session s'), sample.world_with_sessions)
      ∧ workspace sample.world_with_sessions !! f = Some s'
      ∧ reconcile.glob_match "35" f = true
      ∧ ∀ g s'', workspace sample.world_with_sessions !! g = Some s'' →
                 reconcile.glob_match "35" g = true →
                 String.leb g f = true.
Proof.
  split.
  - apply (proj1 (status_reads_greatest_session_file sample.empty_ledger "77"
                    sample.world_with_sessions eq_refl)).
    intros f s Hf. unfold sample.world_with_sessions in Hf. cbn [workspace] in Hf.
    apply lookup_insert_Some in Hf as [[<- _]|[_ Hf]]; [by vm_compute|].
    apply lookup_insert_Some in Hf as [[<- _]|[_ Hf]]; [by vm_compute|].
    apply lookup_insert_Some in Hf as [[<- _]|[_ Hf]]; [by vm_compute|].
    by rewrite lookup_empty in Hf.
  - apply (proj1 (proj2 (status_reads_greatest_session_file sample.empty_ledger "35"
                           sample.world_with_sessions eq_refl))
             "2026-03-31" sample.session_march eq_refl).
    by vm_compute.
Defined.

(** *** [start] *)

(** C8. Every session [start] returns has as difference
    [round(statement_balance - qb_balance, 2)], where the balance is the
    one the account lookup answered (0 without one), is classified balanced
    exactly when the magnitude of the difference is below 0.01, and is the
    session stored under the file of the account and statement date.
    Scenario E, in the witness: a statement balance of 1000.00 against a
    ledger balance of 999.99 gives the difference 0.01, which is not below
    0.01: unbalanced. *)
Theorem start_difference_and_status {W : Type} (c : Client W)
    (acct sdate : string) (balance : float)
    (w w' : World W) (resp : option Account) (rw : W)
    (res : reconcile.StartResult) :
  client_get c ("account/" +:+ acct) (remote w) = (Ok resp, rw) →
  reconcile.start c acct sdate balance w = (Ok res, w') →
  qb_balance (reconcile.s_session res)
  = get (CurrentBalance (get resp (mkAccount None None))) 0%float
  ∧ statement_balance (reconcile.s_session res) = balance
  ∧ difference (reconcile.s_session res)
    = py_round2 (statement_balance (reconcile.s_session res)
                 - qb_balance (reconcile.s_session res))%float
  ∧ (status_ (reconcile.s_session res) = "balanced"
     ↔ (abs (difference (reconcile.s_session res)) <? 0.01)%float = true)
  ∧ (status_ (reconcile.s_session res) = "unbalanced"
     ↔ (abs (difference (reconcile.s_session res)) <? 0.01)%float = false)
  ∧ workspace w' !! reconcile.session_file_name acct sdate
    = Some (reconcile.s_session res).
Proof.
  intros Hget. unfold reconcile.start, bind, get_, on_remote. rewrite Hget.
  cbv zeta. cbn [remote workspace]. rewrite start_fetch_spec.
  cbv zeta. cbn [remote workspace].
  unfold now, on_remote, write_session, ret. cbn [remote workspace].
  destruct (now_isoformat c _) as [t rw'']. cbn [remote workspace].
  intros [= <- <-]. cbn.
  split; [done|]. split; [done|]. split; [done|].
  unfold reconcile.classify.
  split; [|split].
  - by destruct (abs _ <? 0.01)%float.
  - by destruct (abs _ <? 0.01)%float.
  - apply lookup_insert_eq.
Qed.

Lemma start_difference_and_status_witness :
  ∃ res w',
    reconcile.start sample.ledger_999_99 "35" "2026-03-31" 1000 sample.world0
    = (Ok res, w')
    ∧ qb_balance (reconcile.s_session res) = 999.99%float
    ∧ difference (reconcile.s_session res) = 0.01%float
    ∧ (abs (difference (reconcile.s_session res)) <? 0.01)%float = false
    ∧ status_ (reconcile.s_session res) = "unbalanced".
Proof.
  eexists _, _. split; [vm_compute; reflexivity|].
  edestruct (start_difference_and_status sample.ledger_999_99 "35" "2026-03-31"
               1000 sample.world0)
    as (Hq & Hs & Hd & _ & Hu & _);
    [vm_compute; reflexivity|vm_compute; reflexivity|].
  split; [rewrite Hq; vm_compute; reflexivity|].
  split; [rewrite Hd; vm_compute; reflexivity|].
  split; [vm_compute; reflexivity|].
  apply Hu. vm_compute. reflexivity.
Defined.

(** * Further properties of the matcher *)

Lemma days_diff_of_nonneg a b : 0 ≤ days_diff_of a b.
Proof. unfold days_diff_of, days_between.
  destruct (pydate.strptime (slice10 a)); simpl; [|lia].
  destruct (pydate.strptime (slice10 b)); simpl; lia.
Qed.

Lemma scan_existing_negative_tolerance imp tol exs :
  tol < 0 →
  ∀ best mt, scan_existing imp tol exs best mt = Ok (best, mt).
Proof.
  intros Ht. induction exs as [|ex rest IH]; intros best mt; simpl; [done|].
  destruct (amount_differs _ _); [apply IH|].
  pose proof (days_diff_of_nonneg (date imp) (get (TxnDate ex) "")) as Hd.
  destruct (Z.ltb_spec tol (days_diff_of (date imp) (get (TxnDate ex) "")));
    [apply IH|lia].
Qed.

Lemma all_unmatched imps exs tol :
  (∀ imp, scan_existing imp tol exs None None = Ok (None, None)) →
  _match_transactions imps exs tol = Ok (mkResult [] [] imps).
Proof.
  intros Hs. induction imps as [|imp rest IH]; [done|].
  by rewrite match_transactions_cons, Hs, IH.
Qed.

(** X1. With a negative tolerance, or with an empty ledger list, the
    matcher matches nothing: every statement record is unmatched, in the
    order of the input. *)
Theorem nothing_to_match imps exs tol :
  tol < 0 ∨ exs = [] →
  _match_transactions imps exs tol = Ok (mkResult [] [] imps).
Proof.
  intros [Ht| ->]; apply all_unmatched; intros imp.
  - by apply scan_existing_negative_tolerance.
  - done.
Qed.

Lemma nothing_to_match_witness :
  _match_transactions [sample.stmt_50; sample.stmt_plain] [sample.ledger_50] (-1)
  = Ok (mkResult [] [] [sample.stmt_50; sample.stmt_plain]).
Proof.
  apply (nothing_to_match [sample.stmt_50; sample.stmt_plain] [sample.ledger_50] (-1)).
  left. lia.
Defined.

(** X2. The three lists of a run partition the statement records: taken
    together they are a rearrangement of the input, and each of them keeps
    the order of the input. *)
Theorem outcomes_partition_input imps exs tol r :
  _match_transactions imps exs tol = Ok r →
  imported_of (matched r) ++ imported_of (probable r) ++ unmatched r ≡ₚ imps
  ∧ sublist (imported_of (matched r)) imps
  ∧ sublist (imported_of (probable r)) imps
  ∧ sublist (unmatched r) imps.
Proof.
  revert r. induction imps as [|imp rest IH]; intros r H.
  - inversion H; subst. simpl. split; [done|]. repeat split; constructor.
  - rewrite match_transactions_cons in H.
    destruct (scan_existing imp tol exs None None) as [o|e]; [|done].
    simpl in H.
    destruct (_match_transactions rest exs tol) as [r'|e]; [|done].
    simpl in H. inversion H; subst; clear H.
    destruct (IH r' eq_refl) as (Hp & Hm & Hpr & Hu).
    unfold imported_of in *.
    destruct o as [[b|] [[]|]]; simpl.
    + split; [by constructor|].
      split; [by constructor|]. split; by constructor.
    + split; [by rewrite <- Permutation_middle; constructor|].
      split; [by constructor|]. split; by constructor.
    + split; [|split; [by constructor|split; by constructor]].
      rewrite app_assoc, <- Permutation_middle, <- app_assoc. by constructor.
    + split; [|split; [by constructor|split; by constructor]].
      rewrite app_assoc, <- Permutation_middle, <- app_assoc. by constructor.
    + split; [|split; [by constructor|split; by constructor]].
      rewrite app_assoc, <- Permutation_middle, <- app_assoc. by constructor.
    + split; [|split; [by constructor|split; by constructor]].
      rewrite app_assoc, <- Permutation_middle, <- app_assoc. by constructor.
Qed.

Lemma outcomes_partition_input_witness :
  ∃ r,
    _match_transactions [sample.stmt_check; sample.stmt_plain; sample.stmt_50]
      [sample.same_day_check; sample.march_2] 3 = Ok r
    ∧ imported_of (matched r) = [sample.stmt_check]
    ∧ imported_of (probable r) = [sample.stmt_plain]
    ∧ unmatched r = [sample.stmt_50]
    ∧ imported_of (matched r) ++ imported_of (probable r) ++ unmatched r
      ≡ₚ [sample.stmt_check; sample.stmt_plain; sample.stmt_50].
Proof.
  eexists. split; [vm_compute; reflexivity|].
  split; [reflexivity|]. split; [reflexivity|]. split; [reflexivity|].
  apply (outcomes_partition_input
           [sample.stmt_check; sample.stmt_plain; sample.stmt_50]
           [sample.same_day_check; sample.march_2] 3).
  vm_compute; reflexivity.
Defined.

(** X3. A statement record without a transaction id and without a check
    number, which is how every record of a delimited-text statement is
    built, is never an exact match; and every exact match is a same-day
    pair with a matching identifier. *)
Theorem no_identifier_no_exact_match imps exs tol r :
  _match_transactions imps exs tol = Ok r →
  (∀ e, e ∈ matched r →
        id_match (imported e) (existing e) = true
        ∧ days_diff_of (date (imported e)) (get (TxnDate (existing e)) "") = 0
        ∧ (fitid (imported e) ≠ "" ∨ check_number (imported e) ≠ ""))
  ∧ ((∀ t, t ∈ imps → fitid t = "" ∧ check_number t = "") → matched r = []).
Proof.
  intros H. destruct (match_entries_sound imps exs tol r H) as (Hm & _ & _).
  assert (Hid : ∀ e, e ∈ matched r →
            id_match (imported e) (existing e) = true
            ∧ days_diff_of (date (imported e)) (get (TxnDate (existing e)) "") = 0
            ∧ (fitid (imported e) ≠ "" ∨ check_number (imported e) ≠ "")).
  { intros e He. destruct (Hm e He) as (_ & _ & _ & H0 & Hi).
    split; [done|]. split; [done|].
    unfold id_match in Hi. apply orb_true_iff in Hi as [Hi|Hi];
      apply andb_true_iff in Hi as [Hi _].
    - left. by destruct (fitid (imported e)).
    - right. by destruct (check_number (imported e)). }
  split; [done|]. intros Hno.
  apply elem_of_nil_inv. intros e He.
  destruct (Hm e He) as (Hin & _). destruct (Hno _ Hin) as [Hf Hc].
  destruct (Hid e He) as (_ & _ & [?|?]); done.
Qed.

Lemma no_identifier_no_exact_match_witness :
  ∃ r, _match_transactions [sample.stmt_50] [sample.ledger_50] 3 = Ok r
       ∧ matched r = [].
Proof.
  eexists. split; [vm_compute; reflexivity|].
  refine (proj2 (no_identifier_no_exact_match [sample.stmt_50] [sample.ledger_50] 3
                   _ _) _).
  - vm_compute; reflexivity.
  - intros t Ht. apply list_elem_of_singleton in Ht as ->. by split.
Defined.


Lemma exact_precedence_below_sentinel_witness :
  ∃ ex', scan_existing sample.stmt_check 3
           [sample.next_day; sample.same_day_check] None None
         = Ok (Some ex', Some Exact)
         ∧ ex' ∈ [sample.next_day; sample.same_day_check]
         ∧ spec_candidate sample.stmt_check 3 ex' = true
         ∧ spec_exact sample.stmt_check ex' = true.
Proof.
  apply (exact_precedence_below_sentinel sample.stmt_check 3
           [sample.next_day; sample.same_day_check] sample.same_day_check).
  - lia.
  - apply list_elem_of_further, list_elem_of_here.
  - vm_compute; reflexivity.
  - vm_compute; reflexivity.
Defined.

Lemma probable_closest_below_sentinel_witness :
  ∃ b l1 l2,
    scan_existing sample.stmt_plain 3 [sample.march_4; sample.march_2] None None
    = Ok (Some b, Some Probable)
    ∧ filter (fun c => spec_candidate sample.stmt_plain 3 c = true)
        [sample.march_4; sample.march_2] = l1 ++ b :: l2
    ∧ (∀ c, c ∈ l1 →
            dist_lt (spec_item_distance sample.stmt_plain b)
                    (spec_item_distance sample.stmt_plain c) = true)
    ∧ (∀ c, c ∈ l2 →
            dist_lt (spec_item_distance sample.stmt_plain c)
                    (spec_item_distance sample.stmt_plain b) = false).
Proof.
  apply (probable_closest_below_sentinel sample.stmt_plain 3
           [sample.march_4; sample.march_2] sample.march_2).
  - lia.
  - apply list_elem_of_further, list_elem_of_here.
  - vm_compute; reflexivity.
  - intros c [->|[->|Hc]%elem_of_cons]%elem_of_cons _.
    + vm_compute; reflexivity.
    + vm_compute; reflexivity.
    + by apply elem_of_nil in Hc.
Defined.

(** * Further properties of the import orchestrator *)

Lemma query_each_entities {W : Type} (c : Client W) sql_of n entities :
  ∀ rw : W, fst <$> (query_each c sql_of n entities rw).1 = entities.
Proof.
  induction entities as [|entity rest IH]; intros rw; cbn [query_each]; [done|].
  destruct (client_query c (sql_of entity) n rw) as [r rw1].
  specialize (IH rw1). destruct (query_each c sql_of n rest rw1) as [rs rw2].
  cbn in *. by rewrite IH.
Qed.

Lemma query_each_with_post {W : Type} (c : Client W) p sql_of n entities :
  ∀ rw : W, query_each (with_post c p) sql_of n entities rw
            = query_each c sql_of n entities rw.
Proof.
  induction entities as [|entity rest IH]; intros rw; simpl; [done|].
  destruct (client_query c (sql_of entity) n rw) as [r rw1]. by rewrite IH.
Qed.

(** X7. A dry run never creates anything: [bank] with [dry_run] on gives
    the same result and leaves the ledger in the same state whatever the
    create operation of the client would do, and a report it produces has
    a created count of 0 and an empty created list. *)
Theorem dry_run_never_posts {W : Type} (c : Client W)
    (p : string -> PostBody -> W -> result PostResponse * W)
    (file_path account_id detected : string) (txns : list Txn) (tolerance : Z)
    (w : World W) :
  import_cmd.bank (with_post c p) file_path account_id detected txns true tolerance w
  = import_cmd.bank c file_path account_id detected txns true tolerance w
  ∧ ∀ r w',
      import_cmd.bank c file_path account_id detected txns true tolerance w
      = (Ok (import_cmd.report r), w') →
      import_cmd.r_created r = 0%nat
      ∧ import_cmd.r_details_created r = []
      ∧ import_cmd.r_dry_run r = true.
Proof.
  unfold import_cmd.bank. destruct txns as [|t rest]; [by split|].
  unfold bind, lift_result.
  destruct (import_cmd.date_window (t :: rest) tolerance) as [[start end_]|e];
    [|by split].
  rewrite !fetch_existing_spec. cbv zeta. rewrite query_each_with_post.
  destruct (query_each c _ _ _ (remote w)) as [rs rw]. cbn [fst snd].
  destruct (_match_transactions _ _ _) as [res|e]; [|by split].
  cbn [negb]. unfold ret. split; [done|].
  intros r w' [= <- _]. by cbn.
Qed.

(** X8. The counts of a report add up: the number of imported records is
    the number of statement records and the sum of the matched, probable
    and unmatched counts, and each count is the length of its detail
    list. *)
Theorem report_counts_add_up {W : Type} (c : Client W)
    (file_path account_id detected : string) (txns : list Txn) (dry_run : bool)
    (tolerance : Z) (w w' : World W) (r : import_cmd.ImportReport) :
  import_cmd.bank c file_path account_id detected txns dry_run tolerance w
  = (Ok (import_cmd.report r), w') →
  import_cmd.r_total_imported r = length txns
  ∧ (import_cmd.r_matched r + import_cmd.r_probable_matches r
     + import_cmd.r_unmatched r = import_cmd.r_total_imported r)%nat
  ∧ import_cmd.r_matched r = length (import_cmd.r_details_matched r)
  ∧ import_cmd.r_probable_matches r = length (import_cmd.r_details_probable r)
  ∧ import_cmd.r_unmatched r = length (import_cmd.r_details_unmatched r)
  ∧ import_cmd.r_created r = length (import_cmd.r_details_created r)
  ∧ txns ≠ [].
Proof.
  unfold import_cmd.bank. destruct txns as [|t rest]; [done|].
  unfold bind, lift_result.
  destruct (import_cmd.date_window (t :: rest) tolerance) as [[start end_]|e];
    [|done].
  rewrite fetch_existing_spec. cbv zeta.
  destruct (query_each c _ _ _ (remote w)) as [rs rw]. cbn [fst snd].
  destruct (_match_transactions _ _ _) as [res|e] eqn:Hm; [|done].
  pose proof (match_transactions_length _ _ _ _ Hm) as Hl.
  destruct dry_run; cbn [negb].
  - unfold ret. intros [= <- _]. cbn. rewrite !length_fmap.
    repeat split; done.
  - rewrite create_unmatched_spec. cbv zeta.
    destruct (attempt_each c account_id (unmatched res) _) as [es rw2].
    unfold ret. cbn [fst snd]. intros [= <- _]. cbn. rewrite !length_fmap.
    repeat split; done.
Qed.

Lemma report_counts_add_up_witness :
  ∃ r w',
    import_cmd.bank sample.empty_ledger "stmt.csv" "35" "csv"
      [sample.stmt_debit; sample.stmt_credit] false 3 sample.world0
    = (Ok (import_cmd.report r), w')
    ∧ import_cmd.r_total_imported r = 2%nat
    ∧ (import_cmd.r_matched r + import_cmd.r_probable_matches r
       + import_cmd.r_unmatched r = import_cmd.r_total_imported r)%nat.
Proof.
  eexists _, _. split; [vm_compute; reflexivity|].
  edestruct (report_counts_add_up sample.empty_ledger "stmt.csv" "35" "csv"
               [sample.stmt_debit; sample.stmt_credit] false 3 sample.world0)
    as (H1 & H2 & _); [vm_compute; reflexivity|].
  split; [exact H1|exact H2].
Defined.

(** * Further properties of the reconciliation sessions *)

(** What [status] does, by cases: no matching file and the notice, or the
    session of the matching file with the greatest name. *)
Lemma status_cases {W : Type} (account_id : string) (w : World W) :
  (reconcile.glob account_id (workspace w) = []
   ∧ reconcile.status account_id w
     = (Ok (reconcile.status_none
              ("No reconciliation in progress for account " +:+ account_id)), w))
  ∨ ∃ f s,
      workspace w !! f = Some s
      ∧ reconcile.glob_match account_id f = true
      ∧ (∀ g s', workspace w !! g = Some s' →
                 reconcile.glob_match account_id g = true →
                 String.leb g f = true)
      ∧ reconcile.status account_id w = (Ok (reconcile.status_session s), w).
Proof.
  unfold reconcile.status.
  pose proof (sorted_reverse_sorted (reconcile.glob account_id (workspace w))) as Hs.
  pose proof (elem_of_sorted_reverse (reconcile.glob account_id (workspace w))) as He.
  destruct (reconcile.sorted_reverse _) as [|[f s] rest] eqn:Hsr.
  - left. split; [|done]. apply elem_of_nil_inv. intros x Hx.
    apply He in Hx. by apply elem_of_nil in Hx.
  - right. exists f, s.
    assert (Hf : (f, s) ∈ reconcile.glob account_id (workspace w)).
    { apply He, list_elem_of_here. }
    apply elem_of_glob in Hf as [Hf Hm].
    split; [done|]. split; [done|]. split; [|done].
    intros g s' Hg Hgm.
    assert (Hin : (g, s') ∈ (f, s) :: rest) by by apply He, elem_of_glob.
    apply StronglySorted_inv in Hs as [_ Hhead].
    apply elem_of_cons in Hin as [Heq|Hrest].
    + inversion Heq; subst. unfold String.leb. by rewrite string_compare_refl.
    + eapply Forall_forall in Hhead; [|exact Hrest]. exact Hhead.
Qed.

(** The session of a matching file that no other matching file exceeds
    is the one [status] returns. *)
Lemma status_of_greatest {W : Type} (account_id : string) (w : World W) f s :
  workspace w !! f = Some s →
  reconcile.glob_match account_id f = true →
  (∀ g s', workspace w !! g = Some s' →
           reconcile.glob_match account_id g = true →
           String.leb g f = true) →
  reconcile.status account_id w = (Ok (reconcile.status_session s), w).
Proof.
  intros Hf Hm Hmax.
  destruct (status_cases account_id w) as [[Hnil _]|(f' & s' & Hf' & Hm' & Hmax' & ->)].
  - assert (Hin : (f, s) ∈ reconcile.glob account_id (workspace w))
      by by apply elem_of_glob.
    rewrite Hnil in Hin. by apply elem_of_nil in Hin.
  - assert (f' = f) as ->.
    { apply String.leb_antisym; [exact (Hmax f' s' Hf' Hm')|exact (Hmax' f s Hf Hm)]. }
    congruence.
Qed.

Lemma start_writes {W : Type} (c : Client W)
    (acct sdate : string) (balance : float)
    (w w' : World W) (res : reconcile.StartResult) :
  reconcile.start c acct sdate balance w = (Ok res, w') →
  workspace w'
  = <[reconcile.session_file_name acct sdate := reconcile.s_session res]>
      (workspace w)
  ∧ length (reconcile.s_recent_transactions res)
    = min 20 (transaction_count (reconcile.s_session res))
  ∧ account_id (reconcile.s_session res) = acct
  ∧ statement_date (reconcile.s_session res) = sdate.
Proof.
  unfold reconcile.start, bind, get_, on_remote.
  destruct (client_get c _ (remote w)) as [[resp|e] rw]; [|done].
  cbv zeta. cbn [remote workspace]. rewrite start_fetch_spec.
  cbv zeta. cbn [remote workspace].
  unfold now, on_remote, write_session, ret. cbn [remote workspace].
  destruct (now_isoformat c _) as [t rw']. cbn [remote workspace].
  intros [= <- <-]. cbn. by rewrite length_take.
Qed.

(** X9. [start] then [status], for an account id without wildcard
    characters and an account id and a statement date without a path
    separator: a [start] that returns has written exactly one file, the one
    named after the account and the statement date, replacing what that
    file held and leaving every other file as it was; the twenty most
    recent transactions at most are shown; and when no other file of the
    account has a greater name, [status] then returns the session [start]
    has just stored. *)
Theorem start_then_status {W : Type} (c : Client W)
    (account_id statement_date : string) (statement_balance : float)
    (w w' : World W) (res : reconcile.StartResult) :
  glob_literal account_id = true → no_separator statement_date = true →
  reconcile.start c account_id statement_date statement_balance w = (Ok res, w') →
  workspace w' !! reconcile.session_file_name account_id statement_date
  = Some (reconcile.s_session res)
  ∧ (∀ g, g ≠ reconcile.session_file_name account_id statement_date →
          workspace w' !! g = workspace w !! g)
  ∧ length (reconcile.s_recent_transactions res)
    = min 20 (transaction_count (reconcile.s_session res))
  ∧ ((∀ g s, workspace w !! g = Some s →
             reconcile.glob_match account_id g = true →
             String.leb g (reconcile.session_file_name account_id statement_date)
             = true) →
     reconcile.status account_id w'
     = (Ok (reconcile.status_session (reconcile.s_session res)), w')).
Proof.
  intros _ _ H. destruct (start_writes _ _ _ _ _ _ _ H) as (Hw & Hl & _).
  split; [by rewrite Hw, lookup_insert_eq|].
  split; [by intros g Hg; rewrite Hw, lookup_insert_ne|].
  split; [done|]. intros Hmax.
  apply (status_of_greatest account_id w'
           (reconcile.session_file_name account_id statement_date)).
  - by rewrite Hw, lookup_insert_eq.
  - apply glob_match_session_file.
  - intros g s. rewrite Hw.
    destruct (decide (g = reconcile.session_file_name account_id statement_date))
      as [->|Hne].
    + intros _ _. unfold String.leb. by rewrite string_compare_refl.
    + rewrite lookup_insert_ne by done. apply Hmax.
Qed.

Lemma start_then_status_witness :
  ∃ res w',
    reconcile.start sample.ledger_999_99 "35" "2026-03-31" 1000 sample.world0
    = (Ok res, w')
    ∧ reconcile.status "35" w'
      = (Ok (reconcile.status_session (reconcile.s_session res)), w').
Proof.
  eexists _, _. split; [vm_compute; reflexivity|].
  eapply (start_then_status sample.ledger_999_99 "35" "2026-03-31" 1000
            sample.world0).
  - reflexivity.
  - reflexivity.
  - vm_compute; reflexivity.
  - intros g s Hg. unfold sample.world0 in Hg. cbn [workspace] in Hg.
    by rewrite lookup_empty in Hg.
Defined.







(** X11. The report of the session [match]: the statement counts add up;
    the outstanding count is the length of the outstanding list and is at
    most the number of ledger records fetched; and no ledger id reported
    with a matched or probable entry is reported outstanding as well. *)
Theorem outstanding_complements_matched {W : Type} (c : Client W)
    (account_id statement_file : string) (stmt_txns : list Txn) (tolerance : Z)
    (w w' : World W) (r : reconcile.MatchReport) :
  reconcile.match_ c account_id statement_file stmt_txns tolerance w
  = (Ok (reconcile.match_report r), w') →
  (reconcile.m_matched r + reconcile.m_probable_matches r
   + reconcile.m_unmatched_on_statement r
   = reconcile.m_statement_transactions r)%nat
  ∧ reconcile.m_statement_transactions r = length stmt_txns
  ∧ reconcile.m_outstanding_in_qb r
    = length (reconcile.m_details_outstanding_in_qb r)
  ∧ (reconcile.m_outstanding_in_qb r ≤ reconcile.m_qb_transactions r)%nat
  ∧ ∀ o d,
      o ∈ reconcile.m_details_outstanding_in_qb r →
      d ∈ reconcile.m_details_matched r ++ reconcile.m_details_probable r →
      reconcile.o_id o ≠ d.1.2.
Proof.
  unfold reconcile.match_. destruct stmt_txns as [|t rest]; [done|].
  unfold bind, lift_result.
  destruct (py_min _) as [min_date|e]; [|done].
  destruct (py_max _) as [max_date|e]; [|done].
  rewrite match_fetch_spec. cbv zeta. cbn [remote workspace].
  destruct (query_each c (fun e => reconcile.match_sql e min_date max_date)
              reconcile.MATCH_MAX_RESULTS reconcile.MATCH_ENTITIES (remote w))
    as [rs rw].
  cbn [fst snd].
  destruct (_match_transactions _ _ _) as [res|e] eqn:Hm; [|done].
  pose proof (match_transactions_length _ _ _ _ Hm) as Hl.
  unfold ret. intros [= <- _]. cbn.
  split; [done|]. split; [done|]. split; [done|].
  split; [rewrite length_fmap; apply length_filter|].
  intros o d Ho Hd Heq.
  apply list_elem_of_fmap in Ho as (t' & -> & Ht').
  apply list_elem_of_filter in Ht' as [Hnot _].
  apply Hnot. unfold reconcile.matched_qb_ids.
  apply elem_of_list_to_set. rewrite fmap_app.
  apply elem_of_app in Hd as [Hd|Hd];
    apply list_elem_of_fmap in Hd as (m & -> & Hm');
    simpl in Heq; rewrite Heq;
    apply elem_of_app; [left|right];
    by apply (list_elem_of_fmap_2 (fun m => Id (existing m))).
Qed.

Lemma outstanding_complements_matched_witness :
  ∃ r w',
    reconcile.match_ sample.deposits_refused "35" "stmt.csv" [sample.stmt_50] 3
      sample.world0
    = (Ok (reconcile.match_report r), w')
    ∧ reconcile.m_probable_matches r = 1%nat
    ∧ (reconcile.m_outstanding_in_qb r ≤ reconcile.m_qb_transactions r)%nat.
Proof.
  eexists _, _. split; [vm_compute; reflexivity|].
  split; [reflexivity|].
  eapply (outstanding_complements_matched sample.deposits_refused "35" "stmt.csv"
            [sample.stmt_50] 3 sample.world0).
  vm_compute; reflexivity.
Defined.

(** * Dates: formatting, parsing and order *)

(** *** [ord2ymd] against [ymd2ord] *)

Lemma check_block_sound f k :
  ∀ lo, check_block f k lo = true → ∀ o, lo ≤ o < lo + 2 ^ Z.of_nat k → f o = true.
Proof.
  induction k as [|k IH]; intros lo H o Ho.
  - simpl in *. by replace o with lo by lia.
  - cbn [check_block] in H. apply andb_true_iff in H as [H1 H2].
    rewrite Nat2Z.inj_succ, Z.pow_succ_r in Ho by lia.
    destruct (Z.lt_ge_cases o (lo + 2 ^ Z.of_nat k)).
    + apply (IH lo H1). lia.
    + apply (IH _ H2). lia.
Qed.

Lemma cycle_checked : check_block cycle_ok 18 1 = true.
Proof. vm_cast_no_check (eq_refl true). Qed.

Lemma cycle_ok_spec r :
  0 ≤ r < pydate.DI400Y →
  ∃ y m d, pydate.ord2ymd (r + 1) = (y, m, d)
           ∧ 1 ≤ y ≤ 400 ∧ 1 ≤ m ≤ 12 ∧ 1 ≤ d ≤ pydate.days_in_month y m
           ∧ pydate.ymd2ord y m d = r + 1.
Proof.
  intros Hr. unfold pydate.DI400Y in Hr.
  pose proof (check_block_sound _ _ _ cycle_checked (r + 1)) as H.
  specialize (H ltac:(change (2 ^ Z.of_nat 18) with 262144; lia)).
  unfold cycle_ok in H. apply orb_true_iff in H as [H|H].
  - apply Z.ltb_lt in H. unfold pydate.DI400Y in H. lia.
  - destruct (pydate.ord2ymd (r + 1)) as [[y m] d].
    repeat (apply andb_true_iff in H as [H ?]).
    exists y, m, d. split; [done|]. lia.
Qed.

Lemma ord2ymd_shift n :
  pydate.ord2ymd n =
  let '(y, m, d) := pydate.ord2ymd ((n - 1) mod pydate.DI400Y + 1) in
  (y + 400 * ((n - 1) / pydate.DI400Y), m, d).
Proof.
  unfold pydate.ord2ymd. cbv zeta.
  replace ((n - 1) mod pydate.DI400Y + 1 - 1) with ((n - 1) mod pydate.DI400Y) by lia.
  assert (Hr : 0 ≤ (n - 1) mod pydate.DI400Y < pydate.DI400Y)
    by (apply Z.mod_pos_bound; done).
  rewrite (Z.div_small _ _ Hr), (Z.mod_small _ _ Hr).
  set (r := (n - 1) mod pydate.DI400Y).
  set (q := (n - 1) / pydate.DI400Y).
  destruct ((_ =? 4) || (_ =? 4)); [f_equal; [f_equal|..]; lia|].
  destruct (_ <? _); f_equal; f_equal; lia.
Qed.

Lemma is_leap_shift y q : pydate.is_leap (y + 400 * q) = pydate.is_leap y.
Proof.
  unfold pydate.is_leap.
  replace (y + 400 * q) with (y + (100 * q) * 4) at 1 by lia.
  replace (y + 400 * q) with (y + (4 * q) * 100) at 1 by lia.
  replace (y + 400 * q) with (y + q * 400) by lia.
  by rewrite !Z_mod_plus_full.
Qed.

Lemma ymd2ord_shift y m d q :
  pydate.ymd2ord (y + 400 * q) m d = pydate.ymd2ord y m d + pydate.DI400Y * q.
Proof.
  unfold pydate.ymd2ord, pydate.days_before_month, pydate.days_before_year.
  rewrite is_leap_shift. cbv zeta.
  replace (y + 400 * q - 1) with (y - 1 + (100 * q) * 4) at 2 by lia.
  replace (y + 400 * q - 1) with (y - 1 + (4 * q) * 100) at 2 by lia.
  replace (y + 400 * q - 1) with (y - 1 + q * 400) at 2 by lia.
  rewrite !Z.div_add by done. unfold pydate.DI400Y. lia.
Qed.

Lemma days_in_month_shift y m q :
  pydate.days_in_month (y + 400 * q) m = pydate.days_in_month y m.
Proof. unfold pydate.days_in_month. by rewrite is_leap_shift. Qed.

Lemma ord2ymd_valid o :
  1 ≤ o ≤ pydate.MAXORDINAL →
  ∃ y m d, pydate.ord2ymd o = (y, m, d)
           ∧ 1 ≤ y ≤ 9999 ∧ 1 ≤ m ≤ 12 ∧ 1 ≤ d ≤ pydate.days_in_month y m
           ∧ pydate.ymd2ord y m d = o.
Proof.
  intros Ho. rewrite ord2ymd_shift.
  assert (Hr : 0 ≤ (o - 1) mod pydate.DI400Y < pydate.DI400Y)
    by (apply Z.mod_pos_bound; done).
  destruct (cycle_ok_spec _ Hr) as (y & m & d & -> & Hy & Hm & Hd & Hord).
  pose proof (Z.div_mod (o - 1) pydate.DI400Y ltac:(done)) as Hdm.
  set (q := (o - 1) / pydate.DI400Y) in *.
  set (r := (o - 1) mod pydate.DI400Y) in *.
  assert (Hq : 0 ≤ q ≤ 24).
  { unfold pydate.MAXORDINAL, pydate.DI400Y in *. split.
    - apply Z.div_pos; lia.
    - subst q. assert ((o - 1) / 146097 < 25); [|lia].
      apply Z.div_lt_upper_bound; lia. }
  exists (y + 400 * q), m, d. split; [done|].
  rewrite days_in_month_shift, ymd2ord_shift.
  split; [|split; [done|split; [done|lia]]].
  split; [lia|].
  destruct (decide (q = 24)) as [->|]; [|lia].
  destruct (decide (y = 400)) as [->|]; [|lia].
  exfalso. unfold pydate.ymd2ord, pydate.days_before_month in Hord.
  change (pydate.days_before_year 400) with 145731 in Hord.
  assert (0 ≤ pydate.DAYS_BEFORE_MONTH m).
  { assert (Hc : m = 1 ∨ m = 2 ∨ m = 3 ∨ m = 4 ∨ m = 5 ∨ m = 6 ∨ m = 7 ∨ m = 8
                 ∨ m = 9 ∨ m = 10 ∨ m = 11 ∨ m = 12) by lia.
    by repeat (destruct Hc as [->|Hc]; [done|]); subst. }
  destruct ((2 <? m) && pydate.is_leap 400);
    unfold pydate.MAXORDINAL, pydate.DI400Y in *; lia.
Qed.

Lemma forallb_seqZ (f : Z → bool) lo n k :
  forallb f (seqZ lo n) = true → lo ≤ k < lo + n → f k = true.
Proof.
  intros H Hk. rewrite forallb_forall in H. apply H.
  apply list_elem_of_In, elem_of_seqZ. lia.
Qed.

Lemma digit_char_ok k :
  0 ≤ k ≤ 9 →
  pydate.is_digit (pydate.digit_char k) = true
  ∧ pydate.digit_val (pydate.digit_char k) = k.
Proof.
  intros Hk.
  assert (H : digit_ok k = true)
    by (apply (forallb_seqZ digit_ok 0 10); [by vm_compute|lia]).
  apply andb_true_iff in H as [H1 H2]. by apply Z.eqb_eq in H2.
Qed.

Lemma year_digits y :
  0 ≤ y ≤ 9999 →
  1000 * (y / 1000 mod 10) + 100 * (y / 100 mod 10) + 10 * (y / 10 mod 10)
  + y mod 10 = y.
Proof.
  intros Hy. apply Z.eqb_eq.
  apply (forallb_seqZ year_digits_ok 0 10000); [by vm_compute|lia].
Qed.

Lemma month_day_read_back m d :
  1 ≤ m ≤ 12 → 1 ≤ d ≤ 31 → month_day_ok (m, d) = true.
Proof.
  intros Hm Hd.
  assert (H : forallb (fun m => forallb (fun d => month_day_ok (m, d)) (seqZ 1 31))
                (seqZ 1 12) = true) by by vm_compute.
  apply (forallb_seqZ _ 1 12 m) in H; [|lia].
  apply (forallb_seqZ _ 1 31 d) in H; [done|lia].
Qed.

Lemma days_in_month_le y m : 1 ≤ m ≤ 12 → pydate.days_in_month y m ≤ 31.
Proof.
  intros Hm. unfold pydate.days_in_month.
  destruct ((m =? 2) && pydate.is_leap y); [lia|].
  assert (Hc : m = 1 ∨ m = 2 ∨ m = 3 ∨ m = 4 ∨ m = 5 ∨ m = 6 ∨ m = 7 ∨ m = 8
               ∨ m = 9 ∨ m = 10 ∨ m = 11 ∨ m = 12) by lia.
  by repeat (destruct Hc as [->|Hc]; [done|]); subst.
Qed.

Lemma match_ymd_fields y m d :
  0 ≤ y ≤ 9999 → 1 ≤ m ≤ 12 → 1 ≤ d ≤ 31 →
  pydate.match_ymd
    (pydate.pad4 y +:+ "-" +:+ pydate.pad2 m +:+ "-" +:+ pydate.pad2 d)
  = Some (y, m, d).
Proof.
  intros Hy Hm Hd.
  pose proof (month_day_read_back m d Hm Hd) as Hmd. unfold month_day_ok in Hmd.
  cbn [fst snd] in Hmd.
  unfold pydate.match_ymd.
  change (pydate.pad4 y +:+ "-" +:+ pydate.pad2 m +:+ "-" +:+ pydate.pad2 d)
    with (String (pydate.digit_char (y / 1000 mod 10))
            (String (pydate.digit_char (y / 100 mod 10))
               (String (pydate.digit_char (y / 10 mod 10))
                  (String (pydate.digit_char (y mod 10))
                     (String "-" (pydate.pad2 m +:+ "-" +:+ pydate.pad2 d)))))).
  cbn [list_ascii_of_string].
  destruct (digit_char_ok (y / 1000 mod 10)) as [-> ->];
    [pose proof (Z.mod_pos_bound (y / 1000) 10); lia|].
  destruct (digit_char_ok (y / 100 mod 10)) as [-> ->];
    [pose proof (Z.mod_pos_bound (y / 100) 10); lia|].
  destruct (digit_char_ok (y / 10 mod 10)) as [-> ->];
    [pose proof (Z.mod_pos_bound (y / 10) 10); lia|].
  destruct (digit_char_ok (y mod 10)) as [-> ->];
    [pose proof (Z.mod_pos_bound y 10); lia|].
  cbn [andb Ascii.eqb Bool.eqb].
  destruct (pydate.parse_month _) as [[m' [|dash rest]]|]; [done| |done].
  apply andb_true_iff in Hmd as [-> Hmd].
  destruct (pydate.parse_day rest) as [[d' [|]]|]; [|done..].
  apply andb_true_iff in Hmd as [Hm' Hd'].
  apply Z.eqb_eq in Hm', Hd'. subst. by rewrite year_digits.
Qed.

Lemma strptime_strftime o :
  1 ≤ o ≤ pydate.MAXORDINAL →
  pydate.strptime (pydate.strftime o) = Ok o
  ∧ slice10 (pydate.strftime o) = pydate.strftime o.
Proof.
  intros Ho.
  destruct (ord2ymd_valid o Ho) as (y & m & d & Hymd & Hy & Hm & Hd & Hord).
  pose proof (days_in_month_le y m Hm) as Hle.
  unfold pydate.strftime. rewrite Hymd. split.
  - unfold pydate.strptime. rewrite match_ymd_fields by lia.
    destruct (Z.leb_spec 1 y); [|lia].
    destruct (Z.leb_spec d (pydate.days_in_month y m)); [|lia].
    simpl. by rewrite Hord.
  - reflexivity.
Qed.

(** *** Calendar order, day numbers and the order of the texts *)

Lemma days_before_year_step y :
  pydate.days_before_year (y + 1)
  = pydate.days_before_year y + 365 + (if pydate.is_leap y then 1 else 0).
Proof.
  unfold pydate.days_before_year, pydate.is_leap. cbv zeta.
  replace (y + 1 - 1) with y by lia.
  destruct (Z.eqb_spec (y mod 4) 0), (Z.eqb_spec (y mod 100) 0),
    (Z.eqb_spec (y mod 400) 0); cbn [andb orb negb];
    Z.to_euclidean_division_equations; lia.
Qed.

Lemma days_before_year_mono y1 y2 :
  y1 ≤ y2 → pydate.days_before_year y1 ≤ pydate.days_before_year y2.
Proof.
  intros H. unfold pydate.days_before_year. cbv zeta.
  Z.to_euclidean_division_equations. lia.
Qed.

Ltac month_cases m H :=
  let Hc := fresh "Hc" in
  assert (Hc : m = 1 ∨ m = 2 ∨ m = 3 ∨ m = 4 ∨ m = 5 ∨ m = 6 ∨ m = 7 ∨ m = 8
               ∨ m = 9 ∨ m = 10 ∨ m = 11 ∨ m = 12) by lia;
  clear H;
  repeat (destruct Hc as [->|Hc]; [|]); [..|subst m].

Lemma days_before_month_next y m1 m2 :
  1 ≤ m1 → m1 < m2 → m2 ≤ 12 →
  pydate.days_before_month y m1 + pydate.days_in_month y m1
  ≤ pydate.days_before_month y m2.
Proof.
  intros H1 H12 H2.
  unfold pydate.days_before_month, pydate.days_in_month.
  destruct (pydate.is_leap y).
  - assert (H : 1 ≤ m1 ≤ 12) by lia. month_cases m1 H;
      (assert (H : 1 ≤ m2 ≤ 12) by lia; month_cases m2 H; first [lia|by vm_compute]).
  - assert (H : 1 ≤ m1 ≤ 12) by lia. month_cases m1 H;
      (assert (H : 1 ≤ m2 ≤ 12) by lia; month_cases m2 H; first [lia|by vm_compute]).
Qed.

Lemma days_before_month_nonneg y m : 0 ≤ pydate.days_before_month y m.
Proof.
  unfold pydate.days_before_month.
  assert (0 ≤ pydate.DAYS_BEFORE_MONTH m).
  { unfold pydate.DAYS_BEFORE_MONTH.
    destruct m as [|p|p]; [done| |done].
    do 4 (destruct p as [p|p|]; try done). }
  destruct (_ && _); lia.
Qed.

Lemma day_of_year_le y m d :
  1 ≤ m ≤ 12 → d ≤ pydate.days_in_month y m →
  pydate.days_before_month y m + d ≤ 365 + (if pydate.is_leap y then 1 else 0).
Proof.
  intros Hm Hd. revert Hd.
  unfold pydate.days_before_month, pydate.days_in_month.
  destruct (pydate.is_leap y); month_cases m Hm; cbn; lia.
Qed.

Lemma ymd2ord_lt y1 m1 d1 y2 m2 d2 :
  1 ≤ m1 ≤ 12 → 1 ≤ d1 ≤ pydate.days_in_month y1 m1 →
  1 ≤ m2 ≤ 12 → 1 ≤ d2 ≤ pydate.days_in_month y2 m2 →
  ymd_lt (y1, m1, d1) (y2, m2, d2) →
  pydate.ymd2ord y1 m1 d1 < pydate.ymd2ord y2 m2 d2.
Proof.
  intros Hm1 Hd1 Hm2 Hd2 [Hy|[-> [Hm|[-> Hd]]]]; unfold pydate.ymd2ord.
  - pose proof (day_of_year_le y1 m1 d1 Hm1 (proj2 Hd1)).
    pose proof (days_before_year_step y1).
    pose proof (days_before_year_mono (y1 + 1) y2 ltac:(lia)).
    pose proof (days_before_month_nonneg y2 m2). lia.
  - pose proof (days_before_month_next y2 m1 m2 ltac:(lia) Hm ltac:(lia)). lia.
  - lia.
Qed.

Lemma digit_compare a b :
  0 ≤ a ≤ 9 → 0 ≤ b ≤ 9 →
  Ascii.compare (pydate.digit_char a) (pydate.digit_char b) = (a ?= b).
Proof.
  intros Ha Hb. unfold Ascii.compare, pydate.digit_char.
  rewrite !N_ascii_embedding by lia.
  rewrite Z2N.inj_compare by lia. apply Z.add_compare_mono_l.
Qed.

Lemma cmp_digits2 (a b : Z) (K : comparison) :
  0 ≤ a ≤ 99 → 0 ≤ b ≤ 99 →
  match a / 10 mod 10 ?= b / 10 mod 10 with
  | Eq => match a mod 10 ?= b mod 10 with Eq => K | Lt => Lt | Gt => Gt end
  | Lt => Lt
  | Gt => Gt
  end
  = match a ?= b with Eq => K | Lt => Lt | Gt => Gt end.
Proof.
  intros Ha Hb.
  destruct (Z.compare_spec (a / 10 mod 10) (b / 10 mod 10)),
    (Z.compare_spec (a mod 10) (b mod 10)), (Z.compare_spec a b);
    try reflexivity; exfalso; Z.to_euclidean_division_equations; lia.
Qed.

Lemma cmp_digits4 (a b : Z) (K : comparison) :
  0 ≤ a ≤ 9999 → 0 ≤ b ≤ 9999 →
  match a / 1000 mod 10 ?= b / 1000 mod 10 with
  | Eq =>
      match a / 100 mod 10 ?= b / 100 mod 10 with
      | Eq =>
          match a / 10 mod 10 ?= b / 10 mod 10 with
          | Eq => match a mod 10 ?= b mod 10 with Eq => K | Lt => Lt | Gt => Gt end
          | Lt => Lt
          | Gt => Gt
          end
      | Lt => Lt
      | Gt => Gt
      end
  | Lt => Lt
  | Gt => Gt
  end
  = match a ?= b with Eq => K | Lt => Lt | Gt => Gt end.
Proof.
  intros Ha Hb.
  replace (a / 1000 mod 10) with (a / 100 / 10 mod 10)
    by (rewrite Z.div_div by lia; done).
  replace (b / 1000 mod 10) with (b / 100 / 10 mod 10)
    by (rewrite Z.div_div by lia; done).
  replace (a / 100 mod 10) with ((a / 100) mod 10) by done.
  replace (a / 10 mod 10) with (a mod 100 / 10 mod 10)
    by (Z.to_euclidean_division_equations; lia).
  replace (b / 10 mod 10) with (b mod 100 / 10 mod 10)
    by (Z.to_euclidean_division_equations; lia).
  replace (a mod 10) with (a mod 100 mod 10)
    by (Z.to_euclidean_division_equations; lia).
  replace (b mod 10) with (b mod 100 mod 10)
    by (Z.to_euclidean_division_equations; lia).
  rewrite (cmp_digits2 (a mod 100) (b mod 100) K)
    by (Z.to_euclidean_division_equations; lia).
  rewrite (cmp_digits2 (a / 100) (b / 100))
    by (Z.to_euclidean_division_equations; lia).
  destruct (Z.compare_spec (a / 100) (b / 100)),
    (Z.compare_spec (a mod 100) (b mod 100)), (Z.compare_spec a b);
    try reflexivity; exfalso; Z.to_euclidean_division_equations; lia.
Qed.

Lemma compare_ymd_text y1 m1 d1 y2 m2 d2 :
  0 ≤ y1 ≤ 9999 → 0 ≤ m1 ≤ 99 → 0 ≤ d1 ≤ 99 →
  0 ≤ y2 ≤ 9999 → 0 ≤ m2 ≤ 99 → 0 ≤ d2 ≤ 99 →
  String.compare
    (pydate.pad4 y1 +:+ "-" +:+ pydate.pad2 m1 +:+ "-" +:+ pydate.pad2 d1)
    (pydate.pad4 y2 +:+ "-" +:+ pydate.pad2 m2 +:+ "-" +:+ pydate.pad2 d2)
  = match y1 ?= y2 with
    | Eq => match m1 ?= m2 with Eq => d1 ?= d2 | Lt => Lt | Gt => Gt end
    | Lt => Lt
    | Gt => Gt
    end.
Proof.
  intros Hy1 Hm1 Hd1 Hy2 Hm2 Hd2.
  assert (Hdig : ∀ n, 0 ≤ n mod 10 ≤ 9)
    by (intros n; pose proof (Z.mod_pos_bound n 10); lia).
  rewrite <- (cmp_digits4 y1 y2) by done.
  rewrite <- (cmp_digits2 m1 m2) by done.
  replace (d1 ?= d2) with (match d1 ?= d2 with Eq => Eq | Lt => Lt | Gt => Gt end)
    by (by destruct (d1 ?= d2)).
  rewrite <- (cmp_digits2 d1 d2) by done.
  rewrite <- !digit_compare by done.
  reflexivity.
Qed.

Lemma strftime_compare o1 o2 :
  1 ≤ o1 ≤ pydate.MAXORDINAL → 1 ≤ o2 ≤ pydate.MAXORDINAL →
  String.compare (pydate.strftime o1) (pydate.strftime o2) = (o1 ?= o2).
Proof.
  intros H1 H2.
  destruct (ord2ymd_valid o1 H1) as (y1 & m1 & d1 & E1 & Hy1 & Hm1 & Hd1 & Ho1).
  destruct (ord2ymd_valid o2 H2) as (y2 & m2 & d2 & E2 & Hy2 & Hm2 & Hd2 & Ho2).
  pose proof (days_in_month_le y1 m1 Hm1). pose proof (days_in_month_le y2 m2 Hm2).
  unfold pydate.strftime. rewrite E1, E2.
  rewrite compare_ymd_text by lia.
  pose proof (ymd2ord_lt y1 m1 d1 y2 m2 d2 Hm1 Hd1 Hm2 Hd2) as Hlt.
  pose proof (ymd2ord_lt y2 m2 d2 y1 m1 d1 Hm2 Hd2 Hm1 Hd1) as Hgt.
  unfold ymd_lt in Hlt, Hgt. rewrite Ho1, Ho2 in Hlt, Hgt.
  symmetry.
  destruct (Z.compare_spec y1 y2) as [->| |];
    [|apply Z.compare_lt_iff; lia|apply Z.compare_gt_iff; lia].
  destruct (Z.compare_spec m1 m2) as [->| |];
    [|apply Z.compare_lt_iff; lia|apply Z.compare_gt_iff; lia].
  destruct (Z.compare_spec d1 d2) as [->| |];
    [|apply Z.compare_lt_iff; lia|apply Z.compare_gt_iff; lia].
  apply Z.compare_eq_iff. congruence.
Qed.

Lemma strftime_ltb o1 o2 :
  1 ≤ o1 ≤ pydate.MAXORDINAL → 1 ≤ o2 ≤ pydate.MAXORDINAL →
  String.ltb (pydate.strftime o1) (pydate.strftime o2) = (o1 <? o2).
Proof.
  intros H1 H2. unfold String.ltb, Z.ltb. by rewrite strftime_compare.
Qed.

Lemma strftime_inj o1 o2 :
  1 ≤ o1 ≤ pydate.MAXORDINAL → 1 ≤ o2 ≤ pydate.MAXORDINAL →
  pydate.strftime o1 = pydate.strftime o2 → o1 = o2.
Proof.
  intros H1 H2 E. apply Z.compare_eq_iff.
  rewrite <- strftime_compare, E by done. apply string_compare_refl.
Qed.

Lemma fold_min_strftime rest :
  ∀ om, 1 ≤ om ≤ pydate.MAXORDINAL →
    (∀ s, s ∈ rest → ∃ o, 1 ≤ o ≤ pydate.MAXORDINAL ∧ s = pydate.strftime o) →
    ∃ o', fold_left (fun m y => if String.ltb y m then y else m) rest
            (pydate.strftime om) = pydate.strftime o'
          ∧ 1 ≤ o' ≤ pydate.MAXORDINAL ∧ o' ≤ om
          ∧ (o' = om ∨ pydate.strftime o' ∈ rest)
          ∧ ∀ o, 1 ≤ o ≤ pydate.MAXORDINAL → pydate.strftime o ∈ rest → o' ≤ o.
Proof.
  induction rest as [|y rest IH]; intros om Hom Hall; cbn [fold_left].
  - exists om. split_and!; [done|lia|lia|lia|by left|].
    intros o _ Hin. by apply elem_of_nil in Hin.
  - destruct (Hall y) as (oy & Hoy & ->); [by left|].
    rewrite strftime_ltb by done.
    assert (Hrest : ∀ s, s ∈ rest →
              ∃ o, 1 ≤ o ≤ pydate.MAXORDINAL ∧ s = pydate.strftime o)
      by (intros s Hs; apply Hall; by right).
    destruct (Z.ltb_spec oy om) as [Hlt|Hge].
    + destruct (IH oy Hoy Hrest) as (o' & -> & Ho' & Hle & Hmem & Hmin).
      exists o'. split_and!; [done|lia|lia|lia| |].
      * right. destruct Hmem as [->|Hmem]; [by left|by right].
      * intros o Ho Hin. apply elem_of_cons in Hin as [Heq|Hin]; [|by apply Hmin].
        apply strftime_inj in Heq; [lia|done..].
    + destruct (IH om Hom Hrest) as (o' & -> & Ho' & Hle & Hmem & Hmin).
      exists o'. split_and!; [done|lia|lia|lia| |].
      * destruct Hmem as [->|Hmem]; [by left|right; by right].
      * intros o Ho Hin. apply elem_of_cons in Hin as [Heq|Hin]; [|by apply Hmin].
        apply strftime_inj in Heq; [lia|done..].
Qed.

Lemma fold_max_strftime rest :
  ∀ om, 1 ≤ om ≤ pydate.MAXORDINAL →
    (∀ s, s ∈ rest → ∃ o, 1 ≤ o ≤ pydate.MAXORDINAL ∧ s = pydate.strftime o) →
    ∃ o', fold_left (fun m y => if String.ltb m y then y else m) rest
            (pydate.strftime om) = pydate.strftime o'
          ∧ 1 ≤ o' ≤ pydate.MAXORDINAL ∧ om ≤ o'
          ∧ (o' = om ∨ pydate.strftime o' ∈ rest)
          ∧ ∀ o, 1 ≤ o ≤ pydate.MAXORDINAL → pydate.strftime o ∈ rest → o ≤ o'.
Proof.
  induction rest as [|y rest IH]; intros om Hom Hall; cbn [fold_left].
  - exists om. split_and!; [done|lia|lia|lia|by left|].
    intros o _ Hin. by apply elem_of_nil in Hin.
  - destruct (Hall y) as (oy & Hoy & ->); [by left|].
    rewrite strftime_ltb by done.
    assert (Hrest : ∀ s, s ∈ rest →
              ∃ o, 1 ≤ o ≤ pydate.MAXORDINAL ∧ s = pydate.strftime o)
      by (intros s Hs; apply Hall; by right).
    destruct (Z.ltb_spec om oy) as [Hlt|Hge].
    + destruct (IH oy Hoy Hrest) as (o' & -> & Ho' & Hle & Hmem & Hmin).
      exists o'. split_and!; [done|lia|lia|lia| |].
      * right. destruct Hmem as [->|Hmem]; [by left|by right].
      * intros o Ho Hin. apply elem_of_cons in Hin as [Heq|Hin]; [|by apply Hmin].
        apply strftime_inj in Heq; [lia|done..].
    + destruct (IH om Hom Hrest) as (o' & -> & Ho' & Hle & Hmem & Hmin).
      exists o'. split_and!; [done|lia|lia|lia| |].
      * destruct Hmem as [->|Hmem]; [by left|right; by right].
      * intros o Ho Hin. apply elem_of_cons in Hin as [Heq|Hin]; [|by apply Hmin].
        apply strftime_inj in Heq; [lia|done..].
Qed.

Lemma py_min_strftime l :
  l ≠ [] →
  (∀ s, s ∈ l → ∃ o, 1 ≤ o ≤ pydate.MAXORDINAL ∧ s = pydate.strftime o) →
  ∃ o', py_min l = Ok (pydate.strftime o')
        ∧ 1 ≤ o' ≤ pydate.MAXORDINAL ∧ pydate.strftime o' ∈ l
        ∧ ∀ o, 1 ≤ o ≤ pydate.MAXORDINAL → pydate.strftime o ∈ l → o' ≤ o.
Proof.
  destruct l as [|x rest]; [done|]. intros _ Hall.
  destruct (Hall x) as (ox & Hox & ->); [by left|].
  destruct (fold_min_strftime rest ox Hox) as (o' & E & Ho' & Hle & Hmem & Hmin).
  { intros s Hs. apply Hall. by right. }
  exists o'. cbn [py_min]. rewrite E. split_and!; [done|lia|lia| |].
  - destruct Hmem as [->|Hmem]; [by left|by right].
  - intros o Ho Hin. apply elem_of_cons in Hin as [Heq|Hin]; [|by apply Hmin].
    apply strftime_inj in Heq; [lia|done..].
Qed.

Lemma py_max_strftime l :
  l ≠ [] →
  (∀ s, s ∈ l → ∃ o, 1 ≤ o ≤ pydate.MAXORDINAL ∧ s = pydate.strftime o) →
  ∃ o', py_max l = Ok (pydate.strftime o')
        ∧ 1 ≤ o' ≤ pydate.MAXORDINAL ∧ pydate.strftime o' ∈ l
        ∧ ∀ o, 1 ≤ o ≤ pydate.MAXORDINAL → pydate.strftime o ∈ l → o ≤ o'.
Proof.
  destruct l as [|x rest]; [done|]. intros _ Hall.
  destruct (Hall x) as (ox & Hox & ->); [by left|].
  destruct (fold_max_strftime rest ox Hox) as (o' & E & Ho' & Hle & Hmem & Hmin).
  { intros s Hs. apply Hall. by right. }
  exists o'. cbn [py_max]. rewrite E. split_and!; [done|lia|lia| |].
  - destruct Hmem as [->|Hmem]; [by left|by right].
  - intros o Ho Hin. apply elem_of_cons in Hin as [Heq|Hin]; [|by apply Hmin].
    apply strftime_inj in Heq; [lia|done..].
Qed.

Lemma add_days_in_range o delta :
  1 ≤ o + delta ≤ pydate.MAXORDINAL → Z.abs delta ≤ 999999999 →
  pydate.add_days o delta = Ok (o + delta).
Proof.
  intros Ho Hd. unfold pydate.add_days.
  destruct (Z.ltb_spec 999999999 (Z.abs delta)); [lia|].
  destruct (Z.leb_spec 1 (o + delta)); [|lia].
  by destruct (Z.leb_spec (o + delta) pydate.MAXORDINAL); [|lia].
Qed.

(** * Further properties of the dates *)

(** X12. Dates written as [%Y-%m-%d], which is how [_parse_ofx] writes
    them, are read back by the matcher as the same days: for two days of
    the years 1000 to 9999 the distance the matcher computes from their
    texts is the number of days between them. *)
Theorem iso_dates_distance a b :
  pydate.ymd2ord 1000 1 1 ≤ a ≤ pydate.MAXORDINAL →
  pydate.ymd2ord 1000 1 1 ≤ b ≤ pydate.MAXORDINAL →
  pydate.strptime (slice10 (pydate.strftime a)) = Ok a
  ∧ days_between (pydate.strftime a) (pydate.strftime b) = Ok (Z.abs (a - b))
  ∧ days_diff_of (pydate.strftime a) (pydate.strftime b) = Z.abs (a - b).
Proof.
  change (pydate.ymd2ord 1000 1 1) with 364878. intros Ha Hb.
  destruct (strptime_strftime a ltac:(lia)) as [Pa Sa].
  destruct (strptime_strftime b ltac:(lia)) as [Pb Sb].
  unfold days_diff_of, days_between. rewrite Sa, Sb, Pa, Pb. by cbn [rbind].
Qed.

Lemma iso_dates_distance_witness :
  pydate.strftime 739676 = "2026-03-01"
  ∧ pydate.strftime 739679 = "2026-03-04"
  ∧ days_diff_of (pydate.strftime 739676) (pydate.strftime 739679) = 3.
Proof.
  split; [reflexivity|]. split; [reflexivity|].
  refine (proj2 (proj2 (iso_dates_distance 739676 739679 _ _)));
    vm_compute; split; discriminate.
Defined.

Lemma window_of_iso_dates txns tol lo hi :
  0 ≤ tol →
  pydate.ymd2ord 1000 1 1 ≤ lo - tol → hi + tol ≤ pydate.MAXORDINAL →
  nonempty_dates txns ≠ [] →
  (∀ s, s ∈ nonempty_dates txns → ∃ o, lo ≤ o ≤ hi ∧ s = pydate.strftime o) →
  ∃ omin omax,
    lo ≤ omin ≤ hi ∧ lo ≤ omax ≤ hi
    ∧ pydate.strftime omin ∈ nonempty_dates txns
    ∧ pydate.strftime omax ∈ nonempty_dates txns
    ∧ (∀ o, lo ≤ o ≤ hi → pydate.strftime o ∈ nonempty_dates txns →
         omin ≤ o ≤ omax)
    ∧ import_cmd.date_window txns tol
      = Ok (pydate.strftime (omin - tol), pydate.strftime (omax + tol)).
Proof.
  intros Htol Hlo Hhi Hne Hall.
  change (pydate.ymd2ord 1000 1 1) with 364878 in Hlo.
  unfold pydate.MAXORDINAL in Hhi.
  assert (Hall' : ∀ s, s ∈ nonempty_dates txns →
            ∃ o, 1 ≤ o ≤ pydate.MAXORDINAL ∧ s = pydate.strftime o).
  { intros s Hs. destruct (Hall s Hs) as (o & Ho & ->). exists o.
    unfold pydate.MAXORDINAL. split; [lia|done]. }
  destruct (py_min_strftime _ Hne Hall') as (omin & Emin & Homin & Hinmin & Hmin).
  destruct (py_max_strftime _ Hne Hall') as (omax & Emax & Homax & Hinmax & Hmax).
  destruct (Hall _ Hinmin) as (o1 & Ho1 & E1).
  apply strftime_inj in E1; [subst o1|done|unfold pydate.MAXORDINAL; lia].
  destruct (Hall _ Hinmax) as (o2 & Ho2 & E2).
  apply strftime_inj in E2; [subst o2|done|unfold pydate.MAXORDINAL; lia].
  exists omin, omax. split_and!; [lia|lia|lia|lia|done|done| |].
  - intros o Ho Hin.
    assert (1 ≤ o ≤ pydate.MAXORDINAL) by (unfold pydate.MAXORDINAL; lia).
    pose proof (Hmin o ltac:(done) Hin). pose proof (Hmax o ltac:(done) Hin). lia.
  - unfold import_cmd.date_window. rewrite Emin, Emax. cbn [rbind].
    rewrite (proj1 (strptime_strftime omin Homin)),
      (proj1 (strptime_strftime omax Homax)). cbn [rbind].
    replace (omin - tol) with (omin + - tol) by lia.
    rewrite !add_days_in_range by (unfold pydate.MAXORDINAL in *; lia).
    reflexivity.
Qed.

(** X13. When every dated record of the statement carries a [%Y-%m-%d]
    date, the window [bank] asks the ledger for starts [tolerance] days
    before the earliest of these dates and ends [tolerance] days after the
    latest: both ends are dates again, and every day within the tolerance
    of a statement date lies inside the window. *)
Theorem window_covers_statement_dates txns tol lo hi :
  0 ≤ tol →
  pydate.ymd2ord 1000 1 1 ≤ lo - tol → hi + tol ≤ pydate.MAXORDINAL →
  nonempty_dates txns ≠ [] →
  (∀ s, s ∈ nonempty_dates txns → ∃ o, lo ≤ o ≤ hi ∧ s = pydate.strftime o) →
  ∃ a b,
    import_cmd.date_window txns tol = Ok (pydate.strftime a, pydate.strftime b)
    ∧ pydate.strptime (pydate.strftime a) = Ok a
    ∧ pydate.strptime (pydate.strftime b) = Ok b
    ∧ pydate.strftime (a + tol) ∈ nonempty_dates txns
    ∧ pydate.strftime (b - tol) ∈ nonempty_dates txns
    ∧ ∀ o, lo ≤ o ≤ hi → pydate.strftime o ∈ nonempty_dates txns →
        a ≤ o - tol ∧ o + tol ≤ b.
Proof.
  intros Htol Hlo Hhi Hne Hall.
  destruct (window_of_iso_dates txns tol lo hi Htol Hlo Hhi Hne Hall)
    as (omin & omax & Hmin & Hmax & Imin & Imax & Hb & Hw).
  change (pydate.ymd2ord 1000 1 1) with 364878 in Hlo.
  unfold pydate.MAXORDINAL in Hhi.
  exists (omin - tol), (omax + tol). split_and!.
  - done.
  - apply strptime_strftime. unfold pydate.MAXORDINAL. lia.
  - apply strptime_strftime. unfold pydate.MAXORDINAL. lia.
  - by replace (omin - tol + tol) with omin by lia.
  - by replace (omax + tol - tol) with omax by lia.
  - intros o Ho Hin. pose proof (Hb o Ho Hin). lia.
Qed.

Lemma window_covers_statement_dates_witness :
  ∃ a b,
    import_cmd.date_window
      [sample.stmt_debit; sample.stmt_no_date; sample.stmt_credit] 3
    = Ok (pydate.strftime a, pydate.strftime b)
    ∧ pydate.strptime (pydate.strftime a) = Ok a
    ∧ pydate.strptime (pydate.strftime b) = Ok b
    ∧ pydate.strftime (a + 3)
      ∈ nonempty_dates [sample.stmt_debit; sample.stmt_no_date; sample.stmt_credit]
    ∧ pydate.strftime (b - 3)
      ∈ nonempty_dates [sample.stmt_debit; sample.stmt_no_date; sample.stmt_credit]
    ∧ ∀ o, 739676 ≤ o ≤ 739677 →
        pydate.strftime o
        ∈ nonempty_dates [sample.stmt_debit; sample.stmt_no_date; sample.stmt_credit] →
        a ≤ o - 3 ∧ o + 3 ≤ b.
Proof.
  apply (window_covers_statement_dates
           [sample.stmt_debit; sample.stmt_no_date; sample.stmt_credit] 3
           739676 739677).
  - lia.
  - vm_compute. discriminate.
  - vm_compute. discriminate.
  - discriminate.
  - intros s Hs.
    change (nonempty_dates [sample.stmt_debit; sample.stmt_no_date; sample.stmt_credit])
      with ["2026-03-01"; "2026-03-02"] in Hs.
    apply elem_of_cons in Hs as [->|Hs].
    + exists 739676. split; [lia|reflexivity].
    + apply list_elem_of_singleton in Hs as ->.
      exists 739677. split; [lia|reflexivity].
Defined.

(** * What makes the commands fail *)

Lemma days_between_raises a b e : days_between a b = Raise e → e = ValueError.
Proof.
  unfold days_between. intros H.
  destruct (pydate.strptime (slice10 a)) as [d1|e1] eqn:E1; simpl in H.
  - destruct (pydate.strptime (slice10 b)) as [d2|e2] eqn:E2; simpl in H; [done|].
    injection H as <-. by eapply strptime_raises.
  - injection H as <-. by eapply strptime_raises.
Qed.

Lemma scan_existing_raises imp tol exs e :
  ∀ best mt, scan_existing imp tol exs best mt = Raise e → e = ValueError.
Proof.
  induction exs as [|ex rest IH]; intros best mt H; simpl in H; [done|].
  destruct (amount_differs _ _); [by eapply IH|].
  destruct (_ <? _); [by eapply IH|].
  destruct (_ && _); [done|].
  destruct (better_than_best _ _ _) as [[]|e'] eqn:Eb; [by eapply IH..|].
  injection H as <-.
  unfold better_than_best in Eb. destruct best as [b|]; [|done].
  destruct (days_between _ _) as [d|e''] eqn:Ed; simpl in Eb; [done|].
  injection Eb as <-. by eapply days_between_raises.
Qed.

Lemma match_transactions_raises imps exs tol e :
  _match_transactions imps exs tol = Raise e → e = ValueError ∧ 999 ≤ tol.
Proof.
  intros H. split.
  - revert H. induction imps as [|imp rest IH]; [done|].
    rewrite match_transactions_cons.
    destruct (scan_existing imp tol exs None None) as [o|e'] eqn:Es; simpl.
    + destruct (_match_transactions rest exs tol) as [r|e'']; simpl; [done|].
      intros [= <-]. by apply IH.
    + intros [= <-]. by eapply scan_existing_raises.
  - destruct (Z.lt_ge_cases tol 999) as [Hlt|]; [|done].
    destruct (match_transactions_total imps exs tol Hlt) as [r Hr]. congruence.
Qed.

Lemma add_days_raises o delta e : pydate.add_days o delta = Raise e → e = OverflowError.
Proof.
  unfold pydate.add_days. destruct (_ <? _); [congruence|].
  destruct (_ && _); congruence.
Qed.

Lemma date_window_raises txns tol e :
  import_cmd.date_window txns tol = Raise e →
  (e = ValueError ∧ nonempty_dates txns = [])
  ∨ (e = OverflowError ∧ nonempty_dates txns ≠ []).
Proof.
  unfold import_cmd.date_window.
  destruct (nonempty_dates txns) as [|x rest]; [intros [= <-]; by left|].
  cbn [py_min py_max rbind]. intros H. right. split; [|done].
  destruct (pydate.strptime _) as [d0|e0] eqn:E0; cbn [rbind] in H.
  - destruct (pydate.add_days d0 (- tol)) as [d0'|e0'] eqn:A0; cbn [rbind] in H.
    + destruct (pydate.strptime _) as [d1|e1] eqn:E1 in H; cbn [rbind] in H.
      * destruct (pydate.add_days d1 tol) as [d1'|e1'] eqn:A1; cbn [rbind] in H;
          [done|].
        apply add_days_raises in A1 as ->. congruence.
      * apply strptime_raises in E1 as ->. done.
    + apply add_days_raises in A0 as ->. congruence.
  - apply strptime_raises in E0 as ->. done.
Qed.

Lemma bank_raises_cases {W : Type} (c : Client W)
    (file_path account_id detected : string) (txns : list Txn) (dry_run : bool)
    (tolerance : Z) (w w' : World W) (e : exn) :
  import_cmd.bank c file_path account_id detected txns dry_run tolerance w
  = (Raise e, w') →
  txns ≠ []
  ∧ ((e = ValueError ∧ nonempty_dates txns = [] ∧ w' = w)
     ∨ (e = OverflowError ∧ nonempty_dates txns ≠ [] ∧ w' = w)
     ∨ (e = ValueError ∧ 999 ≤ tolerance ∧ nonempty_dates txns ≠ []
        ∧ workspace w' = workspace w)).
Proof.
  intros H. destruct txns as [|t rest]; [done|]. split; [done|].
  unfold import_cmd.bank in H. unfold bind, lift_result in H.
  destruct (import_cmd.date_window (t :: rest) tolerance) as [[start end_]|e0] eqn:Ew.
  - right. right.
    assert (Hne : nonempty_dates (t :: rest) ≠ []).
    { intros Hnil. unfold import_cmd.date_window in Ew. by rewrite Hnil in Ew. }
    rewrite fetch_existing_spec in H. cbv zeta in H.
    destruct (query_each c _ _ _ _) as [rs rw1] in H. cbn [fst snd] in H.
    destruct (_match_transactions _ _ _) as [r|e1] eqn:Em.
    + destruct dry_run; cbn [negb] in H.
      * done.
      * rewrite create_unmatched_spec in H. done.
    + injection H as <- <-.
      apply match_transactions_raises in Em as [-> Ht]. done.
  - injection H as <- <-.
    apply date_window_raises in Ew as [[-> Hn]|[-> Hn]]; [by left|right; by left].
Qed.

Lemma match_raises_cases {W : Type} (c : Client W)
    (account_id statement_file : string) (stmt_txns : list Txn) (tolerance : Z)
    (w w' : World W) (e : exn) :
  reconcile.match_ c account_id statement_file stmt_txns tolerance w = (Raise e, w') →
  e = ValueError
  ∧ stmt_txns ≠ []
  ∧ ((nonempty_dates stmt_txns = [] ∧ w' = w)
     ∨ (999 ≤ tolerance ∧ nonempty_dates stmt_txns ≠ []
        ∧ workspace w' = workspace w)).
Proof.
  intros H. destruct stmt_txns as [|t rest]; [done|].
  unfold reconcile.match_ in H. unfold bind, lift_result in H.
  destruct (nonempty_dates (t :: rest)) as [|x l] eqn:Ed.
  - cbn [py_min] in H. injection H as <- <-. split; [done|]. split; [done|]. by left.
  - cbn [py_min py_max] in H.
    rewrite match_fetch_spec in H. cbv zeta in H.
    destruct (query_each c _ _ _ _) as [rs rw1] in H. cbn [fst snd] in H.
    destruct (_match_transactions _ _ _) as [r|e1] eqn:Em; [done|].
    injection H as <- <-.
    apply match_transactions_raises in Em as [-> Ht].
    split; [done|]. split; [done|]. right. done.
Qed.

(** X16. The account lookup of [start] comes first and is outside every
    [try]: when it fails, [start] fails with the error of the lookup,
    having made no query and written no file. And a [start] that returns
    has had its lookup answered and has then made its six queries, one per
    document type and in order, whatever they answered: a query that
    fails is skipped, and the transaction count of the session is the
    number of documents the other queries returned. *)
Theorem start_lookup_comes_first {W : Type} (c : Client W)
    (acct sdate : string) (balance : float) (w : World W) :
  (∀ e rw, client_get c ("account/" +:+ acct) (remote w) = (Raise e, rw) →
     reconcile.start c acct sdate balance w = (Raise e, mkWorld rw (workspace w)))
  ∧ (∀ res w', reconcile.start c acct sdate balance w = (Ok res, w') →
       ∃ a rw,
         client_get c ("account/" +:+ acct) (remote w) = (Ok a, rw)
         ∧ fst <$> (query_each c (fun e => reconcile.start_sql e sdate)
                      reconcile.START_MAX_RESULTS reconcile.START_ENTITIES rw).1
           = reconcile.START_ENTITIES
         ∧ transaction_count (reconcile.s_session res)
           = length (concat (records_of <$>
                               (query_each c (fun e => reconcile.start_sql e sdate)
                                  reconcile.START_MAX_RESULTS
                                  reconcile.START_ENTITIES rw).1))
         ∧ remote w'
           = (now_isoformat c
                (query_each c (fun e => reconcile.start_sql e sdate)
                   reconcile.START_MAX_RESULTS reconcile.START_ENTITIES rw).2).2).
Proof.
  split.
  - intros e rw H. unfold reconcile.start, bind, get_, on_remote. by rewrite H.
  - intros res w'. unfold reconcile.start, bind, get_, on_remote.
    destruct (client_get c ("account/" +:+ acct) (remote w)) as [[a|e] rw];
      [|done].
    rewrite start_fetch_spec. cbv zeta. cbn [remote workspace].
    intros H. exists a, rw. split; [done|].
    pose proof (query_each_entities c (fun e => reconcile.start_sql e sdate)
                  reconcile.START_MAX_RESULTS reconcile.START_ENTITIES rw) as Hent.
    revert H.
    set (q := query_each c (fun e => reconcile.start_sql e sdate)
                reconcile.START_MAX_RESULTS reconcile.START_ENTITIES rw) in *.
    clearbody q. destruct q as [rs rw1]. cbn [fst snd] in *.
    unfold now, on_remote, write_session. cbn [remote workspace].
    destruct (now_isoformat c rw1) as [t rw2]. intros [= <- <-].
    split; [done|]. split; [|done].
    cbn [reconcile.s_session transaction_count app].
    rewrite !length_concat. f_equal.
    rewrite <- !list_fmap_compose. apply list_fmap_ext. intros i er _.
    cbn. by rewrite length_fmap.
Qed.

(** *** Escaping *)

Lemma read_literal_escape v rest :
  no_leading_quote rest = true →
  read_literal (escape_query_value v +:+ String "'" rest) = Some (v, rest).
Proof.
  intros Hrest. induction v as [|c v IH].
  - cbn [escape_query_value]. rewrite app_empty.
    cbn [read_literal]. change (Ascii.eqb "'" "'") with true. cbv iota.
    destruct rest as [|c' rest']; [done|].
    cbn [no_leading_quote] in Hrest. apply negb_true_iff in Hrest. by rewrite Hrest.
  - cbn [escape_query_value]. destruct (Ascii.eqb c "'") eqn:Ec.
    + apply Ascii.eqb_eq in Ec as ->. rewrite 2 app_cons. cbn [read_literal].
      change (Ascii.eqb "'" "'") with true. cbv iota. by rewrite IH.
    + rewrite app_cons. cbn [read_literal]. by rewrite Ec, IH.
Qed.

Lemma escape_no_quote v :
  forallb (fun c => negb (Ascii.eqb c "'")) (list_ascii_of_string v) = true →
  escape_query_value v = v.
Proof.
  induction v as [|c v IH]; [done|]. cbn [list_ascii_of_string forallb].
  intros [Hc Hv]%andb_true_iff. cbn [escape_query_value].
  apply negb_true_iff in Hc. rewrite Hc. by rewrite IH.
Qed.

(** X17. The two dates [bank] puts into its query are closed literals:
    read with the quoting rule of the query language (a doubled quote is
    one quote), the text after the opening quote gives back the date as it
    was before escaping and stops at the quote the query itself wrote,
    whatever characters the date contains. *)
Theorem window_literals_read_back (entity start end_ : string) :
  let rest := " AND TxnDate <= '" +:+ escape_query_value end_ +:+ "'" in
  import_cmd.select_sql entity (escape_query_value start) (escape_query_value end_)
  = "SELECT * FROM " +:+ entity +:+ " WHERE TxnDate >= '"
    +:+ escape_query_value start +:+ String "'" rest
  ∧ read_literal (escape_query_value start +:+ String "'" rest) = Some (start, rest)
  ∧ read_literal (escape_query_value end_ +:+ "'") = Some (end_, "")
  ∧ (forallb (fun c => negb (Ascii.eqb c "'")) (list_ascii_of_string start) = true →
     escape_query_value start = start).
Proof.
  cbv zeta. split; [reflexivity|]. split; [|split].
  - by apply read_literal_escape.
  - by apply (read_literal_escape end_ "").
  - apply escape_no_quote.
Qed.

(** * The statement parser, the preview and the query text *)

Lemma parse_csv_acc py_float date_col amount_col desc_col rows :
  ∀ acc,
    fold_left (parse_row py_float date_col amount_col desc_col) rows acc
    = acc ++ fold_left (parse_row py_float date_col amount_col desc_col) rows [].
Proof.
  induction rows as [|row rest IH]; intros acc; cbn [fold_left].
  - by rewrite app_nil_r.
  - rewrite (IH (parse_row _ _ _ _ acc row)), (IH (parse_row _ _ _ _ [] row)).
    unfold parse_row. destruct (py_float _); [|done].
    by rewrite app_assoc.
Qed.

Lemma parse_csv_cons py_float date_col amount_col desc_col skip row rows :
  _parse_csv py_float (row :: rows) date_col amount_col desc_col skip
  = parse_row py_float date_col amount_col desc_col [] row
    ++ _parse_csv py_float rows date_col amount_col desc_col skip.
Proof. unfold _parse_csv. cbn [fold_left]. apply parse_csv_acc. Qed.

Lemma parse_csv_records py_float date_col amount_col desc_col skip rows t :
  t ∈ _parse_csv py_float rows date_col amount_col desc_col skip →
  ∃ row, row ∈ rows
    ∧ py_float (amount_text row amount_col) = Some (amount t)
    ∧ date t = get (row !! date_col) ""
    ∧ name t = get (row !! desc_col) ""
    ∧ fitid t = "" ∧ memo t = "" ∧ check_number t = ""
    ∧ type_ t = (if (amount t <? 0)%float then "debit" else "credit").
Proof.
  induction rows as [|row rest IH]; [by intros ?%elem_of_nil|].
  rewrite parse_csv_cons. intros [Ht|Ht]%elem_of_app.
  - exists row. split; [by left|]. unfold parse_row in Ht.
    destruct (py_float _) as [amt|] eqn:Ef; [|by apply elem_of_nil in Ht].
    apply list_elem_of_singleton in Ht as ->. by cbn.
  - destruct (IH Ht) as (r & Hr & H). exists r. split; [by right|done].
Qed.

Lemma parse_csv_length py_float date_col amount_col desc_col skip rows :
  (length (_parse_csv py_float rows date_col amount_col desc_col skip)
   ≤ length rows)%nat.
Proof.
  induction rows as [|row rest IH]; [done|].
  rewrite parse_csv_cons, length_app. unfold parse_row.
  destruct (py_float _); cbn [length app]; lia.
Qed.

(** X18. [_parse_csv] builds at most one record per row, each from a row
    whose amount text reads as a number, with an empty transaction id,
    check number and memo, and with type debit exactly for an amount below
    zero; hence a statement read from delimited text never gets an exact
    match, whatever the ledger holds and whatever the tolerance. *)
Theorem csv_statement_never_exact (py_float : string -> option float)
    (rows : list CsvRow) (date_col amount_col desc_col : string) (skip : bool) :
  let txns := _parse_csv py_float rows date_col amount_col desc_col skip in
  (length txns ≤ length rows)%nat
  ∧ (∀ t, t ∈ txns →
       fitid t = "" ∧ check_number t = "" ∧ memo t = ""
       ∧ (type_ t = "debit" ∨ type_ t = "credit")
       ∧ (type_ t = "debit" ↔ (amount t <? 0)%float = true)
       ∧ ∃ row, row ∈ rows
                ∧ py_float (amount_text row amount_col) = Some (amount t)
                ∧ date t = get (row !! date_col) ""
                ∧ name t = get (row !! desc_col) "")
  ∧ (∀ exs tol r, _match_transactions txns exs tol = Ok r → matched r = []).
Proof.
  intros txns. split; [apply parse_csv_length|]. split.
  - intros t Ht.
    destruct (parse_csv_records py_float date_col amount_col desc_col skip rows t Ht)
      as (row & Hrow & Hf & Hd & Hn & Hfit & Hmemo & Hchk & Hty).
    split; [done|]. split; [done|]. split; [done|].
    split; [rewrite Hty; destruct (_ <? _)%float; [by left|by right]|].
    split; [rewrite Hty; by destruct (_ <? _)%float|].
    by exists row.
  - intros exs tol r Hr.
    destruct (match_entries_sound _ _ _ _ Hr) as (Hm & _ & _).
    apply elem_of_nil_inv. intros e He.
    destruct (Hm e He) as (Hin & _ & _ & _ & Hid).
    destruct (parse_csv_records py_float date_col amount_col desc_col skip rows _ Hin)
      as (_ & _ & _ & _ & _ & Hfit & _ & Hchk & _).
    unfold id_match in Hid. by rewrite Hfit, Hchk in Hid.
Qed.

(** *** The preview *)

Lemma string_leb_refl s : String.leb s s = true.
Proof. unfold String.leb. by rewrite string_compare_refl. Qed.

Lemma ltb_leb y m : String.ltb y m = true → String.leb y m = true.
Proof. unfold String.ltb, String.leb. by destruct (String.compare y m). Qed.

Lemma not_ltb_leb y m : String.ltb y m = false → String.leb m y = true.
Proof.
  unfold String.ltb, String.leb. rewrite (String.compare_antisym y m).
  by destruct (String.compare m y).
Qed.

Lemma leb_empty_inv s : String.leb s "" = true → s = "".
Proof. destruct s as [|c s]; [done|]. intros H. by cbv in H. Qed.

Lemma fold_min_spec rest :
  ∀ m,
    let r := fold_left (fun m y => if String.ltb y m then y else m) rest m in
    (r = m ∨ r ∈ rest) ∧ String.leb r m = true
    ∧ ∀ y, y ∈ rest → String.leb r y = true.
Proof.
  induction rest as [|x rest IH]; intros m; cbn [fold_left].
  - split; [by left|]. split; [apply string_leb_refl|]. by intros y ?%elem_of_nil.
  - cbv zeta in IH. destruct (String.ltb x m) eqn:E.
    + destruct (IH x) as (Hmem & Hle & Hall).
      split; [right; destruct Hmem as [->|?]; [by left|by right]|].
      split; [eapply string_leb_trans; [done|by apply ltb_leb]|].
      intros y [->|Hy]%elem_of_cons; [done|by apply Hall].
    + destruct (IH m) as (Hmem & Hle & Hall).
      split; [destruct Hmem as [->|?]; [by left|right; by right]|].
      split; [done|].
      intros y [->|Hy]%elem_of_cons; [|by apply Hall].
      eapply string_leb_trans; [done|by apply not_ltb_leb].
Qed.

Lemma fold_max_spec rest :
  ∀ m,
    let r := fold_left (fun m y => if String.ltb m y then y else m) rest m in
    (r = m ∨ r ∈ rest) ∧ String.leb m r = true
    ∧ ∀ y, y ∈ rest → String.leb y r = true.
Proof.
  induction rest as [|x rest IH]; intros m; cbn [fold_left].
  - split; [by left|]. split; [apply string_leb_refl|]. by intros y ?%elem_of_nil.
  - cbv zeta in IH. destruct (String.ltb m x) eqn:E.
    + destruct (IH x) as (Hmem & Hle & Hall).
      split; [right; destruct Hmem as [->|?]; [by left|by right]|].
      split; [eapply string_leb_trans; [by apply ltb_leb|done]|].
      intros y [->|Hy]%elem_of_cons; [done|by apply Hall].
    + destruct (IH m) as (Hmem & Hle & Hall).
      split; [destruct Hmem as [->|?]; [by left|right; by right]|].
      split; [done|].
      intros y [->|Hy]%elem_of_cons; [|by apply Hall].
      eapply string_leb_trans; [by apply not_ltb_leb|done].
Qed.

Lemma py_min_default_spec l d :
  (l = [] → py_min_default l d = d)
  ∧ (l ≠ [] → py_min_default l d ∈ l)
  ∧ ∀ y, y ∈ l → String.leb (py_min_default l d) y = true.
Proof.
  destruct l as [|x rest]; [split; [done|]; split; [done|by intros y ?%elem_of_nil]|].
  unfold py_min_default. cbn [py_min].
  destruct (fold_min_spec rest x) as (Hmem & Hle & Hall). cbv zeta in *.
  split; [done|]. split.
  - intros _. destruct Hmem as [->|?]; [by left|by right].
  - intros y [->|Hy]%elem_of_cons; [done|by apply Hall].
Qed.

Lemma py_max_default_spec l d :
  (l = [] → py_max_default l d = d)
  ∧ (l ≠ [] → py_max_default l d ∈ l)
  ∧ ∀ y, y ∈ l → String.leb y (py_max_default l d) = true.
Proof.
  destruct l as [|x rest]; [split; [done|]; split; [done|by intros y ?%elem_of_nil]|].
  unfold py_max_default. cbn [py_max].
  destruct (fold_max_spec rest x) as (Hmem & Hle & Hall). cbv zeta in *.
  split; [done|]. split.
  - intros _. destruct Hmem as [->|?]; [by left|by right].
  - intros y [->|Hy]%elem_of_cons; [done|by apply Hall].
Qed.

(** X19. The summary of [preview] counts every record, and its date range
    runs from the least to the greatest date text of the records in the
    order of strings: both ends are dates of records, both are empty for
    an empty statement, and the start is empty as soon as one record has no
    date. *)
Theorem preview_date_range (py_sum : list float -> float)
    (file_path detected : string) (txns : list Txn) :
  let s := preview_summary py_sum file_path detected txns in
  pv_transaction_count s = length txns
  ∧ pv_transactions s = txns
  ∧ (txns = [] → pv_date_range_start s = "" ∧ pv_date_range_end s = "")
  ∧ (txns ≠ [] →
       ∃ t1 t2, t1 ∈ txns ∧ t2 ∈ txns
                ∧ pv_date_range_start s = date t1 ∧ pv_date_range_end s = date t2)
  ∧ (∀ t, t ∈ txns →
       String.leb (pv_date_range_start s) (date t) = true
       ∧ String.leb (date t) (pv_date_range_end s) = true)
  ∧ (∀ t, t ∈ txns → date t = "" → pv_date_range_start s = "").
Proof.
  cbv zeta. cbn [preview_summary pv_transaction_count pv_transactions
                 pv_date_range_start pv_date_range_end].
  destruct (py_min_default_spec (date <$> txns) "") as (Hmin0 & Hmin1 & Hmin2).
  destruct (py_max_default_spec (date <$> txns) "") as (Hmax0 & Hmax1 & Hmax2).
  split; [done|]. split; [done|]. split; [|split; [|split]].
  - intros ->. split; [by apply Hmin0|by apply Hmax0].
  - intros Hne.
    assert (Hne' : date <$> txns ≠ []) by (by destruct txns).
    pose proof (Hmin1 Hne') as (t1 & E1 & H1)%list_elem_of_fmap.
    pose proof (Hmax1 Hne') as (t2 & E2 & H2)%list_elem_of_fmap.
    by exists t1, t2.
  - intros t Ht.
    assert (Hd : date t ∈ date <$> txns) by (by apply list_elem_of_fmap_2).
    split; [by apply Hmin2|by apply Hmax2].
  - intros t Ht Hd. apply leb_empty_inv.
    pose proof (Hmin2 (date t) (list_elem_of_fmap_2 date _ _ Ht)) as Hle.
    by rewrite Hd in Hle.
Qed.

(** *** The query text *)

Lemma upper_app a b : upper (a +:+ b) = upper a +:+ upper b.
Proof.
  induction a as [|c a IH]; [done|].
  rewrite app_cons. cbn [upper]. by rewrite IH, app_cons.
Qed.

Lemma py_in_unfold needle hay :
  py_in needle hay
  = String.prefix needle hay
    || match hay with
       | EmptyString => false
       | String _ rest => py_in needle rest
       end.
Proof. by destruct hay. Qed.

Lemma py_in_app_r needle a b :
  py_in needle b = true → py_in needle (a +:+ b) = true.
Proof.
  intros H. induction a as [|x a IH]; [by rewrite app_empty|].
  rewrite app_cons, py_in_unfold, IH. apply orb_true_r.
Qed.

Lemma py_in_self needle b : py_in needle (needle +:+ b) = true.
Proof. by rewrite py_in_unfold, prefix_append. Qed.

Lemma build_query_tail entity where_ select n order_by :
  ∃ head, build_query entity where_ select n order_by
          = head +:+ "MAXRESULTS " +:+ str_of_int n.
Proof.
  unfold build_query. cbv zeta.
  destruct (truthy where_), (truthy order_by); cbn [app join].
  - exists (("SELECT " +:+ select +:+ " FROM " +:+ entity) +:+ " "
            +:+ ("WHERE " +:+ where_) +:+ " " +:+ ("ORDERBY " +:+ order_by) +:+ " ").
    by rewrite !append_assoc.
  - exists (("SELECT " +:+ select +:+ " FROM " +:+ entity) +:+ " "
            +:+ ("WHERE " +:+ where_) +:+ " ").
    by rewrite !append_assoc.
  - exists (("SELECT " +:+ select +:+ " FROM " +:+ entity) +:+ " "
            +:+ ("ORDERBY " +:+ order_by) +:+ " ").
    by rewrite !append_assoc.
  - exists (("SELECT " +:+ select +:+ " FROM " +:+ entity) +:+ " ").
    by rewrite !append_assoc.
Qed.

Lemma py_in_limit head tail :
  py_in "MAXRESULTS" (upper (head +:+ " MAXRESULTS " +:+ tail)) = true.
Proof.
  rewrite upper_app. apply py_in_app_r.
  rewrite upper_app.
  change (upper " MAXRESULTS ") with (" " +:+ "MAXRESULTS" +:+ " ").
  rewrite !append_assoc. apply py_in_app_r, py_in_self.
Qed.

(** X20. A query text made by [build_query] ends with its own [MAXRESULTS]
    clause, so [QBClient.query] sends it unchanged, whatever limit the call
    to the client asks for. *)
Theorem built_query_sent_unchanged (entity where_ select : string) (n : Z)
    (order_by : string) (m : Z) :
  query_sql (build_query entity where_ select n order_by) m
  = build_query entity where_ select n order_by
  ∧ ∃ head, build_query entity where_ select n order_by
            = head +:+ "MAXRESULTS " +:+ str_of_int n.
Proof.
  split; [|apply build_query_tail].
  destruct (build_query_tail entity where_ select n order_by) as [head ->].
  unfold query_sql.
  assert (H : py_in "MAXRESULTS" (upper (head +:+ "MAXRESULTS " +:+ str_of_int n))
              = true).
  { rewrite upper_app. apply py_in_app_r. rewrite upper_app.
    change (upper "MAXRESULTS ") with ("MAXRESULTS" +:+ " ").
    rewrite append_assoc. apply py_in_self. }
  by rewrite H.
Qed.

(** X21. [QBClient.query] adds the limit at most once: the text it sends
    always mentions [MAXRESULTS], sending that text again changes nothing,
    and the clause with the limit of the call is appended exactly when the
    text did not mention it in any letter case. *)
Theorem query_limit_added_once (sql : string) (n m : Z) :
  py_in "MAXRESULTS" (upper (query_sql sql n)) = true
  ∧ query_sql (query_sql sql n) m = query_sql sql n
  ∧ (py_in "MAXRESULTS" (upper sql) = false →
     query_sql sql n = sql +:+ " MAXRESULTS " +:+ str_of_int n)
  ∧ (py_in "MAXRESULTS" (upper sql) = true → query_sql sql n = sql).
Proof.
  assert (H : py_in "MAXRESULTS" (upper (query_sql sql n)) = true).
  { unfold query_sql. destruct (py_in "MAXRESULTS" (upper sql)) eqn:E; cbn [negb].
    - done.
    - apply py_in_limit. }
  split; [done|]. split.
  - unfold query_sql at 1. by rewrite H.
  - unfold query_sql. split; intros ->; done.
Qed.

(** * The statement parser for OFX *)

Lemma parse_ofx_inner transactions :
  ∀ txns,
    fold_left (fun txns txn => txns ++ [ofx_record txn]) transactions txns
    = txns ++ (ofx_record <$> transactions).
Proof.
  induction transactions as [|x rest IH]; intros txns; cbn [fold_left fmap list_fmap].
  - by rewrite app_nil_r.
  - rewrite IH, <- app_assoc. done.
Qed.

Lemma parse_ofx_outer accounts :
  ∀ txns,
    fold_left
      (fun txns transactions =>
         fold_left (fun txns txn => txns ++ [ofx_record txn]) transactions txns)
      accounts txns
    = txns ++ (ofx_record <$> concat accounts).
Proof.
  induction accounts as [|a rest IH]; intros txns; cbn [fold_left concat].
  - by rewrite app_nil_r.
  - rewrite IH, parse_ofx_inner, fmap_app, app_assoc. done.
Qed.

Lemma parse_ofx_spec accounts : _parse_ofx accounts = ofx_record <$> concat accounts.
Proof. unfold _parse_ofx. by rewrite parse_ofx_outer. Qed.

Lemma truthy_strftime o : truthy (pydate.strftime o) = true.
Proof. unfold pydate.strftime. by destruct (pydate.ord2ymd o) as [[y m] d]. Qed.

Lemma nonempty_dates_ofx xs s :
  (∀ x o, x ∈ xs → ofx_date x = Some o → 1 ≤ o ≤ pydate.MAXORDINAL) →
  s ∈ nonempty_dates (ofx_record <$> xs) ↔
  ∃ x o, x ∈ xs ∧ ofx_date x = Some o ∧ s = pydate.strftime o.
Proof.
  intros Hr. unfold nonempty_dates.
  rewrite list_elem_of_fmap. split.
  - intros (d & -> & Hd). apply list_elem_of_filter in Hd as [Ht Hd].
    apply list_elem_of_fmap in Hd as (t & -> & Ht').
    apply list_elem_of_fmap in Ht' as (x & -> & Hx).
    cbn [date ofx_record] in *.
    destruct (ofx_date x) as [o|] eqn:Eo; [|done].
    exists x, o. split; [done|]. split; [done|].
    by apply strptime_strftime, (Hr x).
  - intros (x & o & Hx & Eo & ->).
    exists (pydate.strftime o). split.
    + symmetry. by apply strptime_strftime, (Hr x).
    + apply list_elem_of_filter. split; [apply truthy_strftime|].
      apply list_elem_of_fmap. exists (ofx_record x). split.
      * cbn [date ofx_record]. by rewrite Eo.
      * by apply list_elem_of_fmap_2.
Qed.

(** X22. [_parse_ofx] builds one record per transaction of the file, and
    the date of a record is empty or the [%Y-%m-%d] text of the day of the
    transaction, which the matcher reads back as that day. Hence for a
    statement with a dated transaction, all of them between two days of
    the years 1000 to 9999 the tolerance does not leave, the window [bank]
    computes never fails and holds every day within the tolerance of the
    day of a transaction. *)
Theorem ofx_statement_window (accounts : list (list OfxTxn)) (tol lo hi : Z) :
  0 ≤ tol →
  pydate.ymd2ord 1000 1 1 ≤ lo - tol → hi + tol ≤ pydate.MAXORDINAL →
  (∃ x o, x ∈ concat accounts ∧ ofx_date x = Some o) →
  (∀ x o, x ∈ concat accounts → ofx_date x = Some o → lo ≤ o ≤ hi) →
  length (_parse_ofx accounts) = length (concat accounts)
  ∧ (∀ t, t ∈ _parse_ofx accounts →
       date t = "" ∨ ∃ o, lo ≤ o ≤ hi ∧ date t = pydate.strftime o
                          ∧ pydate.strptime (slice10 (date t)) = Ok o)
  ∧ ∃ a b,
      import_cmd.date_window (_parse_ofx accounts) tol
      = Ok (pydate.strftime a, pydate.strftime b)
      ∧ pydate.strptime (pydate.strftime a) = Ok a
      ∧ pydate.strptime (pydate.strftime b) = Ok b
      ∧ ∀ x o, x ∈ concat accounts → ofx_date x = Some o →
          a ≤ o - tol ∧ o + tol ≤ b.
Proof.
  intros Htol Hlo Hhi (x0 & o0 & Hx0 & Eo0) Hall.
  assert (Hlo' : 364878 ≤ lo - tol) by exact Hlo.
  assert (Hr : ∀ x o, x ∈ concat accounts → ofx_date x = Some o →
                 1 ≤ o ≤ pydate.MAXORDINAL).
  { intros x o Hx Eo. pose proof (Hall x o Hx Eo). unfold pydate.MAXORDINAL in *. lia. }
  rewrite parse_ofx_spec. split; [by rewrite length_fmap|]. split.
  - intros t (x & -> & Hx)%list_elem_of_fmap. cbn [date ofx_record].
    destruct (ofx_date x) as [o|] eqn:Eo; [right|by left].
    exists o. split; [by apply (Hall x)|]. split; [done|].
    destruct (strptime_strftime o (Hr x o Hx Eo)) as [P S]. by rewrite S.
  - destruct (window_of_iso_dates (ofx_record <$> concat accounts)
                tol lo hi Htol Hlo Hhi)
      as (omin & omax & Hmin & Hmax & _ & _ & Hb & Hw).
    + intros Hnil.
      assert (Hin : pydate.strftime o0 ∈ nonempty_dates (ofx_record <$> concat accounts))
        by (apply (nonempty_dates_ofx _ _ Hr); by exists x0, o0).
      rewrite Hnil in Hin. by apply elem_of_nil in Hin.
    + intros s (x & o & Hx & Eo & ->)%(nonempty_dates_ofx _ _ Hr).
      exists o. split; [by apply (Hall x)|done].
    + unfold pydate.MAXORDINAL in Hhi.
      exists (omin - tol), (omax + tol). split; [done|].
      split; [apply strptime_strftime; unfold pydate.MAXORDINAL; lia|].
      split; [apply strptime_strftime; unfold pydate.MAXORDINAL; lia|].
      intros x o Hx Eo.
      assert (Hin : pydate.strftime o ∈ nonempty_dates (ofx_record <$> concat accounts))
        by (apply (nonempty_dates_ofx _ _ Hr); by exists x, o).
      pose proof (Hb o (Hall x o Hx Eo) Hin). lia.
Qed.

Lemma ofx_statement_window_witness :
  ∃ a b,
    import_cmd.date_window
      (_parse_ofx
         [[mkOfxTxn (Some 739676) (-20) (Some "F1") (Some "ACME") None None None];
          [mkOfxTxn None 5 None None (Some "fee") None None;
           mkOfxTxn (Some 739679) 35 None None None None None]]) 3
    = Ok (pydate.strftime a, pydate.strftime b)
    ∧ pydate.strptime (pydate.strftime a) = Ok a
    ∧ pydate.strptime (pydate.strftime b) = Ok b
    ∧ a ≤ 739676 - 3 ∧ 739679 + 3 ≤ b.
Proof.
  edestruct (ofx_statement_window
               [[mkOfxTxn (Some 739676) (-20) (Some "F1") (Some "ACME") None None None];
                [mkOfxTxn None 5 None None (Some "fee") None None;
                 mkOfxTxn (Some 739679) 35 None None None None None]]
               3 739676 739679)
    as (_ & _ & a & b & Hw & Pa & Pb & Hcov).
  - lia.
  - vm_compute. discriminate.
  - vm_compute. discriminate.
  - eexists _, 739676. split; [left|reflexivity].
  - intros x o Hx Eo. cbn [concat app] in Hx.
    apply elem_of_cons in Hx as [->|Hx]; [injection Eo as <-; lia|].
    apply elem_of_cons in Hx as [->|Hx]; [discriminate|].
    apply list_elem_of_singleton in Hx as ->. injection Eo as <-. lia.
  - exists a, b. split; [exact Hw|]. split; [exact Pa|]. split; [exact Pb|].
    split.
    + refine (proj1 (Hcov (mkOfxTxn (Some 739676) (-20) (Some "F1") (Some "ACME")
                             None None None) 739676 _ eq_refl)).
      left.
    + refine (proj2 (Hcov (mkOfxTxn (Some 739679) 35 None None None None None)
                       739679 _ eq_refl)).
      right. right. left.
Defined.

(** * The sign of the amounts *)

Lemma scan_existing_same_magnitude imp imp' tol exs :
  date imp' = date imp → fitid imp' = fitid imp →
  check_number imp' = check_number imp →
  abs (amount imp') = abs (amount imp) →
  ∀ best mt,
    scan_existing imp' tol exs best mt = scan_existing imp tol exs best mt.
Proof.
  intros Hd Hf Hc Ha. induction exs as [|ex rest IH]; intros best mt; [done|].
  cbn [scan_existing]. cbv zeta.
  rewrite (amount_differs_abs (amount imp')), Ha, <- amount_differs_abs, Hd.
  unfold id_match. rewrite Hf, Hc.
  destruct (amount_differs _ _); [apply IH|].
  destruct (_ <? _); [apply IH|].
  destruct (_ && _); [done|].
  destruct (better_than_best _ _ _) as [[]|]; [apply IH..|done].
Qed.

(** X23. The matcher looks at the magnitude of the statement amount only:
    two statement records with the same date and identifiers whose amounts
    differ in sign, a debit and a credit of the same sum, get the same
    outcome against the same ledger record, in a whole run as in the scan
    for one record. *)
Theorem amount_sign_is_ignored imp imp' tol exs :
  date imp' = date imp → fitid imp' = fitid imp →
  check_number imp' = check_number imp →
  abs (amount imp') = abs (amount imp) →
  scan_existing imp' tol exs None None = scan_existing imp tol exs None None
  ∧ (∀ r, _match_transactions [imp] exs tol = Ok r →
       ∃ r', _match_transactions [imp'] exs tol = Ok r'
             ∧ existing <$> matched r' = existing <$> matched r
             ∧ existing <$> probable r' = existing <$> probable r
             ∧ length (unmatched r') = length (unmatched r)).
Proof.
  intros Hd Hf Hc Ha.
  pose proof (scan_existing_same_magnitude imp imp' tol exs Hd Hf Hc Ha None None)
    as Hs.
  split; [done|]. intros r. rewrite !match_transactions_single, Hs.
  destruct (scan_existing imp tol exs None None) as [[b mt]|e]; [|done].
  cbn [rbind]. intros [= <-]. eexists. split; [reflexivity|].
  by destruct b as [b|], mt as [[]|].
Qed.

Lemma amount_sign_is_ignored_witness :
  scan_existing (sample.txn "2026-03-01" 42.5 "1001") 3 [sample.ledger_scenario_a]
    None None
  = Ok (Some sample.ledger_scenario_a, Some Exact).
Proof.
  rewrite (proj1 (amount_sign_is_ignored sample.stmt_scenario_a
                    (sample.txn "2026-03-01" 42.5 "1001") 3
                    [sample.ledger_scenario_a] eq_refl eq_refl eq_refl
                    ltac:(vm_compute; reflexivity))).
  vm_compute. reflexivity.
Defined.

(** * What makes the commands fail on an OFX statement *)

Lemma add_days_raises_inv o delta e :
  pydate.add_days o delta = Raise e →
  ¬ (Z.abs delta ≤ 999999999 ∧ 1 ≤ o + delta ≤ pydate.MAXORDINAL).
Proof.
  unfold pydate.add_days.
  destruct (Z.ltb_spec 999999999 (Z.abs delta)); [lia|].
  destruct (Z.leb_spec 1 (o + delta)); [|lia].
  destruct (Z.leb_spec (o + delta) pydate.MAXORDINAL); [done|lia].
Qed.

Lemma date_window_overflow txns tol :
  (∀ s, s ∈ nonempty_dates txns →
        ∃ o, 1 ≤ o ≤ pydate.MAXORDINAL ∧ s = pydate.strftime o) →
  import_cmd.date_window txns tol = Raise OverflowError →
  ∃ o, 1 ≤ o ≤ pydate.MAXORDINAL
       ∧ pydate.strftime o ∈ nonempty_dates txns
       ∧ ¬ (Z.abs tol ≤ 999999999
            ∧ 1 ≤ o - tol ≤ pydate.MAXORDINAL ∧ 1 ≤ o + tol ≤ pydate.MAXORDINAL).
Proof.
  intros Hall Hw.
  assert (Hne : nonempty_dates txns ≠ []).
  { intros Hnil. unfold import_cmd.date_window in Hw. by rewrite Hnil in Hw. }
  destruct (py_min_strftime _ Hne Hall) as (omin & Emin & Homin & Hinmin & _).
  destruct (py_max_strftime _ Hne Hall) as (omax & Emax & Homax & Hinmax & _).
  unfold import_cmd.date_window in Hw. rewrite Emin, Emax in Hw. cbn [rbind] in Hw.
  rewrite (proj1 (strptime_strftime omin Homin)) in Hw. cbn [rbind] in Hw.
  destruct (pydate.add_days omin (- tol)) as [d0|e0] eqn:A0; cbn [rbind] in Hw.
  - rewrite (proj1 (strptime_strftime omax Homax)) in Hw. cbn [rbind] in Hw.
    destruct (pydate.add_days omax tol) as [d1|e1] eqn:A1; cbn [rbind] in Hw; [done|].
    exists omax. split; [done|]. split; [done|].
    apply add_days_raises_inv in A1. lia.
  - exists omin. split; [done|]. split; [done|].
    apply add_days_raises_inv in A0. lia.
Qed.

Lemma ofx_years_range (accounts : list (list OfxTxn)) :
  (∀ x o, x ∈ concat accounts → ofx_date x = Some o →
          pydate.ymd2ord 1000 1 1 ≤ o ≤ pydate.MAXORDINAL) →
  ∀ x o, x ∈ concat accounts → ofx_date x = Some o → 1 ≤ o ≤ pydate.MAXORDINAL.
Proof.
  intros H x o Hx Eo. pose proof (H x o Hx Eo) as Ho.
  change (pydate.ymd2ord 1000 1 1) with 364878 in Ho. lia.
Qed.

Lemma ofx_no_dates (accounts : list (list OfxTxn)) :
  (∀ x o, x ∈ concat accounts → ofx_date x = Some o → 1 ≤ o ≤ pydate.MAXORDINAL) →
  nonempty_dates (_parse_ofx accounts) = [] ↔
  ∀ x, x ∈ concat accounts → ofx_date x = None.
Proof.
  intros Hr. rewrite parse_ofx_spec. split.
  - intros Hnil x Hx. destruct (ofx_date x) as [o|] eqn:Eo; [|done].
    assert (Hin : pydate.strftime o ∈ nonempty_dates (ofx_record <$> concat accounts))
      by (apply (nonempty_dates_ofx _ _ Hr); by exists x, o).
    rewrite Hnil in Hin. by apply elem_of_nil in Hin.
  - intros Hnone. apply elem_of_nil_inv. intros s Hs.
    apply (nonempty_dates_ofx _ _ Hr) in Hs as (x & o & Hx & Eo & _).
    by rewrite (Hnone x Hx) in Eo.
Qed.

Lemma ofx_some_date (accounts : list (list OfxTxn)) :
  (∀ x o, x ∈ concat accounts → ofx_date x = Some o → 1 ≤ o ≤ pydate.MAXORDINAL) →
  nonempty_dates (_parse_ofx accounts) ≠ [] →
  ∃ x o, x ∈ concat accounts ∧ ofx_date x = Some o.
Proof.
  intros Hr Hne. rewrite parse_ofx_spec in Hne.
  destruct (nonempty_dates (ofx_record <$> concat accounts)) as [|s l] eqn:E; [done|].
  assert (Hs : s ∈ nonempty_dates (ofx_record <$> concat accounts))
    by (rewrite E; by left).
  apply (nonempty_dates_ofx _ _ Hr) in Hs as (x & o & Hx & Eo & _). by exists x, o.
Qed.

(** X14. [bank] on the records of an OFX statement (transactions dated
    in the years 1000 to 9999 or not dated; every date of such a record is
    text), against ledger documents with numeric amounts and text dates,
    fails in three ways only, and
    never because the ledger fails: with [ValueError] and no ledger call
    when no transaction has a date; with [OverflowError] and no ledger call
    when the tolerance takes the day of a transaction out of the calendar
    or is beyond what a day count holds; with [ValueError] from the
    matcher, and then only for a tolerance of 999 days or more. *)
Theorem bank_failure_modes {W : Type} (c : Client W)
    (file_path account_id detected : string) (accounts : list (list OfxTxn))
    (dry_run : bool) (tolerance : Z) (w w' : World W) (e : exn) :
  (∀ x o, x ∈ concat accounts → ofx_date x = Some o →
          pydate.ymd2ord 1000 1 1 ≤ o ≤ pydate.MAXORDINAL) →
  import_cmd.bank c file_path account_id detected (_parse_ofx accounts) dry_run
    tolerance w
  = (Raise e, w') →
  concat accounts ≠ []
  ∧ ((e = ValueError ∧ w' = w
      ∧ ∀ x, x ∈ concat accounts → ofx_date x = None)
     ∨ (e = OverflowError ∧ w' = w
        ∧ ∃ x o, x ∈ concat accounts ∧ ofx_date x = Some o
                 ∧ ¬ (Z.abs tolerance ≤ 999999999
                      ∧ 1 ≤ o - tolerance ≤ pydate.MAXORDINAL
                      ∧ 1 ≤ o + tolerance ≤ pydate.MAXORDINAL))
     ∨ (e = ValueError ∧ 999 ≤ tolerance ∧ workspace w' = workspace w
        ∧ ∃ x o, x ∈ concat accounts ∧ ofx_date x = Some o)).
Proof.
  intros Hyears H. pose proof (ofx_years_range accounts Hyears) as Hr.
  destruct (bank_raises_cases c _ _ _ _ _ _ _ _ _ H) as [Hne Hcases].
  split.
  { intros Hnil. apply Hne. by rewrite parse_ofx_spec, Hnil. }
  destruct Hcases as [(-> & Hnil & ->)|[(-> & Hd & ->)|(-> & Ht & Hd & Hw)]].
  - left. split; [done|]. split; [done|]. by apply ofx_no_dates.
  - right. left. split; [done|]. split; [done|].
    assert (Hw : import_cmd.date_window (_parse_ofx accounts) tolerance
                 = Raise OverflowError).
    { destruct (_parse_ofx accounts) as [|t rest] eqn:Et; [done|].
      unfold import_cmd.bank, bind, lift_result in H.
      destruct (import_cmd.date_window (t :: rest) tolerance) as [[s1 s2]|e0] eqn:Ew.
      - rewrite fetch_existing_spec in H. cbv zeta in H.
        destruct (query_each c _ _ _ _) as [rs rw1] in H. cbn [fst snd] in H.
        destruct (_match_transactions _ _ _) as [r|e1] eqn:Em.
        + destruct dry_run; cbn [negb] in H; [done|].
          by rewrite create_unmatched_spec in H.
        + injection H as He _. apply match_transactions_raises in Em as [-> _].
          discriminate.
      - by injection H as ->. }
    destruct (date_window_overflow (_parse_ofx accounts) tolerance) as (o & Ho & Hin & Hbad);
      [|done|].
    { intros s Hs. rewrite parse_ofx_spec in Hs.
      apply (nonempty_dates_ofx _ _ Hr) in Hs as (x & o & Hx & Eo & ->).
      exists o. split; [by apply (Hr x)|done]. }
    rewrite parse_ofx_spec in Hin.
    apply (nonempty_dates_ofx _ _ Hr) in Hin as (x & o' & Hx & Eo & Heq).
    apply strftime_inj in Heq; [subst o'|done|by apply (Hr x)].
    by exists x, o.
  - right. right. split; [done|]. split; [done|]. split; [done|].
    by apply ofx_some_date.
Qed.

Lemma bank_failure_modes_witness :
  import_cmd.bank sample.empty_ledger "stmt.ofx" "35" "ofx"
    (_parse_ofx [[mkOfxTxn (Some 3652058) 1 None None None None None]])
    false 3 sample.world0
  = (Raise OverflowError, sample.world0)
  ∧ ∃ x o, x ∈ concat [[mkOfxTxn (Some 3652058) 1 None None None None None]]
           ∧ ofx_date x = Some o
           ∧ ¬ (Z.abs 3 ≤ 999999999
                ∧ 1 ≤ o - 3 ≤ pydate.MAXORDINAL ∧ 1 ≤ o + 3 ≤ pydate.MAXORDINAL).
Proof.
  split; [vm_compute; reflexivity|].
  destruct (bank_failure_modes sample.empty_ledger "stmt.ofx" "35" "ofx"
              [[mkOfxTxn (Some 3652058) 1 None None None None None]]
              false 3 sample.world0 sample.world0 OverflowError)
    as (_ & [(He & _)|[(_ & _ & H)|(He & _)]]).
  - intros x o Hx Eo. cbn [concat app] in Hx.
    apply list_elem_of_singleton in Hx as ->. injection Eo as <-.
    vm_compute. split; discriminate.
  - vm_compute. reflexivity.
  - discriminate He.
  - exact H.
  - discriminate He.
Defined.

(** X15. The session [match] on the records of an OFX statement
    (transactions dated in the years 1000 to 9999 or not dated; every date
    of such a record is text), against ledger documents with numeric
    amounts and text dates, fails with
    [ValueError] only: without any ledger call when no transaction has a
    date, else from the matcher and then only for a tolerance of 999 days
    or more. The workspace is left as it was. *)
Theorem match_failure_modes {W : Type} (c : Client W)
    (account_id statement_file : string) (accounts : list (list OfxTxn))
    (tolerance : Z) (w w' : World W) (e : exn) :
  (∀ x o, x ∈ concat accounts → ofx_date x = Some o →
          pydate.ymd2ord 1000 1 1 ≤ o ≤ pydate.MAXORDINAL) →
  reconcile.match_ c account_id statement_file (_parse_ofx accounts) tolerance w
  = (Raise e, w') →
  e = ValueError
  ∧ concat accounts ≠ []
  ∧ ((w' = w ∧ ∀ x, x ∈ concat accounts → ofx_date x = None)
     ∨ (999 ≤ tolerance ∧ workspace w' = workspace w
        ∧ ∃ x o, x ∈ concat accounts ∧ ofx_date x = Some o)).
Proof.
  intros Hyears H. pose proof (ofx_years_range accounts Hyears) as Hr.
  destruct (match_raises_cases c _ _ _ _ _ _ _ H) as (-> & Hne & Hcases).
  split; [done|]. split.
  { intros Hnil. apply Hne. by rewrite parse_ofx_spec, Hnil. }
  destruct Hcases as [[Hnil ->]|(Ht & Hd & Hw)].
  - left. split; [done|]. by apply ofx_no_dates.
  - right. split; [done|]. split; [done|]. by apply ofx_some_date.
Qed.

Lemma match_failure_modes_witness :
  ∃ w',
    reconcile.match_ (sample.recording None [] [sample.bad_date_100; sample.march_2])
      "35" "stmt.ofx"
      (_parse_ofx [[mkOfxTxn (Some 739676) 100 None None None None None]])
      1000 sample.world0
    = (Raise ValueError, w')
    ∧ workspace w' = workspace sample.world0.
Proof.
  eexists. split; [vm_compute; reflexivity|].
  edestruct (match_failure_modes
               (sample.recording None [] [sample.bad_date_100; sample.march_2])
               "35" "stmt.ofx"
               [[mkOfxTxn (Some 739676) 100 None None None None None]]
               1000 sample.world0)
    as (_ & _ & [[_ Hn]|(_ & Hw & _)]).
  - intros x o Hx Eo. cbn [concat app] in Hx.
    apply list_elem_of_singleton in Hx as ->. injection Eo as <-.
    vm_compute. split; discriminate.
  - vm_compute. reflexivity.
  - specialize (Hn _ ltac:(left)). discriminate Hn.
  - exact Hw.
Defined.
